(** * foodstory_bill_importer: the column normalizer, the date and time
      repair and the importer of [db_manager.py], embedded and verified.

    Python's [str] is a sequence of Unicode code points; it is modelled as
    [list N].  The interpreter's character tables (whitespace, decimal
    digits, word characters, case mapping, NFKC) are not part of the
    repository: they enter through the record [ucd], and results are stated
    for every table that coincides with the Basic Latin one on code points
    below 128. *)

From stdpp Require Import base numbers list strings gmap sorting.
From Stdlib Require Decimal DecimalN.

Local Open Scope Z_scope.

(** ** Strings *)

Abbreviation cp := N (only parsing).
Abbreviation str := (list N) (only parsing).

(** The code points of a literal of the source written in Basic Latin. *)
Definition lit (s : string) : str :=
  map Ascii.N_of_ascii (String.list_ascii_of_string s).

Definition is_ascii (c : cp) : bool := (c <? 128)%N.
Definition ascii_str (s : str) : Prop := Forall (λ c, is_ascii c = true) s.

Global Instance ascii_str_dec s : Decision (ascii_str s).
Proof. unfold ascii_str. apply _. Defined.

(** [pat in s] on strings: [pat] occurs in [s] as a contiguous run. *)
Fixpoint strip_prefix (p s : str) : option str :=
  match p, s with
  | [], _ => Some s
  | a :: p', b :: s' => if (a =? b)%N then strip_prefix p' s' else None
  | _ :: _, [] => None
  end.

Fixpoint contains (p s : str) : bool :=
  match strip_prefix p s with
  | Some _ => true
  | None => match s with [] => false | _ :: s' => contains p s' end
  end.

(** ** Character tables of the interpreter *)

Record ucd := {
  isspace : cp → bool;          (* str.isspace, and \s of re *)
  decimal : cp → option Z;      (* value of a decimal digit, \d of re, int() *)
  isalnum : cp → bool;          (* str.isalnum *)
  lower   : str → str;          (* str.lower() *)
  nfkc    : str → str           (* unicodedata.normalize('NFKC', _) *)
}.

(** The tables on Basic Latin, on U+0130 (capital I with dot above, a
    letter whose lowercase is [i] followed by U+0307), on U+0307 (combining
    dot above, a nonspacing mark) and on the Thai block, whose consonants,
    vowels U+0E30, U+0E32, U+0E33, U+0E40 to U+0E46 and digits are
    alphanumeric while its other vowel signs and its tone marks are not.
    The instance is evaluated on texts over these code points that are in
    NFKC form already. *)
Definition between (lo hi c : cp) : bool := ((lo <=? c) && (c <=? hi))%N.

Definition latin_isspace (c : cp) : bool := between 9 13 c || between 28 32 c.

Definition latin_isdigit (c : cp) : bool := between 48 57 c.
Definition thai_isdigit (c : cp) : bool := between 3664 3673 c.

Definition latin_decimal (c : cp) : option Z :=
  if latin_isdigit c then Some (Z.of_N c - 48)
  else if thai_isdigit c then Some (Z.of_N c - 3664)
  else None.

Definition latin_isupper (c : cp) : bool := between 65 90 c.
Definition latin_islower (c : cp) : bool := between 97 122 c.

Definition thai_isalpha (c : cp) : bool :=
  between 3585 3632 c || between 3634 3635 c || between 3648 3654 c.

Definition latin_isalnum (c : cp) : bool :=
  latin_isdigit c || latin_isupper c || latin_islower c || (c =? 304)%N
  || thai_isalpha c || thai_isdigit c.

Definition latin_lower_cp (c : cp) : str :=
  if latin_isupper c then [(c + 32)%N]
  else if (c =? 304)%N then [105%N; 775%N]
  else [c].

Definition latin_lower (s : str) : str := flat_map latin_lower_cp s.

Definition latin : ucd := {|
  isspace := latin_isspace;
  decimal := latin_decimal;
  isalnum := latin_isalnum;
  lower := latin_lower;
  nfkc := λ s, s
|}.

(** A table is admissible when it agrees with [latin] on Basic Latin and
    its decimal digits have the values 0 to 9. *)
Record basic_latin (U : ucd) : Prop := {
  bl_digit   : ∀ c v, decimal U c = Some v → 0 ≤ v ≤ 9;
  bl_isspace : ∀ c, is_ascii c = true → isspace U c = latin_isspace c;
  bl_decimal : ∀ c, is_ascii c = true → decimal U c = latin_decimal c;
  bl_isalnum : ∀ c, is_ascii c = true → isalnum U c = latin_isalnum c;
  bl_lower   : ∀ s, ascii_str s → lower U s = latin_lower s;
  bl_nfkc    : ∀ s, ascii_str s → nfkc U s = s
}.

(** ** The fragment of [re] the source uses *)

Inductive cls :=
| CDigit                       (* \d *)
| CSpace                       (* \s *)
| CWord                        (* \w: alphanumeric, or the underscore *)
| CChr (c : cp)                (* a literal character *)
| CRange (lo hi : cp)          (* [lo-hi] *)
| CNot (k : cls)               (* [^...] *)
| COr (k1 k2 : cls).           (* two items of one bracket *)

Inductive re :=
| REps
| RCls (k : cls)
| RLit (l : str)
| RSeq (a b : re)
| RAlt (a b : re)              (* a|b, left first *)
| ROpt (a : re)                (* a?, greedy *)
| RStar (k : cls)              (* k*, greedy *)
| RGrp (a : re).               (* capturing group *)

Declare Scope re_scope.
Delimit Scope re_scope with re.
Bind Scope re_scope with re.
Infix "⋅" := RSeq (at level 40, left associativity) : re_scope.

Definition RPlus (k : cls) : re := (RCls k ⋅ RStar k)%re.

Section Engine.
Variable U : ucd.

Fixpoint cls_match (k : cls) (c : cp) : bool :=
  match k with
  | CDigit => bool_decide (is_Some (decimal U c))
  | CSpace => isspace U c
  | CWord => isalnum U c || (c =? 95)%N
  | CChr d => (c =? d)%N
  | CRange lo hi => ((lo <=? c) && (c <=? hi))%N
  | CNot k' => negb (cls_match k' c)
  | COr k1 k2 => cls_match k1 c || cls_match k2 c
  end.

Section Run.
Context {R : Type}.

(** Greedy iteration of a class: the longest run first, then shorter
    ones, as the backtracking matcher of [re] tries them.  [pre] is
    the text matched so far, last character first. *)
Fixpoint star (k : cls) (s pre : str) (cont : str → str → option R) : option R :=
  match s with
  | c :: s' =>
      if cls_match k c then
        match star k s' (c :: pre) cont with
        | Some r => Some r
        | None => cont s pre
        end
      else cont s pre
  | [] => cont [] pre
  end.

(** Backtracking match of [r] at the head of [s]; [caps] collects the
    text of the groups closed so far, in order. *)
Fixpoint run (r : re) (s pre : str) (caps : list str)
    (cont : str → str → list str → option R) : option R :=
  match r with
  | REps => cont s pre caps
  | RCls k =>
      match s with
      | c :: s' => if cls_match k c then cont s' (c :: pre) caps else None
      | [] => None
      end
  | RLit l =>
      match strip_prefix l s with
      | Some s' => cont s' (reverse l ++ pre) caps
      | None => None
      end
  | RSeq a b => run a s pre caps (λ s' pre' caps', run b s' pre' caps' cont)
  | RAlt a b =>
      match run a s pre caps cont with
      | Some x => Some x
      | None => run b s pre caps cont
      end
  | ROpt a =>
      match run a s pre caps cont with
      | Some x => Some x
      | None => cont s pre caps
      end
  | RStar k => star k s pre (λ s' pre', cont s' pre' caps)
  | RGrp a =>
      run a s pre caps
        (λ s' pre' caps',
           cont s' pre'
             (caps' ++ [reverse (take (length pre' - length pre) pre')]))
  end.
End Run.

(** [re.match]: anchored at the start, the groups of the match. *)
Definition re_match (r : re) (s : str) : option (list str) :=
  run r s [] [] (λ _ _ caps, Some caps).

(** [re.search]: the leftmost position at which [r] matches. *)
Fixpoint re_search (r : re) (s : str) : option (list str) :=
  match re_match r s with
  | Some g => Some g
  | None => match s with [] => None | _ :: s' => re_search r s' end
  end.

(** Length of the match of [r] at the head of [s]. *)
Definition match_len (r : re) (s : str) : option nat :=
  run r s [] [] (λ _ pre _, Some (length pre)).

(** [re.sub(r, '', s)]: every non-overlapping match, leftmost first, is
    deleted; [skip] counts the characters of the current match still to
    drop. *)
Fixpoint re_del (r : re) (skip : nat) (s : str) : str :=
  match s with
  | [] => []
  | c :: s' =>
      match skip with
      | S n => re_del r n s'
      | O =>
          match match_len r s with
          | Some (S n) => re_del r n s'
          | _ => c :: re_del r 0 s'
          end
      end
  end.

Definition re_sub_empty (r : re) (s : str) : str := re_del r 0 s.

(** [m.group(i)], i from 1. *)
Definition group (i : nat) (g : list str) : str := nth (i - 1) g [].

(** [int(s)] on a run of decimal digits. *)
Definition int_of (s : str) : Z :=
  fold_left (λ a c, 10 * a + default 0 (decimal U c)) s 0.

(** [s.strip()]: whitespace removed at both ends. *)
Fixpoint lstrip (s : str) : str :=
  match s with
  | c :: s' => if isspace U c then lstrip s' else s
  | [] => []
  end.

Definition strip (s : str) : str := reverse (lstrip (reverse (lstrip s))).
End Engine.

(** ** Rendering integers *)

Fixpoint uint_cps (d : Decimal.uint) : str :=
  match d with
  | Decimal.Nil => []
  | Decimal.D0 d => 48%N :: uint_cps d
  | Decimal.D1 d => 49%N :: uint_cps d
  | Decimal.D2 d => 50%N :: uint_cps d
  | Decimal.D3 d => 51%N :: uint_cps d
  | Decimal.D4 d => 52%N :: uint_cps d
  | Decimal.D5 d => 53%N :: uint_cps d
  | Decimal.D6 d => 54%N :: uint_cps d
  | Decimal.D7 d => 55%N :: uint_cps d
  | Decimal.D8 d => 56%N :: uint_cps d
  | Decimal.D9 d => 57%N :: uint_cps d
  end.

(** [str(n)] for a non-negative [int]. *)
Definition str_of_int (n : Z) : str := uint_cps (N.to_uint (Z.to_N n)).

(** [f"{n:02d}"] and [f"{n:04d}"] for a non-negative [int]: zero padding on
    the left up to the width, never a truncation. *)
Definition fmt_d (width : nat) (n : Z) : str :=
  let d := str_of_int n in
  replicate (width - length d) 48%N ++ d.

(** [f"{h:02d}:{m:02d}:{s:02d}"] *)
Definition hms (h m s : Z) : str :=
  fmt_d 2 h ++ lit ":" ++ fmt_d 2 m ++ lit ":" ++ fmt_d 2 s.

(** ** Values of a dataframe cell

    A cell read from an upload is a missing value, a string, an integer or
    a float.  Floats are kept abstract: [F] is the type of the finite and
    infinite float values, NaN being [CNaN]. *)
Inductive cell (F : Type) :=
| CNaN
| CStr (s : str)
| CInt (z : Z)
| CFloat (f : F).
Arguments CNaN {F}.
Arguments CStr {F} s.
Arguments CInt {F} z.
Arguments CFloat {F} f.

(** ** Column Normalizer and time repair *)

Definition pat_spaces : re := RPlus CSpace.                      (* \s+ *)
Definition pat_not_word_dot : re :=                              (* [^\w.] *)
  RCls (CNot (COr CWord (CChr 46%N))).
Definition pat_not_word : re := RCls (CNot CWord).               (* [^\w] *)

Definition two_digits : re := (RCls CDigit ⋅ RCls CDigit)%re.    (* \d{2} *)
Definition one_or_two_digits : re :=                             (* \d{1,2} *)
  (RCls CDigit ⋅ ROpt (RCls CDigit))%re.

(* (\d{1,2}):(\d{2}):(\d{2}) *)
Definition pat_hms : re :=
  (RGrp one_or_two_digits ⋅ RLit (lit ":") ⋅ RGrp two_digits
   ⋅ RLit (lit ":") ⋅ RGrp two_digits)%re.

(* (\d{1,2}):(\d{2}) *)
Definition pat_hm : re :=
  (RGrp one_or_two_digits ⋅ RLit (lit ":") ⋅ RGrp two_digits)%re.

(* (\d+)\s*hour(?:s)?\s*(\d+)\s*min(?:ute)?s? *)
Definition pat_hour_min : re :=
  (RGrp (RPlus CDigit) ⋅ RStar CSpace ⋅ RLit (lit "hour") ⋅ ROpt (RLit (lit "s"))
   ⋅ RStar CSpace ⋅ RGrp (RPlus CDigit) ⋅ RStar CSpace ⋅ RLit (lit "min")
   ⋅ ROpt (RLit (lit "ute")) ⋅ ROpt (RLit (lit "s")))%re.

(* (\d+)\s*min(?:ute)?s? *)
Definition pat_min : re :=
  (RGrp (RPlus CDigit) ⋅ RStar CSpace ⋅ RLit (lit "min")
   ⋅ ROpt (RLit (lit "ute")) ⋅ ROpt (RLit (lit "s")))%re.

(* (\d+)\s*hour(?:s)? *)
Definition pat_hour : re :=
  (RGrp (RPlus CDigit) ⋅ RStar CSpace ⋅ RLit (lit "hour") ⋅ ROpt (RLit (lit "s")))%re.

Section Repair.
Variable U : ucd.

Definition keeps_dot (col_name : str) : bool :=
  let lower_col_name := lower U col_name in
  contains (lit "inv.no") lower_col_name
  || contains (lit "custom payment ref.") lower_col_name
  || contains (lit "custompaymentref.") lower_col_name.

Definition normalize_column_name (col_name : str) : str :=
  let normalized := nfkc U col_name in
  let normalized := re_sub_empty U pat_spaces normalized in
  let normalized :=
    if keeps_dot col_name
    then re_sub_empty U pat_not_word_dot normalized
    else re_sub_empty U pat_not_word normalized in
  lower U normalized.

(** The duration branch: the total of seconds. *)
Definition duration_seconds (t_str : str) : Z :=
  match re_search U pat_hour_min t_str with
  | Some g =>
      let hours := int_of U (group 1 g) in
      let minutes := int_of U (group 2 g) in
      hours * 3600 + minutes * 60
  | None =>
      let total_seconds :=
        match re_search U pat_min t_str with
        | Some g => int_of U (group 1 g) * 60
        | None => 0
        end in
      match re_search U pat_hour t_str with
      | Some g => int_of U (group 1 g) * 3600
      | None => total_seconds
      end
  end.

Definition format_time_string_for_storage {F} (t_str : cell F) : str :=
  match t_str with
  | CStr t_str =>
      let t_str := lower U (strip U t_str) in
      match re_match U pat_hms t_str with
      | Some g =>
          hms (int_of U (group 1 g)) (int_of U (group 2 g)) (int_of U (group 3 g))
      | None =>
          match re_match U pat_hm t_str with
          | Some g =>
              fmt_d 2 (int_of U (group 1 g)) ++ lit ":"
              ++ fmt_d 2 (int_of U (group 2 g)) ++ lit ":00"
          | None =>
              let total_seconds := duration_seconds t_str in
              if 0 <? total_seconds then
                hms (total_seconds / 3600) (total_seconds `mod` 3600 / 60)
                    (total_seconds `mod` 60)
              else lit "00:00:00"
          end
      end
  | _ => lit "00:00:00"
  end.
End Repair.

(** The contract of the Column Normalizer by its words: canonical
    composition, all whitespace stripped, every character that is not
    alphanumeric stripped, the dot kept when the header matches one of the
    invoice-number or payment-reference patterns, lowercase. *)
Definition normalize_by_the_words (U : ucd) (header : str) : str :=
  lower U
    (List.filter (λ c, isalnum U c || keeps_dot U header && (c =? 46)%N)
       (List.filter (λ c, negb (isspace U c)) (nfkc U header))).

(** ** Date repair

    [pd.to_datetime(s, format=fmt, errors='coerce')] is modelled by the
    directive patterns of [strptime]: the format is matched at the head of
    the text, the whole text has to be consumed, and the fields have to
    name a calendar day inside the range of the timestamp type.  That
    range and the format-free parse of [pd.to_datetime(s, errors='coerce')]
    belong to the library: they are the fields of [pandas]. *)

Record date := Date { year : Z; month : Z; day : Z }.

Inductive directive :=
| Pd                 (* %d *)
| Pm                 (* %m *)
| PY                 (* %Y *)
| Pchr (c : cp).     (* a character of the format standing for itself *)

(** [lo-hi] between two decimal digits of Basic Latin. *)
Definition rng (lo hi : N) : re := RCls (CRange (48 + lo) (48 + hi)).

(* 3[0-1]|[1-2]\d|0[1-9]|[1-9]| [1-9] *)
Definition pat_day : re :=
  RAlt (RLit (lit "3") ⋅ rng 0 1)
    (RAlt (rng 1 2 ⋅ RCls CDigit)
      (RAlt (RLit (lit "0") ⋅ rng 1 9)
        (RAlt (rng 1 9) (RLit (lit " ") ⋅ rng 1 9)))).

(* 1[0-2]|0[1-9]|[1-9] *)
Definition pat_month : re :=
  RAlt (RLit (lit "1") ⋅ rng 0 2)
    (RAlt (RLit (lit "0") ⋅ rng 1 9) (rng 1 9)).

(* \d\d\d\d *)
Definition pat_year : re := (RCls CDigit ⋅ RCls CDigit ⋅ RCls CDigit ⋅ RCls CDigit)%re.

Definition directive_re (d : directive) : re :=
  match d with
  | Pd => RGrp pat_day
  | Pm => RGrp pat_month
  | PY => RGrp pat_year
  | Pchr c => RLit [c]
  end.

Definition format_re (fmt : list directive) : re :=
  foldr (λ d r, RSeq (directive_re d) r) REps fmt.

Definition is_leap (y : Z) : bool :=
  (y `mod` 4 =? 0) && (negb (y `mod` 100 =? 0) || (y `mod` 400 =? 0)).

Definition days_in_month (y m : Z) : Z :=
  if m =? 2 then (if is_leap y then 29 else 28)
  else if (m =? 4) || (m =? 6) || (m =? 9) || (m =? 11) then 30
  else 31.

Definition valid_date (d : date) : bool :=
  (1 <=? month d) && (month d <=? 12) && (1 <=? day d)
  && (day d <=? days_in_month (year d) (month d)).

(** The fields of a match, in the order of the directives. *)
Fixpoint fields (U : ucd) (fmt : list directive) (g : list str) (d : date) : date :=
  match fmt with
  | [] => d
  | Pchr _ :: fmt' => fields U fmt' g d
  | dir :: fmt' =>
      match g with
      | [] => d
      | x :: g' =>
          let v := int_of U (strip U x) in
          fields U fmt' g'
            match dir with
            | Pd => Date (year d) (month d) v
            | Pm => Date (year d) v (day d)
            | _ => Date v (month d) (day d)
            end
      end
  end.

(* '%d/%m/%Y', '%Y-%m-%d', '%m/%d/%Y'; "/" is 47 and "-" is 45 *)
Definition fmt_dmy : list directive := [Pd; Pchr 47; Pm; Pchr 47; PY].
Definition fmt_ymd : list directive := [PY; Pchr 45; Pm; Pchr 45; Pd].
Definition fmt_mdy : list directive := [Pm; Pchr 47; Pd; Pchr 47; PY].

Record pandas := {
  float : Type;
  zero : float;                           (* 0.0 *)
  numeric_of_str : str → option (Z + float);
                                          (* pd.to_numeric on a string; None: not a number *)
  int_of_float : float → option Z;        (* astype(int); None: the cast raises *)
  float_of_int : Z → float;               (* an integer held by a float64 column *)
  str_of_float : float → str;             (* str(x) *)
  in_range : date → bool;                 (* inside the timestamp bounds *)
  parse_any : str → option date;          (* to_datetime without format; None: NaT *)
  float_of_int_finite : ∀ z, int_of_float (float_of_int z) ≠ None
                                          (* the float of an integer is finite:
                                             its cast to int does not raise *)
}.

Section Dates.
Variable U : ucd.
Variable P : pandas.

(** The format matched at the head of the text, nothing left over. *)
Definition strptime (fmt : list directive) (s : str) : option date :=
  match run U (format_re fmt) s [] [] (λ s' _ g, Some (s', g)) with
  | Some ([], g) => Some (fields U fmt g (Date 1900 1 1))
  | _ => None
  end.

Definition to_datetime (fmt : list directive) (s : str) : option date :=
  match strptime fmt s with
  | Some d => if valid_date d && in_range P d then Some d else None
  | None => None
  end.

(** [dt_obj.strftime('%Y-%m-%d')] *)
Definition strftime (d : date) : str :=
  fmt_d 4 (year d) ++ lit "-" ++ fmt_d 2 (month d) ++ lit "-" ++ fmt_d 2 (day d).

(** The loop over the explicit formats: the first that parses wins. *)
Fixpoint try_formats (fmts : list (list directive)) (s : str) : option date :=
  match fmts with
  | [] => None
  | fmt :: rest =>
      match to_datetime fmt s with
      | Some d => Some d
      | None => try_formats rest s
      end
  end.

Definition parse_date_robust_and_format (date_str : cell (float P)) : str :=
  match date_str with
  | CStr date_str =>
      let dt_obj := try_formats [fmt_dmy; fmt_ymd; fmt_mdy] date_str in
      let dt_obj :=
        match dt_obj with
        | Some d => Some d
        | None => parse_any P date_str
        end in
      match dt_obj with
      | Some d => strftime d
      | None => []
      end
  | _ => []
  end.
End Dates.

(** ** Column mappings and SQL types *)

(** The header of the voucher amount: "Voucher Amount", a Thai gloss,
    "Voucher", and a Thai sentence, as code points. *)
Definition voucher_amount_header : str := (
  [86; 111; 117; 99; 104; 101; 114; 32; 65; 109; 111; 117; 110; 116; 32; 3617; 3641; 3621; 3588; 3656; 3634; 32; 86; 111; 117; 99; 104; 101; 114; 32; 3617; 3637; 3650; 3629; 3585; 3634; 3626; 3607; 3637; 3656; 3592; 3632; 3617; 3634; 3585; 3585; 3623; 3656; 3634; 3618; 3629; 3604; 3619; 3623; 3617; 3607; 3633; 3657; 3591; 3610; 3636; 3621; 32; 3626; 3656; 3623; 3609; 3621; 3604; 3607; 3637; 3656; 3651; 3594; 3657; 3652; 3604; 3657; 3626; 3641; 3591; 3626; 3640; 3604; 3592; 3638; 3591; 3648; 3611; 3655; 3609; 3618; 3629; 3604; 3619; 3623; 3617; 3586; 3629; 3591; 3610; 3636; 3621])%N.

Definition BILLS_COLUMN_MAPPING : list (str * str) := [
  (lit "Payment Date", lit "payment_date");
  (lit "Payment Time", lit "payment_time");
  (lit "Time", lit "time_col");
  (lit "Receipt Number", lit "receipt_number");
  (lit "POS ID", lit "pos_id");
  (lit "INV. No", lit "inv_no");
  (lit "Summary Price", lit "summary_price");
  (lit "Discount By Item", lit "discount_by_item");
  (lit "Subtotal Bill Discount", lit "subtotal_bill_discount");
  (lit "Subtotal Summary Price - Discount By Item", lit "subtotal_summary_price_minus_discount_by_item");
  (lit "Service charge", lit "service_charge");
  (lit "Non VAT", lit "non_vat");
  (lit "Ex. VAT", lit "ex_vat");
  (lit "Before Vat Subtotal + Service charge", lit "before_vat_subtotal_plus_service_charge");
  (lit "VAT", lit "vat");
  (voucher_amount_header, lit "voucher_amount_desc");
  (lit "Voucher Discount", lit "voucher_discount");
  (lit "Rouding amount", lit "rounding_amt");
  (lit "Delivery Fee", lit "delivery_fee");
  (lit "Total (Before Vat + VAT + Rouding amount) - Non-VAT amount", lit "total_final_bill");
  (lit "Tips", lit "tips");
  (lit "Refund", lit "refund");
  (lit "Order Type", lit "order_type");
  (lit "Drawer ID", lit "drawer_id");
  (lit "Payment Type", lit "payment_type");
  (lit "Custom Payment Ref.", lit "custom_payment_ref");
  (lit "Channel", lit "channel");
  (lit "Table", lit "table_num");
  (lit "Seat Amount", lit "seat_amount");
  (lit "Customer Name", lit "customer_name");
  (lit "Remark", lit "remark");
  (lit "Promotion Code", lit "promotion_code");
  (lit "Bill open by", lit "bill_open_by");
  (lit "Bill close by", lit "bill_close_by");
  (lit "Branch", lit "branch")
].

Definition DETAIL_BILLS_COLUMN_MAPPING : list (str * str) := [
  (lit "Payment Date", lit "payment_date");
  (lit "Payment Time", lit "payment_time");
  (lit "Receipt Number", lit "receipt_number");
  (lit "INV. No", lit "inv_no");
  (lit "Drawer ID", lit "drawer_id");
  (lit "Menu Code", lit "menu_code");
  (lit "Menu Name", lit "menu_name");
  (lit "Order Type", lit "order_type");
  (lit "Quantity", lit "quantity");
  (lit "Price per unit", lit "price_per_unit");
  (lit "Summary Price", lit "summary_price");
  (lit "Discount By Item", lit "discount_by_item");
  (lit "Discount By Item Percent", lit "discount_by_item_percent");
  (lit "Discounted Price", lit "discounted_price");
  (lit "VATable type", lit "vatable_type");
  (lit "Channel", lit "channel");
  (lit "Table", lit "table_num");
  (lit "Customer Name", lit "customer_name");
  (lit "Phone Number", lit "phone_number");
  (lit "Payment Type", lit "payment_type");
  (lit "Custom Payment Ref.", lit "custom_payment_ref");
  (lit "Remark", lit "remark");
  (lit "Group", lit "group_col");
  (lit "Category", lit "category");
  (lit "Bill open by", lit "bill_open_by");
  (lit "Bill close by", lit "bill_close_by");
  (lit "Branch", lit "branch");
  (voucher_amount_header, lit "voucher_amount_desc");
  (lit "Voucher Discount", lit "voucher_discount");
  (lit "Rouding amount", lit "rounding_amt")
].

Inductive sql_type := REAL | INTEGER | TEXT.

(** [x in l] for a list of strings. *)
Definition mem (x : str) (l : list str) : bool := bool_decide (x ∈ l).

Definition numeric_cols : list str := map lit [
  "summary_price"; "discount_by_item"; "subtotal_bill_discount";
  "subtotal_summary_price_minus_discount_by_item"; "service_charge";
  "non_vat"; "ex_vat"; "before_vat_subtotal_plus_service_charge";
  "vat"; "voucher_amount_desc"; "voucher_discount"; "rounding_amt";
  "delivery_fee"; "total_final_bill"; "tips"; "quantity"; "price_per_unit";
  "discount_by_item_percent"; "discounted_price"; "refund"
]%string.

Definition integer_cols : list str := [lit "seat_amount"].

Definition get_sql_type (column_name : str) : sql_type :=
  if mem column_name numeric_cols then REAL
  else if mem column_name integer_cols then INTEGER
  else if mem column_name [lit "payment_date"; lit "payment_time"] then TEXT
  else TEXT.

(** ** Exceptions *)

Inductive exn := ValueError | KeyError | IntCastingNaNError | SqliteError.

Inductive result (A : Type) :=
| Ok (a : A)
| Raise (e : exn).
Arguments Ok {A} a.
Arguments Raise {A} e.

Global Instance result_ret : MRet result := λ A, Ok.
Global Instance result_bind : MBind result := λ A B f r,
  match r with
  | Ok a => f a
  | Raise e => Raise e
  end.

Fixpoint foldM {A B} (f : B → A → result B) (l : list A) (b : B) : result B :=
  match l with
  | [] => Ok b
  | x :: l' => b' ← f b x; foldM f l' b'
  end.

Fixpoint traverse {A B} (f : A → result B) (l : list A) : result (list B) :=
  match l with
  | [] => Ok []
  | x :: l' => y ← f x; ys ← traverse f l'; Ok (y :: ys)
  end.

(** ** Dataframes

    A frame has a row index and named columns over it.  The uploads carry
    the default index [0 .. nrows-1], so alignment between the upload and
    the frame built from it is the identity, and a frame is given by its
    number of rows and its columns, in order. *)

Record frame (F : Type) := Frame {
  nrows : nat;
  cols : list (str * list (cell F))
}.
Arguments Frame {F} nrows cols.
Arguments nrows {F} f.
Arguments cols {F} f.

Section Frames.
Context {F : Type}.
Implicit Types (fr : frame F) (v : list (cell F)).

(** [df.columns] *)
Definition columns fr : list str := (cols fr).*1.

(** [df[name]] *)
Fixpoint assoc {A} (name : str) (l : list (str * A)) : option A :=
  match l with
  | [] => None
  | (k, x) :: l' => if bool_decide (k = name) then Some x else assoc name l'
  end.

Definition column fr (name : str) : option (list (cell F)) :=
  assoc name (cols fr).

Fixpoint replace_col (name : str) v (l : list (str * list (cell F))) :=
  match l with
  | [] => []
  | (k, x) :: l' =>
      if bool_decide (k = name) then (k, v) :: l'
      else (k, x) :: replace_col name v l'
  end.

(** [pd.DataFrame()] *)
Definition empty_frame : frame F := Frame 0 [].

(** [fr.loc[:, name] = v] for a series [v] over the upload's index.
    An existing column has its values set.  A new column is appended;
    on a frame without rows the frame first takes the index of [v],
    columns already there being filled with NaN. *)
Definition loc_set_series (name : str) v fr : frame F :=
  if mem name (columns fr) then Frame (nrows fr) (replace_col name v (cols fr))
  else if bool_decide (nrows fr = 0%nat) then
    Frame (length v)
      (map (λ kx, (kx.1, replicate (length v) CNaN)) (cols fr) ++ [(name, v)])
  else Frame (nrows fr) (cols fr ++ [(name, v)]).

(** [fr.loc[:, name] = x] for a scalar [x].  A new column on a frame
    without rows raises "cannot set a frame with no defined index and a
    scalar". *)
Definition loc_set_scalar (name : str) (x : cell F) fr : result (frame F) :=
  if mem name (columns fr) then
    Ok (Frame (nrows fr) (replace_col name (replicate (nrows fr) x) (cols fr)))
  else if bool_decide (nrows fr = 0%nat) then Raise ValueError
  else Ok (Frame (nrows fr) (cols fr ++ [(name, replicate (nrows fr) x)])).

(** [fr[names].values.tolist()] *)
Definition values_tolist fr (names : list str) : result (list (list (cell F))) :=
  cs ← traverse (λ name, match column fr name with
                      | Some v => Ok v
                      | None => Raise KeyError
                      end) names;
  Ok (map (λ i, map (λ v, nth i v CNaN) cs) (seq 0 (nrows fr))).

(** [s.fillna(x)], cell by cell *)
Definition fillna (x : cell F) (c : cell F) : cell F :=
  match c with
  | CNaN => x
  | _ => c
  end.
End Frames.

(** ** Storage

    A table holds the rows inserted so far, each one the values bound to
    the columns named by the insert.  A connection works on a private
    copy: rows inserted through it are pending until [commit], and
    [close] drops what is pending. *)

Record table (F : Type) := Table {
  tcols : list str;
  trows : list (list (str * cell F))
}.
Arguments Table {F} tcols trows.
Arguments tcols {F} t.
Arguments trows {F} t.

Record connection (F : Type) := Connection {
  committed : gmap (list N) (table F);
  pending : list (str * list (str * cell F))
}.
Arguments Connection {F} committed pending.
Arguments committed {F} c.
Arguments pending {F} c.

(** The storage engine: whether the file opens, and whether it takes a
    row (constraints, bindable values). *)
Record engine (F : Type) := {
  connects : bool;
  accepts : str → list (str * cell F) → bool
}.
Arguments connects {F} e.
Arguments accepts {F} e.

Section Storage.
Context {F : Type} (E : engine F).
Implicit Types (db : gmap (list N) (table F)) (c : connection F).

Definition stored db (name : str) : list (list (str * cell F)) :=
  match db !! name with
  | Some t => trows t
  | None => []
  end.

(** The statement compiles: the table is there with the named columns. *)
Definition prepares db (name : str) (names : list str) : bool :=
  match db !! name with
  | Some t => forallb (λ k, mem k (tcols t)) names
  | None => false
  end.

Fixpoint insert_rows (name : str) (names : list str)
    (rows : list (list (cell F))) c : result unit * connection F :=
  match rows with
  | [] => (Ok (), c)
  | r :: rows' =>
      let row := zip names r in
      if accepts E name row then
        insert_rows name names rows'
          (Connection (committed c) (pending c ++ [(name, row)]))
      else (Raise SqliteError, c)
  end.

(** [cursor.executemany("INSERT INTO name (names) VALUES (?, ...)", rows)] *)
Definition executemany (name : str) (names : list str)
    (rows : list (list (cell F))) c : result unit * connection F :=
  if prepares (committed c) name names then insert_rows name names rows c
  else (Raise SqliteError, c).

Definition add_row db (p : str * list (str * cell F)) :=
  match db !! p.1 with
  | Some t => <[p.1 := Table (tcols t) (trows t ++ [p.2])]> db
  | None => db
  end.

(** [conn.commit()] *)
Definition commit c : connection F :=
  Connection (foldl add_row (committed c) (pending c)) [].

(** [conn.close()]: what was not committed is lost. *)
Definition close c : gmap (list N) (table F) := committed c.
End Storage.

(** ** Importer *)

Section Importer.
Variable U : ucd.
Variable P : pandas.
Variable E : engine (float P).

Local Abbreviation cell := (cell (float P)).
Local Abbreviation frame := (frame (float P)).

(** The number a cell reads as under [pd.to_numeric(_, errors='coerce')];
    [None] is NaN. *)
Definition to_numeric (c : cell) : option cell :=
  match c with
  | CNaN => None
  | CStr s =>
      match numeric_of_str P s with
      | Some (inl z) => Some (CInt z)
      | Some (inr f) => Some (CFloat f)
      | None => None
      end
  | CInt z => Some (CInt z)
  | CFloat f => Some (CFloat f)
  end.

(** [str(x)] of a cell, as [astype(str)] takes it. *)
Definition py_str (c : cell) : str :=
  match c with
  | CNaN => lit "nan"
  | CStr s => s
  | CInt z => if z <? 0 then lit "-" ++ str_of_int (- z) else str_of_int z
  | CFloat f => str_of_float P f
  end.

(* pd.to_numeric(col, errors='coerce').fillna(0.0), at one cell *)
Definition coerce_real (c : cell) : cell :=
  fillna (CFloat (zero P)) (default CNaN (to_numeric c)).

(* pd.to_numeric(col, errors='coerce').fillna(0).astype(int), at one cell *)
Definition coerce_integer (c : cell) : result cell :=
  match fillna (CInt 0) (default CNaN (to_numeric c)) with
  | CFloat f =>
      match int_of_float P f with
      | Some z => Ok (CInt z)
      | None => Raise IntCastingNaNError
      end
  | x => Ok x
  end.

(* col.astype(str).fillna('') *)
Definition coerce_text (c : cell) : cell :=
  fillna (CStr []) (CStr (py_str c)).

(** The default of a column the upload lacks. *)
Definition default_value (db_col : str) : cell :=
  let sql_type := get_sql_type db_col in
  if mem db_col [lit "receipt_number"; lit "menu_name"] then CStr []
  else match sql_type with
       | REAL => CFloat (zero P)
       | INTEGER => CInt 0
       | TEXT => CNaN
       end.

(** {normalize_column_name(col): col for col in df.columns}: a later
    header replaces an earlier one of the same normal form. *)
Definition index_headers (m : gmap (list N) (list N)) (hs : list str)
    : gmap (list N) (list N) :=
  foldl (λ m col, <[normalize_column_name U col := col]> m) m hs.

Definition normalized_df_columns_map (df : frame) : gmap (list N) (list N) :=
  index_headers ∅ (columns df).

(** The first loop: one column of the frame per mapping entry. *)
Definition map_column (df : frame) (fr : frame) (entry : str * str) : result frame :=
  let '(csv_col_key_in_mapping, db_col) := entry in
  let normalized_expected_csv_col := normalize_column_name U csv_col_key_in_mapping in
  match normalized_df_columns_map df !! normalized_expected_csv_col with
  | Some original_csv_col_name =>
      match column df original_csv_col_name with
      | Some v => Ok (loc_set_series db_col v fr)
      | None => loc_set_scalar db_col (default_value db_col) fr
      end
  | None => loc_set_scalar db_col (default_value db_col) fr
  end.

(** The second loop: columns still absent get their default. *)
Definition ensure_column (fr : frame) (col : str) : result frame :=
  if mem col (columns fr) then Ok fr
  else loc_set_scalar col (default_value col) fr.

(** The dtype of a column, as far as the import depends on it: int64
    when every cell is an integer, float64 when every cell is a float or
    a missing value, object otherwise. *)
Definition is_int64 (v : list cell) : bool :=
  forallb (λ c, match c with CInt _ => true | _ => false end) v.

Definition is_float64 (v : list cell) : bool :=
  forallb (λ c, match c with CNaN | CFloat _ => true | _ => false end) v.

(** A value as a float64 column holds it. *)
Definition to_float64 (c : cell) : cell :=
  match c with
  | CInt z => CFloat (float_of_int P z)
  | _ => c
  end.

(** [pd.to_numeric(col, errors='coerce')] on a column.  The result has
    one dtype: int64 when every cell reads as an integer, float64
    otherwise, and then a cell that reads as an integer is the float of
    that integer. *)
Definition to_numeric_in (v : list cell) (c : cell) : cell :=
  let x := default CNaN (to_numeric c) in
  if is_int64 (map (λ c, default CNaN (to_numeric c)) v) then x
  else to_float64 x.

Definition to_numeric_series (v : list cell) : list cell :=
  map (to_numeric_in v) v.

(** [fr.loc[:, col] = values] on a column that is there writes into the
    column in place.  A float64 column keeps its dtype and takes an
    integer as the float of that integer; an int64 column takes integers
    and an object column holds what it is given. *)
Definition keep_dtype (old : list cell) (c : cell) : cell :=
  if is_float64 old then to_float64 c else c.

(** The third loop: coercion by SQL type.  [to_numeric] brings the column
    to one dtype and the coercion of a cell then finds a number or a
    missing value.  The numbers of the REAL branch have the dtype of the
    column they are written into unless that is object, and the integers
    of the INTEGER branch are written in place; the strings of the TEXT
    branch are held by no numeric column, which is then replaced. *)
Definition clean_column (fr : frame) (col : str) : result frame :=
  match column fr col with
  | None => Ok fr
  | Some v =>
      match get_sql_type col with
      | REAL =>
          Ok (loc_set_series col (map coerce_real (to_numeric_series v)) fr)
      | INTEGER =>
          v' ← traverse coerce_integer (to_numeric_series v);
          Ok (loc_set_series col (map (keep_dtype v) v') fr)
      | TEXT => Ok (loc_set_series col (map coerce_text v) fr)
      end
  end.

(** [fr.loc[:, col] = fr[col].apply(f)] when the column is there. *)
Definition apply_column (f : cell → str) (col : str) (fr : frame) : option frame :=
  match column fr col with
  | Some v => Some (loc_set_series col (map (λ c, CStr (f c)) v) fr)
  | None => None
  end.

Definition repair_date (fr : frame) : frame :=
  default fr (apply_column (parse_date_robust_and_format U P) (lit "payment_date") fr).

Definition repair_time (fr : frame) : result frame :=
  match apply_column (format_time_string_for_storage U) (lit "payment_time") fr with
  | Some fr' => Ok fr'
  | None => loc_set_scalar (lit "payment_time") (CStr (lit "00:00:00")) fr
  end.

(** [df_transformed[[col for col in db_columns_ordered if col in ...]]] *)
Definition select (fr : frame) (names : list str) : frame :=
  Frame (nrows fr)
    (omap (λ k, (k,.) <$> column fr k) (filter (λ k, k ∈ columns fr) names)).

(** The last loop, on the selection. *)
Definition ensure_final (fr : frame) (col : str) : result frame :=
  if mem col (columns fr) then Ok fr
  else match get_sql_type col with
       | TEXT => loc_set_scalar col (CStr []) fr
       | REAL => loc_set_scalar col (CFloat (zero P)) fr
       | INTEGER => loc_set_scalar col (CInt 0) fr
       end.

(** The body of the [try] block up to the rows handed to the engine. *)
Definition transform (df : frame) (column_mapping : list (str * str))
    : result (list (list cell)) :=
  let db_columns_ordered := column_mapping.*2 in
  df_transformed ← foldM (map_column df) column_mapping empty_frame;
  df_transformed ← foldM ensure_column db_columns_ordered df_transformed;
  df_transformed ← foldM clean_column db_columns_ordered df_transformed;
  df_transformed ← repair_time (repair_date df_transformed);
  final_df_to_insert ← foldM ensure_final db_columns_ordered
                        (select df_transformed db_columns_ordered);
  values_tolist final_df_to_insert db_columns_ordered.

Definition try_block (df : frame) (table_name : str)
    (column_mapping : list (str * str)) (conn : connection (float P))
    : result bool * connection (float P) :=
  match transform df column_mapping with
  | Raise e => (Raise e, conn)
  | Ok data_to_insert =>
      match executemany E table_name column_mapping.*2 data_to_insert conn with
      | (Raise e, conn') => (Raise e, conn')
      | (Ok _, conn') => (Ok true, commit conn')
      end
  end.

(** [insert_data_from_df]: the verdict and the store left behind.  Both
    [except] clauses return [False]; [finally] closes the connection
    when there is one. *)
Definition insert_data_from_df (df : frame) (table_name : str)
    (column_mapping : list (str * str)) (db : gmap (list N) (table (float P)))
    : bool * gmap (list N) (table (float P)) :=
  if connects E then
    let '(r, conn) := try_block df table_name column_mapping (Connection db []) in
    (match r with Ok b => b | Raise _ => false end, close conn)
  else (false, db).

Definition insert_bills_data df := insert_data_from_df df (lit "bills") BILLS_COLUMN_MAPPING.
Definition insert_bill_details_data df :=
  insert_data_from_df df (lit "bill_details") DETAIL_BILLS_COLUMN_MAPPING.
End Importer.

(** ** Analysis readers: the basket

    [sorted] on strings compares code point by code point.  A Python set
    lists its elements in an order of its own; it is modelled by the
    elements without repetition, and the membership matrix is shown not to
    depend on the order in which they are listed. *)

Fixpoint str_leb (a b : str) : bool :=
  match a, b with
  | [], _ => true
  | _ :: _, [] => false
  | x :: a', y :: b' =>
      if (x <? y)%N then true else if (y <? x)%N then false else str_leb a' b'
  end.

Definition str_le (a b : str) : Prop := str_leb a b = true.

Global Instance str_le_dec a b : Decision (str_le a b).
Proof. unfold str_le. apply _. Defined.

Definition sorted (l : list str) : list str := merge_sort str_le l.

Record detail := Detail { receipt_number : str; menu_name : str }.

(** The membership matrix: its column labels and its rows. *)
Record onehot := OneHot { oh_columns : list str; oh_rows : list (list bool) }.

Section Basket.
Variable P : pandas.

(** [col.fillna('').astype(str)] on a value read back from the store. *)
Definition text_of (c : option (cell (float P))) : str :=
  py_str P (fillna (CStr []) (default CNaN c)).

(** [get_bill_details_for_analysis], the two columns the basket uses:
    the rows of [bill_details] whose menu name is not empty. *)
Definition get_bill_details_for_analysis
    (db : gmap (list N) (table (float P))) : list detail :=
  filter (λ d, menu_name d ≠ [])
    (map (λ row, Detail (text_of (assoc (lit "receipt_number") row))
                        (text_of (assoc (lit "menu_name") row)))
       (stored db (lit "bill_details"))).

(** The menu names on the lines of one receipt, repetitions included. *)
Definition items_of (r : str) (df : list detail) : list str :=
  menu_name <$> filter (λ d, receipt_number d = r) df.

(** The receipts of the grouping, in the order of the groups. *)
Definition receipts (df : list detail) : list str :=
  sorted (remove_dups (receipt_number <$> df)).

(* groupby('receipt_number')['menu_name'].apply(lambda x: list(set(x))) *)
Definition transactions (df : list detail) : list (str * list str) :=
  map (λ r, (r, remove_dups (items_of r df))) (receipts df).

(** [TransactionEncoder.fit]: the sorted distinct items. *)
Definition te_fit (X : list (list str)) : list str :=
  sorted (remove_dups (concat X)).

Definition column_index (columns : list str) (item : str) : option nat :=
  fst <$> list_find (λ c, c = item) columns.

(** [TransactionEncoder.transform]: a row of falses in which the cell of
    each item of the transaction is set. *)
Definition set_flag (columns : list str) (row : list bool) (item : str)
    : list bool :=
  match column_index columns item with
  | Some j => <[j := true]> row
  | None => row
  end.

Definition te_row (columns : list str) (transaction : list str) : list bool :=
  foldl (set_flag columns) (replicate (length columns) false) transaction.

Definition te_transform (columns : list str) (X : list (list str))
    : list (list bool) :=
  map (te_row columns) X.

Definition get_basket_data (db : gmap (list N) (table (float P)))
    (exclude_items : option (list str)) : onehot :=
  match get_bill_details_for_analysis db with
  | [] => OneHot [] []
  | df_details =>
      let exclude_items := default [] exclude_items in
      match filter (λ d, menu_name d ∉ exclude_items) df_details with
      | [] => OneHot [] []
      | df_filtered =>
          let X := (transactions df_filtered).*2 in
          let columns := te_fit X in
          OneHot columns (te_transform columns X)
      end
  end.
End Basket.

(** ** Instances for evaluation

    A library that is exact where the examples below exercise it: zero,
    and the range of nanosecond timestamps (1677-09-22 to 2262-04-11) on
    calendar days.  Its floats hold integers; it reads no number out of a
    text and parses no date without a format.  A store that opens and
    takes every row, holding an empty table of bills. *)
Definition pandas0 : pandas := {|
  float := Z;
  zero := 0;
  numeric_of_str := λ _, None;
  int_of_float := λ z, Some z;
  float_of_int := λ z, z;
  str_of_float := λ z, str_of_int z ++ lit ".0";
  in_range := λ d,
    let k := year d * 10000 + month d * 100 + day d in
    (16770922 <=? k) && (k <=? 22620411);
  parse_any := λ _, None;
  float_of_int_finite := λ z, Some_ne_None z
|}.

Definition sqlite_ok : engine Z := {| connects := true; accepts := λ _ _, true |}.

Definition bills_db : gmap (list N) (table Z) :=
  {[ lit "bills" := Table BILLS_COLUMN_MAPPING.*2 [] ]}.

(** An upload of one row with the payment date and nothing else. *)
Definition date_only : frame Z :=
  Frame 1 [(lit "Payment Date", [CStr (lit "31/01/2024")])].

(** An upload of two rows whose seat amounts were read as floats, the
    second one missing. *)
Definition float_seats : frame Z :=
  Frame 2 [(lit "Payment Date",
            [CStr (lit "31/01/2024"); CStr (lit "01/02/2024")]);
           (lit "Seat Amount", [CFloat 2; CNaN])].

(** ** Table creation

    [create_table_from_mapping] writes one column definition per mapped
    column and hands the statement CREATE TABLE IF NOT EXISTS to the
    engine.  A definition is kept as its parts: the quoted name, the
    declared type, and the value of NOT NULL DEFAULT when the column has
    one. *)

Record column_def (F : Type) := ColumnDef {
  cd_name : list N;
  cd_type : sql_type;
  cd_not_null_default : option (cell F)
}.
Arguments ColumnDef {F} cd_name cd_type cd_not_null_default.
Arguments cd_name {F} c.
Arguments cd_type {F} c.
Arguments cd_not_null_default {F} c.

(** Whether the engine takes the statement for a table that is not there
    yet (names that can be quoted, no column named twice). *)
Record schema_engine (F : Type) := {
  creates : list N → list (column_def F) → bool
}.
Arguments creates {F} s.

Section Create.
Variable P : pandas.
Variable E : engine (float P).
Variable D : schema_engine (float P).

(** The body of the loop over [column_mapping.values()]. *)
Definition column_sql (db_col : list N) : column_def (float P) :=
  let col_type := get_sql_type db_col in
  if mem db_col [lit "receipt_number"; lit "menu_name"] then
    ColumnDef db_col TEXT (Some (CStr []))
  else if mem db_col [lit "total_final_bill"; lit "quantity"; lit "summary_price";
                      lit "price_per_unit"; lit "discounted_price"] then
    ColumnDef db_col REAL (Some (CFloat (zero P)))
  else if bool_decide (db_col = lit "seat_amount") then
    ColumnDef db_col INTEGER (Some (CInt 0))
  else if mem db_col [lit "voucher_amount_desc"; lit "voucher_discount"]
          && match col_type with REAL => true | _ => false end then
    ColumnDef db_col REAL (Some (CFloat (zero P)))
  else ColumnDef db_col col_type None.

Definition columns_sql_parts (column_mapping : list (list N * list N))
    : list (column_def (float P)) :=
  map column_sql column_mapping.*2.

(** The columns of the table the statement creates: the key, the mapped
    columns, the time of creation. *)
Definition created_columns (column_mapping : list (list N * list N)) : list (list N) :=
  lit "id" :: map cd_name (columns_sql_parts column_mapping) ++ [lit "created_at"].

(** [create_table_from_mapping]: the store left behind.  A table that is
    there is left alone; an error of the engine is printed and nothing is
    created. *)
Definition create_table_from_mapping (table_name : list N)
    (column_mapping : list (list N * list N))
    (db : gmap (list N) (table (float P))) : gmap (list N) (table (float P)) :=
  if connects E then
    match db !! table_name with
    | Some _ => db
    | None =>
        if creates D table_name (columns_sql_parts column_mapping)
        then <[table_name := Table (created_columns column_mapping) []]> db
        else db
    end
  else db.

Definition create_bills_table := create_table_from_mapping (lit "bills") BILLS_COLUMN_MAPPING.
Definition create_bill_details_table :=
  create_table_from_mapping (lit "bill_details") DETAIL_BILLS_COLUMN_MAPPING.
End Create.

(** ** app.py: the menu names offered for exclusion *)

(** [Series.unique()]: the distinct values in the order of their first
    appearance. *)
Definition unique (l : list (list N)) : list (list N) :=
  foldl (λ seen x, if bool_decide (x ∈ seen) then seen else seen ++ [x]) [] l.

Section Menu.
Variable P : pandas.

(* sorted(df_bill_details_analysis['menu_name'].unique().tolist()), and []
   when the frame is empty *)
Definition all_menu_names (db : gmap (list N) (table (float P))) : list (list N) :=
  match get_bill_details_for_analysis P db with
  | [] => []
  | df => sorted (unique (menu_name <$> df))
  end.

(* [item for item in default_exclude_items if item in all_menu_names] *)
Definition default_selection (default_exclude_items options : list (list N))
    : list (list N) :=
  filter (λ item, item ∈ options) default_exclude_items.
End Menu.

(** A schema engine that takes every statement, a store with an empty
    table of bill details, and an upload of one detail line. *)
Definition sqlite_ddl : schema_engine Z := {| creates := λ _ _, true |}.

Definition details_db : gmap (list N) (table Z) :=
  {[ lit "bill_details" := Table DETAIL_BILLS_COLUMN_MAPPING.*2 [] ]}.

Definition tea_upload : frame Z :=
  Frame 1 [(lit "Payment Date", [CStr (lit "31/01/2024")]);
           (lit "Menu Name", [CStr (lit "tea")])].

(** * Results *)

(** ** Tables that agree on Basic Latin give the same matches there *)

Lemma ascii_str_cons c s : ascii_str (c :: s) ↔ is_ascii c = true ∧ ascii_str s.
Proof. unfold ascii_str. by rewrite Forall_cons. Qed.

Lemma ascii_str_app s t : ascii_str (s ++ t) ↔ ascii_str s ∧ ascii_str t.
Proof. unfold ascii_str. by rewrite Forall_app. Qed.

Lemma ascii_str_rev s : ascii_str s → ascii_str (reverse s).
Proof. unfold ascii_str. by rewrite Forall_reverse. Qed.

Lemma strip_prefix_Some p s r : strip_prefix p s = Some r ↔ s = p ++ r.
Proof.
  revert s. induction p as [|a p IH]; intros s; simpl.
  - split; congruence.
  - destruct s as [|b s]; [split; discriminate|].
    destruct (N.eqb_spec a b) as [->|Hne].
    + rewrite IH. split; congruence.
    + split; [discriminate | intros [= -> _]; contradiction].
Qed.

Lemma strip_prefix_ascii p s r :
  strip_prefix p s = Some r → ascii_str s → ascii_str r.
Proof.
  intros ->%strip_prefix_Some Hs. by apply ascii_str_app in Hs as [_ ?].
Qed.

Section Agree.
Variable U : ucd.
Hypothesis HU : basic_latin U.

Lemma cls_match_agree k c :
  is_ascii c = true → cls_match U k c = cls_match latin k c.
Proof.
  intros Hc. induction k; simpl; try congruence.
  - by rewrite (bl_decimal U HU c Hc).
  - by apply bl_isspace.
  - by rewrite (bl_isalnum U HU c Hc).
Qed.

Lemma star_agree {R} k s pre (cont cont' : str → str → option R) :
  ascii_str s → ascii_str pre →
  (∀ s' pre', ascii_str s' → ascii_str pre' → cont s' pre' = cont' s' pre') →
  star U k s pre cont = star latin k s pre cont'.
Proof.
  intros Hs Hp Hc. revert pre Hp. induction s as [|c s IH]; intros pre Hp; simpl.
  - by apply Hc.
  - apply ascii_str_cons in Hs as Hs'. destruct Hs' as [Hc1 Hs'].
    rewrite (cls_match_agree k c Hc1), (IH Hs'), (Hc (c :: s) pre Hs Hp);
      [done|by apply ascii_str_cons].
Qed.

Lemma run_agree {R} r :
  ∀ s pre caps (cont cont' : str → str → list str → option R),
    ascii_str s → ascii_str pre → Forall ascii_str caps →
    (∀ s' pre' caps', ascii_str s' → ascii_str pre' → Forall ascii_str caps' →
                 cont s' pre' caps' = cont' s' pre' caps') →
    run U r s pre caps cont = run latin r s pre caps cont'.
Proof.
  induction r as [|k|l|a IHa b IHb|a IHa b IHb|a IHa|k|a IHa];
    intros s pre caps cont cont' Hs Hp Hcaps Hc; simpl.
  - by apply Hc.
  - destruct s as [|c s]; [done|].
    apply ascii_str_cons in Hs as [Hc1 Hs].
    rewrite (cls_match_agree k c Hc1). destruct (cls_match latin k c); [|done].
    apply Hc; [done| |done]. by apply ascii_str_cons.
  - destruct (strip_prefix l s) as [s'|] eqn:Hp'; [|done].
    apply strip_prefix_Some in Hp' as ->. apply ascii_str_app in Hs as [Hl Hs].
    apply Hc; [done| |done]. apply ascii_str_app. split; [|done].
    by apply ascii_str_rev.
  - apply IHa; [done..|]. intros s' pre' caps' Hs' Hp' Hcaps'. by apply IHb.
  - rewrite (IHa s pre caps cont cont'), (IHb s pre caps cont cont'); done.
  - rewrite (IHa s pre caps cont cont'), (Hc s pre caps); done.
  - apply star_agree; [done..|]. intros s' pre' Hs' Hp'. by apply Hc.
  - apply IHa; [done..|]. intros s' pre' caps' Hs' Hp' Hcaps'. apply Hc; [done..|].
    apply Forall_app; split; [done|]. apply Forall_singleton.
    by apply ascii_str_rev, Forall_take.
Qed.

Lemma re_match_agree r s : ascii_str s → re_match U r s = re_match latin r s.
Proof. intros Hs. apply run_agree; by try constructor. Qed.

Lemma match_len_agree r s : ascii_str s → match_len U r s = match_len latin r s.
Proof. intros Hs. apply run_agree; by try constructor. Qed.

Lemma re_search_agree r s : ascii_str s → re_search U r s = re_search latin r s.
Proof.
  induction s as [|c s IH]; intros Hs; simpl.
  - by rewrite re_match_agree.
  - rewrite re_match_agree by done. apply ascii_str_cons in Hs as [_ Hs].
    by rewrite IH.
Qed.

Lemma re_del_agree r s n : ascii_str s → re_del U r n s = re_del latin r n s.
Proof.
  revert n. induction s as [|c s IH]; intros n Hs; simpl; [done|].
  apply ascii_str_cons in Hs as Hs'. destruct Hs' as [_ Hs'].
  destruct n; [|by apply IH].
  rewrite match_len_agree by done.
  destruct (match_len latin r (c :: s)) as [[|m]|]; by rewrite IH.
Qed.

Lemma int_of_agree s : ascii_str s → int_of U s = int_of latin s.
Proof.
  unfold int_of. intros Hs.
  cut (∀ a, fold_left (λ a c, 10 * a + default 0 (decimal U c)) s a
            = fold_left (λ a c, 10 * a + default 0 (decimal latin c)) s a); [done|].
  induction Hs as [|c s Hc Hs IH]; intros a; simpl; [done|].
  rewrite (bl_decimal U HU c Hc). apply IH.
Qed.

Lemma lstrip_agree s : ascii_str s → lstrip U s = lstrip latin s.
Proof.
  induction s as [|c s IH]; intros Hs; simpl; [done|].
  apply ascii_str_cons in Hs as [Hc Hs].
  rewrite (bl_isspace U HU c Hc). destruct (latin_isspace c); auto.
Qed.

Lemma lstrip_ascii V s : ascii_str s → ascii_str (lstrip V s).
Proof.
  induction s as [|c s IH]; intros Hs; simpl; [done|].
  destruct (isspace V c); [|done]. apply ascii_str_cons in Hs as [_ Hs]. auto.
Qed.

Lemma strip_ascii V s : ascii_str s → ascii_str (strip V s).
Proof.
  intros Hs. unfold strip.
  by apply ascii_str_rev, lstrip_ascii, ascii_str_rev, lstrip_ascii.
Qed.

Lemma strip_agree s : ascii_str s → strip U s = strip latin s.
Proof.
  intros Hs. unfold strip. rewrite (lstrip_agree s Hs).
  rewrite lstrip_agree; [done|]. by apply ascii_str_rev, lstrip_ascii.
Qed.
End Agree.

(** ** What a match hands on stays inside the text *)

Section Captures.
Variable V : ucd.

Lemma star_ascii {R} k s pre (cont : str → str → option R) x :
  ascii_str s → ascii_str pre → star V k s pre cont = Some x →
  ∃ s' pre', ascii_str s' ∧ ascii_str pre' ∧ cont s' pre' = Some x.
Proof.
  intros Hs. revert pre. induction s as [|c s IH]; simpl; intros pre Hp Hx; [by eauto|].
  destruct (cls_match V k c); [|by eauto].
  destruct (star V k s (c :: pre) cont) as [y|] eqn:Hy; [|by eauto].
  apply ascii_str_cons in Hs as [Hc Hs]. simplify_eq.
  eapply IH; [done| |done]. by apply ascii_str_cons.
Qed.

Lemma run_ascii {R} r :
  ∀ s pre caps (cont : str → str → list str → option R) x,
    ascii_str s → ascii_str pre → Forall ascii_str caps →
    run V r s pre caps cont = Some x →
    ∃ s' pre' caps', ascii_str s' ∧ ascii_str pre' ∧ Forall ascii_str caps'
                     ∧ cont s' pre' caps' = Some x.
Proof.
  induction r as [|k|l|a IHa b IHb|a IHa b IHb|a IHa|k|a IHa];
    intros s pre caps cont x Hs Hp Hcaps; simpl; intros Hx.
  - by eauto 10.
  - destruct s as [|c s]; [done|]. destruct (cls_match V k c); [|done].
    apply ascii_str_cons in Hs as [Hc Hs].
    exists s, (c :: pre), caps. split_and!; [done| |done..]. by apply ascii_str_cons.
  - destruct (strip_prefix l s) as [s'|] eqn:Hp'; [|done].
    apply strip_prefix_Some in Hp' as ->. apply ascii_str_app in Hs as [Hl Hs].
    exists s', (reverse l ++ pre), caps. split_and!; [done| |done..].
    apply ascii_str_app. split; [|done]. by apply ascii_str_rev.
  - apply IHa in Hx as (s' & pre' & caps' & Hs' & Hp' & Hcaps' & Hx); [|done..].
    by apply IHb in Hx.
  - destruct (run V a s pre caps cont) as [y|] eqn:Hy; simplify_eq; by eauto.
  - destruct (run V a s pre caps cont) as [y|] eqn:Hy; simplify_eq; by eauto 10.
  - apply star_ascii in Hx as (s' & pre' & Hs' & Hp' & Hx); by eauto 10.
  - apply IHa in Hx as (s' & pre' & caps' & Hs' & Hp' & Hcaps' & Hx); [|done..].
    eexists s', pre', _. split_and!; [done..| |done].
    apply Forall_app; split; [done|].
    by apply Forall_singleton, ascii_str_rev, Forall_take.
Qed.

Lemma re_match_ascii r s g :
  ascii_str s → re_match V r s = Some g → Forall ascii_str g.
Proof.
  intros Hs Hg.
  apply run_ascii in Hg as (s' & pre' & caps' & _ & _ & Hcaps' & Hg);
    [|by try constructor..].
  by simplify_eq.
Qed.

Lemma re_search_ascii r s g :
  ascii_str s → re_search V r s = Some g → Forall ascii_str g.
Proof.
  induction s as [|c s IH]; simpl; intros Hs Hg.
  - destruct (re_match V r []) eqn:Hm; [|done]. simplify_eq.
    by eapply re_match_ascii.
  - destruct (re_match V r (c :: s)) eqn:Hm.
    + simplify_eq. by eapply re_match_ascii.
    + apply ascii_str_cons in Hs as [_ Hs]. auto.
Qed.

Lemma group_ascii i g : Forall ascii_str g → ascii_str (group i g).
Proof.
  intros Hg. unfold group.
  destruct (nth_in_or_default (i - 1) g []) as [Hin| ->]; [|by constructor].
  rewrite Forall_forall in Hg. apply Hg. by apply list_elem_of_In.
Qed.
End Captures.

Lemma latin_lower_cp_ascii c :
  is_ascii c = true → ∃ d, latin_lower_cp c = [d] ∧ is_ascii d = true.
Proof.
  unfold latin_lower_cp, latin_isupper, between, is_ascii. intros Hc%N.ltb_lt.
  destruct (_ && _) eqn:Hu.
  - apply andb_true_iff in Hu as [_ Hu%N.leb_le].
    eexists; split; [done|]. apply N.ltb_lt. lia.
  - destruct (N.eqb_spec c 304); [lia|].
    eexists; split; [done|]. by apply N.ltb_lt.
Qed.

Lemma latin_lower_ascii s : ascii_str s → ascii_str (latin_lower s).
Proof.
  induction 1 as [|c s Hc Hs IH]; [constructor|].
  unfold latin_lower. simpl.
  destruct (latin_lower_cp_ascii c Hc) as (d & -> & Hd). by constructor.
Qed.

(** ** The time repair on Basic Latin text does not depend on the table *)

Section AgreeRepair.
Variable U : ucd.
Hypothesis HU : basic_latin U.

Lemma duration_seconds_agree t :
  ascii_str t → duration_seconds U t = duration_seconds latin t.
Proof.
  intros Ht. unfold duration_seconds.
  rewrite !(re_search_agree U HU) by done.
  destruct (re_search latin pat_hour_min t) as [g|] eqn:Hg.
  { apply re_search_ascii in Hg; [|done].
    by rewrite !(int_of_agree U HU) by by apply group_ascii. }
  destruct (re_search latin pat_hour t) as [g|] eqn:Hh.
  { apply re_search_ascii in Hh; [|done].
    by rewrite !(int_of_agree U HU) by by apply group_ascii. }
  destruct (re_search latin pat_min t) as [g|] eqn:Hm; [|done].
  apply re_search_ascii in Hm; [|done].
  by rewrite !(int_of_agree U HU) by by apply group_ascii.
Qed.

Lemma format_time_agree {F} (t : str) :
  ascii_str t →
  format_time_string_for_storage U (@CStr F t)
  = format_time_string_for_storage latin (@CStr F t).
Proof.
  intros Ht. unfold format_time_string_for_storage.
  assert (ascii_str (strip latin t)) as Hs by by apply strip_ascii.
  rewrite (strip_agree U HU) by done.
  rewrite (bl_lower U HU) by done. simpl lower.
  assert (ascii_str (latin_lower (strip latin t))) as Hl
    by by apply latin_lower_ascii.
  rewrite !(re_match_agree U HU) by done.
  destruct (re_match latin pat_hms _) as [g|] eqn:Hg.
  { apply re_match_ascii in Hg; [|done].
    by rewrite !(int_of_agree U HU) by by apply group_ascii. }
  destruct (re_match latin pat_hm _) as [g|] eqn:Hg'.
  { apply re_match_ascii in Hg'; [|done].
    by rewrite !(int_of_agree U HU) by by apply group_ascii. }
  by rewrite duration_seconds_agree.
Qed.
End AgreeRepair.

Lemma latin_basic_latin : basic_latin latin.
Proof.
  split; try done.
  intros c v. simpl. unfold latin_decimal, latin_isdigit, thai_isdigit, between.
  destruct (_ && _) eqn:Hd.
  { intros [= <-]. apply andb_true_iff in Hd as [?%N.leb_le ?%N.leb_le]. lia. }
  destruct (3664 <=? c)%N eqn:Hlo; [|done].
  destruct (c <=? 3673)%N eqn:Hhi; [|done].
  intros [= <-]. apply N.leb_le in Hlo, Hhi. lia.
Qed.

(** ** Time repair: the recognized shapes *)

Section TimeShapes.
Variable U : ucd.
Hypothesis HU : basic_latin U.
Context {F : Type}.

Local Abbreviation time_of := (format_time_string_for_storage U (F:=F)).

Lemma time_of_lit (t : string) (r : str) :
  ascii_str (lit t) →
  format_time_string_for_storage latin (@CStr F (lit t)) = r →
  time_of (CStr (lit t)) = r.
Proof. intros Ht <-. by apply format_time_agree. Qed.

Lemma duration_of_lit (t : string) (z : Z) :
  ascii_str (lit t) → duration_seconds latin (lit t) = z →
  duration_seconds U (lit t) = z.
Proof. intros Ht <-. by apply duration_seconds_agree. Qed.
End TimeShapes.

(** Closed decidable goals, by evaluation. *)
Ltac ascii_lit := apply (bool_decide_unpack _); by vm_compute.
Ltac by_latin := apply time_of_lit; [done|ascii_lit|by vm_compute].

(** C6. The time repair tries HH:MM:SS first, then HH:MM with the seconds
    at 0, then the duration phrases: hours with minutes, else minutes,
    else hours, the total of seconds rendered as HH:MM:SS.  "1 hour 57 min"
    gives "01:57:00", "51 min" gives "00:51:00", "14:05" gives "14:05:00",
    "14:05:30" is kept, and a missing value, a value that is not a string
    or a text of no recognized shape gives "00:00:00". *)
Theorem format_time_priority (U : ucd) (F : Type) (HU : basic_latin U) :
  let f := format_time_string_for_storage U (F:=F) in
  let shape (t : str) := lower U (strip U t) in
  (∀ t g, re_match U pat_hms (shape t) = Some g →
     f (CStr t) = hms (int_of U (group 1 g)) (int_of U (group 2 g))
                      (int_of U (group 3 g)))
  ∧ (∀ t g, re_match U pat_hms (shape t) = None →
       re_match U pat_hm (shape t) = Some g →
       f (CStr t) = hms (int_of U (group 1 g)) (int_of U (group 2 g)) 0)
  ∧ (∀ t, re_match U pat_hms (shape t) = None →
       re_match U pat_hm (shape t) = None →
       let total := duration_seconds U (shape t) in
       f (CStr t) = if 0 <? total
                    then hms (total / 3600) (total `mod` 3600 / 60) (total `mod` 60)
                    else lit "00:00:00")
  ∧ (∀ t g, re_search U pat_hour_min t = Some g →
       duration_seconds U t
       = int_of U (group 1 g) * 3600 + int_of U (group 2 g) * 60)
  ∧ (∀ t g, re_search U pat_hour_min t = None → re_search U pat_hour t = None →
       re_search U pat_min t = Some g →
       duration_seconds U t = int_of U (group 1 g) * 60)
  ∧ (∀ t g, re_search U pat_hour_min t = None → re_search U pat_hour t = Some g →
       duration_seconds U t = int_of U (group 1 g) * 3600)
  ∧ (∀ t, re_search U pat_hour_min t = None → re_search U pat_hour t = None →
       re_search U pat_min t = None → duration_seconds U t = 0)
  ∧ f (CStr (lit "1 hour 57 min")) = lit "01:57:00"
  ∧ f (CStr (lit "51 min")) = lit "00:51:00"
  ∧ f (CStr (lit "2 hours")) = lit "02:00:00"
  ∧ f (CStr (lit "14:05")) = lit "14:05:00"
  ∧ f (CStr (lit "14:05:30")) = lit "14:05:30"
  ∧ f (CStr (lit "14:05:30 and 1 hour 57 min")) = lit "14:05:30"
  ∧ f (CStr (lit "14:05 and 51 min")) = lit "14:05:00"
  ∧ f (CStr (lit "soon")) = lit "00:00:00"
  ∧ f CNaN = lit "00:00:00"
  ∧ (∀ z, f (CInt z) = lit "00:00:00")
  ∧ (∀ x, f (CFloat x) = lit "00:00:00").
Proof.
  intros f shape. subst f shape. split_and!; try done; try by_latin.
  - intros t g Hg. simpl. by rewrite Hg.
  - intros t g Hn Hg. simpl. by rewrite Hn, Hg.
  - intros t Hn Hn'. simpl. by rewrite Hn, Hn'.
  - intros t g Hg. unfold duration_seconds. by rewrite Hg.
  - intros t g Hn Hn' Hg. unfold duration_seconds. by rewrite Hn, Hn', Hg.
  - intros t g Hn Hg. unfold duration_seconds. by rewrite Hn, Hg.
  - intros t Hn Hn' Hn''. unfold duration_seconds. by rewrite Hn, Hn', Hn''.
Qed.

Lemma int_of_nonneg U s : basic_latin U → 0 ≤ int_of U s.
Proof.
  intros HU. unfold int_of.
  cut (∀ a, 0 ≤ a → 0 ≤ fold_left (λ a c, 10 * a + default 0 (decimal U c)) s a).
  { intros H. by apply H. }
  induction s as [|c s IH]; intros a Ha; simpl; [done|].
  apply IH. destruct (decimal U c) as [v|] eqn:Hv; simpl; [|lia].
  apply (bl_digit U HU) in Hv. lia.
Qed.

Lemma hms_of_hours (H : Z) :
  0 ≤ H →
  (if 0 <? H * 3600
   then hms (H * 3600 / 3600) ((H * 3600) `mod` 3600 / 60) ((H * 3600) `mod` 60)
   else lit "00:00:00") = hms H 0 0.
Proof.
  intros HH. destruct (Z.ltb_spec 0 (H * 3600)).
  - rewrite Z.div_mul, Z.mod_mul by done.
    replace (H * 3600) with (H * 60 * 60) by lia.
    by rewrite Z.mod_mul.
  - by replace H with 0 by lia.
Qed.

(** C10. When the hours-with-minutes phrase is not found but an hours
    phrase is, the total comes from the hours alone, whatever minutes
    phrase the text holds: "57 min 1 hour" gives "01:00:00". *)
Theorem hour_match_overwrites_minutes (U : ucd) (F : Type) (HU : basic_latin U) :
  (∀ t gm gh,
     let t' := lower U (strip U t) in
     re_match U pat_hms t' = None → re_match U pat_hm t' = None →
     re_search U pat_hour_min t' = None →
     re_search U pat_min t' = Some gm →
     re_search U pat_hour t' = Some gh →
     duration_seconds U t' = int_of U (group 1 gh) * 3600
     ∧ format_time_string_for_storage U (@CStr F t) = hms (int_of U (group 1 gh)) 0 0)
  ∧ re_search U pat_hour_min (lit "57 min 1 hour") = None
  ∧ re_search U pat_min (lit "57 min 1 hour") = Some [lit "57"]
  ∧ re_search U pat_hour (lit "57 min 1 hour") = Some [lit "1"]
  ∧ format_time_string_for_storage U (@CStr F (lit "57 min 1 hour")) = lit "01:00:00".
Proof.
  split_and!.
  - intros t gm gh t' Hn Hn' Hhm Hm Hh. subst t'.
    assert (duration_seconds U (lower U (strip U t)) = int_of U (group 1 gh) * 3600)
      as Hd by (unfold duration_seconds; by rewrite Hhm, Hh).
    split; [done|]. simpl. rewrite Hn, Hn', Hd.
    by apply hms_of_hours, int_of_nonneg.
  - rewrite re_search_agree; [by vm_compute|done|ascii_lit].
  - rewrite re_search_agree; [by vm_compute|done|ascii_lit].
  - rewrite re_search_agree; [by vm_compute|done|ascii_lit].
  - by_latin.
Qed.

(** ** Groups of bounded width *)

(** The greatest number of characters a pattern without iteration and
    without inner group can take. *)
Fixpoint width (r : re) : option nat :=
  match r with
  | REps => Some 0%nat
  | RCls _ => Some 1%nat
  | RLit l => Some (length l)
  | RSeq a b => n ← width a; m ← width b; Some (n + m)%nat
  | RAlt a b => n ← width a; m ← width b; Some (n `max` m)%nat
  | ROpt a => width a
  | RStar _ => None
  | RGrp _ => None
  end.

Section Width.
Variable U : ucd.

Lemma run_seq {R} a b s pre caps (cont : str → str → list str → option R) :
  run U (a ⋅ b) s pre caps cont
  = run U a s pre caps (λ s' pre' caps', run U b s' pre' caps' cont).
Proof. done. Qed.

Lemma run_width {R} a :
  ∀ n s pre caps (cont : str → str → list str → option R) x,
    width a = Some n → run U a s pre caps cont = Some x →
    ∃ s' w, (length w ≤ n)%nat ∧ cont s' (w ++ pre) caps = Some x.
Proof.
  induction a as [|k|l|a IHa b IHb|a IHa b IHb|a IHa|k|a IHa];
    intros n s pre caps cont x Hn; simpl in *; intros Hx; simplify_eq.
  - exists s, []. by split.
  - destruct s as [|c s]; [done|]. destruct (cls_match U k c); [|done].
    exists s, [c]. by split.
  - destruct (strip_prefix l s) as [s'|]; [|done].
    exists s', (reverse l). split; [by rewrite length_reverse|done].
  - destruct (width a) as [na|]; [|done]. destruct (width b) as [nb|]; [|done].
    simpl in Hn. simplify_eq.
    eapply IHa in Hx as (s1 & w1 & Hw1 & Hx); [|done].
    eapply IHb in Hx as (s2 & w2 & Hw2 & Hx); [|done].
    exists s2, (w2 ++ w1). rewrite length_app, <- (assoc_L (++)). split; [lia|done].
  - destruct (width a) as [na|]; [|done]. destruct (width b) as [nb|]; [|done].
    simpl in Hn. simplify_eq.
    destruct (run U a s pre caps cont) as [y|] eqn:Hy; simplify_eq.
    + eapply IHa in Hy as (s1 & w1 & Hw1 & Hy); [|done].
      exists s1, w1. split; [lia|done].
    + eapply IHb in Hx as (s1 & w1 & Hw1 & Hx); [|done].
      exists s1, w1. split; [lia|done].
  - destruct (run U a s pre caps cont) as [y|] eqn:Hy; simplify_eq.
    + by eapply IHa.
    + exists s, []. split; [simpl; lia|done].
Qed.

Lemma run_grp_width {R} a n s pre caps (cont : str → str → list str → option R) x :
  width a = Some n → run U (RGrp a) s pre caps cont = Some x →
  ∃ s' w, (length w ≤ n)%nat ∧ cont s' (reverse w ++ pre) (caps ++ [w]) = Some x.
Proof.
  intros Hn Hx. simpl in Hx.
  eapply run_width in Hx as (s' & w & Hw & Hx); [|done].
  exists s', (reverse w). rewrite length_reverse, reverse_involutive.
  split; [done|].
  by rewrite length_app, Nat.add_sub, take_app_length in Hx.
Qed.

Lemma run_lit {R} l s pre caps (cont : str → str → list str → option R) x :
  run U (RLit l) s pre caps cont = Some x →
  ∃ s', cont s' (reverse l ++ pre) caps = Some x.
Proof. simpl. destruct (strip_prefix l s); [|done]. by eauto. Qed.

Lemma pat_hms_groups t g :
  re_match U pat_hms t = Some g →
  ∃ g1 g2 g3, g = [g1; g2; g3]
    ∧ (length g1 ≤ 2)%nat ∧ (length g2 ≤ 2)%nat ∧ (length g3 ≤ 2)%nat.
Proof.
  unfold re_match, pat_hms. rewrite !run_seq. intros H.
  eapply run_grp_width in H as (s1 & g1 & H1 & H); [|done].
  apply run_lit in H as (s2 & H).
  eapply run_grp_width in H as (s3 & g2 & H2 & H); [|done].
  apply run_lit in H as (s4 & H).
  eapply run_grp_width in H as (s5 & g3 & H3 & H); [|done].
  simplify_eq. by exists g1, g2, g3.
Qed.

Lemma pat_hm_groups t g :
  re_match U pat_hm t = Some g →
  ∃ g1 g2, g = [g1; g2] ∧ (length g1 ≤ 2)%nat ∧ (length g2 ≤ 2)%nat.
Proof.
  unfold re_match, pat_hm. rewrite !run_seq. intros H.
  eapply run_grp_width in H as (s1 & g1 & H1 & H); [|done].
  apply run_lit in H as (s2 & H).
  eapply run_grp_width in H as (s3 & g2 & H2 & H); [|done].
  simplify_eq. by exists g1, g2.
Qed.

Hypothesis HU : basic_latin U.

Lemma int_of_two s : (length s ≤ 2)%nat → 0 ≤ int_of U s < 100.
Proof.
  assert (∀ c, 0 ≤ default 0 (decimal U c) ≤ 9) as Hd.
  { intros c. destruct (decimal U c) as [v|] eqn:Hv; simpl; [|lia].
    by apply (bl_digit U HU) in Hv. }
  unfold int_of. destruct s as [|a [|b [|c s]]]; simpl; intros Hs; try lia.
  - specialize (Hd a). lia.
  - pose proof (Hd a). pose proof (Hd b). lia.
Qed.
End Width.

(** ** Rendering two digits *)

Ltac norm_lit :=
  repeat match goal with
  | |- context [lit ?s] =>
      let v := eval vm_compute in (lit s) in change (lit s) with v
  end.

Ltac dlia := Z.div_mod_to_equations; lia.

Definition dg (v : Z) : cp := Z.to_N (48 + v).

Lemma fmt_d_2 n : 0 ≤ n < 100 → fmt_d 2 n = [dg (n / 10); dg (n `mod` 10)].
Proof.
  intros Hn.
  assert (Forall (λ k : nat, fmt_d 2 (Z.of_nat k)
            = [dg (Z.of_nat k / 10); dg (Z.of_nat k `mod` 10)]) (seq 0 100)) as H.
  { apply (bool_decide_unpack _). by vm_compute. }
  rewrite Forall_forall in H. specialize (H (Z.to_nat n)).
  rewrite Z2Nat.id in H by lia. apply H, elem_of_seq. lia.
Qed.

Section Digits.
Variable U : ucd.
Hypothesis HU : basic_latin U.

Lemma dg_facts v :
  0 ≤ v ≤ 9 →
  is_ascii (dg v) = true ∧ latin_decimal (dg v) = Some v
  ∧ latin_isspace (dg v) = false ∧ latin_lower_cp (dg v) = [dg v].
Proof.
  intros Hv.
  assert (v = 0 ∨ v = 1 ∨ v = 2 ∨ v = 3 ∨ v = 4 ∨ v = 5 ∨ v = 6
          ∨ v = 7 ∨ v = 8 ∨ v = 9) as Hc by lia.
  repeat (destruct Hc as [->|Hc]; [done|]). by subst.
Qed.

Definition digit (c : cp) (v : Z) : Prop :=
  is_ascii c = true ∧ decimal U c = Some v ∧ isspace U c = false
  ∧ latin_lower_cp c = [c].

Lemma digit_dg v : 0 ≤ v ≤ 9 → digit (dg v) v.
Proof.
  intros Hv. destruct (dg_facts v Hv) as (A & D & S & L).
  unfold digit. by rewrite (bl_decimal U HU), (bl_isspace U HU).
Qed.

Lemma cls_digit c v : digit c v → cls_match U CDigit c = true.
Proof. intros (_ & H & _). simpl. by rewrite H. Qed.

Lemma time_fixed_chars {F} a b c d e f va vb vc vd ve vf :
  digit a va → digit b vb → digit c vc → digit d vd → digit e ve → digit f vf →
  format_time_string_for_storage U (@CStr F [a; b; 58%N; c; d; 58%N; e; f])
  = hms (10 * va + vb) (10 * vc + vd) (10 * ve + vf).
Proof.
  intros Ha Hb Hc Hd He Hf. unfold format_time_string_for_storage.
  assert (strip U [a; b; 58%N; c; d; 58%N; e; f] = [a; b; 58%N; c; d; 58%N; e; f]) as ->.
  { unfold strip. simpl lstrip. destruct Ha as (_ & _ & -> & _).
    cbn. destruct Hf as (_ & _ & -> & _). done. }
  rewrite (bl_lower U HU).
  2:{ destruct Ha as (? & _), Hb as (? & _), Hc as (? & _), Hd as (? & _),
        He as (? & _), Hf as (? & _). by repeat constructor. }
  assert (latin_lower [a; b; 58%N; c; d; 58%N; e; f] = [a; b; 58%N; c; d; 58%N; e; f]) as ->.
  { unfold latin_lower. simpl.
    destruct Ha as (_ & _ & _ & ->), Hb as (_ & _ & _ & ->), Hc as (_ & _ & _ & ->),
      Hd as (_ & _ & _ & ->), He as (_ & _ & _ & ->), Hf as (_ & _ & _ & ->). done. }
  assert (re_match U pat_hms [a; b; 58%N; c; d; 58%N; e; f] = Some [[a; b]; [c; d]; [e; f]]) as ->.
  { unfold re_match, pat_hms, one_or_two_digits, two_digits. norm_lit.
    repeat (cbn -[cls_match];
            rewrite ?(cls_digit _ _ Ha), ?(cls_digit _ _ Hb), ?(cls_digit _ _ Hc),
              ?(cls_digit _ _ Hd), ?(cls_digit _ _ He), ?(cls_digit _ _ Hf)).
    done. }
  cbn [group Nat.sub nth]. unfold int_of. cbn [fold_left].
  destruct Ha as (_ & -> & _), Hb as (_ & -> & _), Hc as (_ & -> & _),
    Hd as (_ & -> & _), He as (_ & -> & _), Hf as (_ & -> & _).
  cbn [default from_option id]. do 3 f_equal; lia.
Qed.

Lemma time_fixed {F} h m s :
  0 ≤ h < 100 → 0 ≤ m < 100 → 0 ≤ s < 100 →
  format_time_string_for_storage U (@CStr F (hms h m s)) = hms h m s.
Proof.
  intros Hh Hm Hs. unfold hms at 1. rewrite !fmt_d_2 by done.
  norm_lit. cbn [app].
  erewrite time_fixed_chars; [|apply digit_dg; dlia..].
  f_equal; dlia.
Qed.
End Digits.

(** ** Time repair: what it returns, and what it returns on that *)

Lemma uint_cps_nil u : length (uint_cps u) = 0%nat → u = Decimal.Nil.
Proof. by destruct u. Qed.

Lemma str_of_int_short h :
  0 ≤ h → (length (str_of_int h) ≤ 2)%nat → h < 100.
Proof.
  intros Hh. unfold str_of_int. remember (Z.to_N h) as n eqn:Hhn.
  pose proof (DecimalN.Unsigned.of_to n) as Hn.
  destruct (N.to_uint n) as [|u|u|u|u|u|u|u|u|u|u];
    cbn [uint_cps length]; intros Hl;
    try (vm_compute in Hn; lia);
    (destruct u as [|u|u|u|u|u|u|u|u|u|u];
     cbn [uint_cps length] in Hl;
     try (vm_compute in Hn; lia);
     assert (u = Decimal.Nil) as -> by (apply uint_cps_nil; lia);
     vm_compute in Hn; lia).
Qed.

Lemma hms_length h m s :
  0 ≤ h → 0 ≤ m < 100 → 0 ≤ s < 100 →
  length (hms h m s) = 8%nat → h < 100.
Proof.
  intros Hh Hm Hs. unfold hms. rewrite (fmt_d_2 m), (fmt_d_2 s) by done.
  rewrite !length_app. unfold fmt_d at 1. rewrite length_app, length_replicate.
  cbn [length lit map String.list_ascii_of_string]. intros Hl.
  apply str_of_int_short; [done|lia].
Qed.

Section TimeIdempotence.
Variable U : ucd.
Hypothesis HU : basic_latin U.
Context {F : Type}.

Lemma time_shape (v : cell F) :
  ∃ h m s, format_time_string_for_storage U v = hms h m s
           ∧ 0 ≤ h ∧ 0 ≤ m < 100 ∧ 0 ≤ s < 100.
Proof.
  destruct v as [|t|z|x]; try by (exists 0, 0, 0).
  unfold format_time_string_for_storage.
  destruct (re_match U pat_hms _) as [g|] eqn:Hg.
  { apply pat_hms_groups in Hg as (g1 & g2 & g3 & -> & H1 & H2 & H3).
    eexists _, _, _. split; [done|]. cbn [group Nat.sub nth].
    pose proof (int_of_two U HU g1 H1). pose proof (int_of_two U HU g2 H2).
    pose proof (int_of_two U HU g3 H3). lia. }
  destruct (re_match U pat_hm _) as [g|] eqn:Hg'.
  { apply pat_hm_groups in Hg' as (g1 & g2 & -> & H1 & H2).
    exists (int_of U g1), (int_of U g2), 0. split; [done|].
    pose proof (int_of_two U HU g1 H1). pose proof (int_of_two U HU g2 H2).
    lia. }
  destruct (Z.ltb_spec 0 (duration_seconds U (lower U (strip U t)))) as [Hd|Hd];
    [|by exists 0, 0, 0].
  eexists _, _, _. split; [done|]. dlia.
Qed.
End TimeIdempotence.

(** C2, as the code has it.  Feeding the result of the time repair back
    through it returns the same text whenever that result has its hours on
    two digits, that is, is eight characters long: every result but that
    of a duration of a hundred hours or more. *)
Theorem format_time_idempotent (U : ucd) (F : Type) (HU : basic_latin U)
    (v : cell F) :
  length (format_time_string_for_storage U v) = 8%nat →
  format_time_string_for_storage U (@CStr F (format_time_string_for_storage U v))
  = format_time_string_for_storage U v.
Proof.
  destruct (time_shape U HU v) as (h & m & s & -> & Hh & Hm & Hs). intros Hl.
  apply (time_fixed U HU); [|done..].
  split; [done|]. by apply (hms_length h m s).
Qed.

(** C2 fails on a duration of a hundred hours: "100 hour" gives
    "100:00:00", which no pattern recognizes, so the second pass gives
    "00:00:00". *)
Lemma format_time_not_idempotent :
  format_time_string_for_storage latin (@CStr unit (lit "100 hour")) = lit "100:00:00"
  ∧ format_time_string_for_storage latin (@CStr unit (lit "100:00:00")) = lit "00:00:00"
  ∧ ¬ (∀ v : cell unit,
         format_time_string_for_storage latin
           (@CStr unit (format_time_string_for_storage latin v))
         = format_time_string_for_storage latin v).
Proof.
  split_and!; [by vm_compute..|].
  intros H. specialize (H (CStr (lit "100 hour"))). by vm_compute in H.
Qed.

(** ** Deleting the matches of a class is a filter *)

Section Deleting.
Variable U : ucd.

(** Length of the run of [k] at the head of [s]. *)
Fixpoint run_len (k : cls) (s : str) : nat :=
  match s with
  | c :: s' => if cls_match U k c then S (run_len k s') else 0%nat
  | [] => 0%nat
  end.

Lemma run_len_take k s :
  Forall (λ c, cls_match U k c = true) (take (run_len k s) s).
Proof.
  induction s as [|c s IH]; simpl; [constructor|].
  destruct (cls_match U k c) eqn:Hc; simpl; by constructor.
Qed.

Lemma star_len k s pre :
  star U k s pre (λ _ pre', Some (length pre'))
  = Some (length pre + run_len k s)%nat.
Proof.
  revert pre. induction s as [|c s IH]; intros pre; simpl.
  - f_equal. lia.
  - destruct (cls_match U k c).
    + rewrite IH. simpl. f_equal. lia.
    + f_equal. lia.
Qed.

Lemma match_len_plus k c s :
  match_len U (RPlus k) (c :: s)
  = if cls_match U k c then Some (S (run_len k s)) else None.
Proof.
  unfold match_len, RPlus. simpl. destruct (cls_match U k c); [|done].
  by rewrite star_len.
Qed.

Lemma match_len_cls k c s :
  match_len U (RCls k) (c :: s) = if cls_match U k c then Some 1%nat else None.
Proof. unfold match_len. simpl. by destruct (cls_match U k c). Qed.

Lemma re_del_plus k s n :
  Forall (λ c, cls_match U k c = true) (take n s) →
  re_del U (RPlus k) n s = List.filter (λ c, negb (cls_match U k c)) s.
Proof.
  revert n. induction s as [|c s IH]; intros n Hn; [done|].
  cbn [re_del List.filter]. destruct n as [|n].
  - rewrite match_len_plus. destruct (cls_match U k c) eqn:Hc; simpl.
    + apply IH, run_len_take.
    + f_equal. apply IH. constructor.
  - simpl in Hn. apply Forall_cons in Hn as [-> Hn]. simpl. by apply IH.
Qed.

Lemma re_del_cls k s :
  re_del U (RCls k) 0 s = List.filter (λ c, negb (cls_match U k c)) s.
Proof.
  induction s as [|c s IH]; [done|].
  cbn [re_del List.filter]. rewrite match_len_cls.
  destruct (cls_match U k c); simpl; by rewrite IH.
Qed.

(** The normalizer as two filters between NFKC and the lowercasing. *)
Lemma normalize_filters col_name :
  normalize_column_name U col_name
  = lower U
      (List.filter
         (λ c, if keeps_dot U col_name
               then isalnum U c || (c =? 95)%N || (c =? 46)%N
               else isalnum U c || (c =? 95)%N)
         (List.filter (λ c, negb (isspace U c)) (nfkc U col_name))).
Proof.
  unfold normalize_column_name, re_sub_empty, pat_spaces, pat_not_word_dot,
    pat_not_word.
  rewrite re_del_plus by constructor. rewrite !re_del_cls. simpl cls_match.
  destruct (keeps_dot U col_name); f_equal; apply List.filter_ext;
    intros c; by rewrite negb_involutive.
Qed.
End Deleting.

(** ** The normalizer on Basic Latin headers *)

Lemma filter_ascii (f : cp → bool) s : ascii_str s → ascii_str (List.filter f s).
Proof.
  induction 1 as [|c s Hc Hs IH]; simpl; [constructor|].
  destruct (f c); [by constructor|done].
Qed.

Lemma filter_ext_ascii (f g : cp → bool) s :
  ascii_str s → (∀ c, is_ascii c = true → f c = g c) →
  List.filter f s = List.filter g s.
Proof.
  intros Hs Hfg. apply List.filter_ext_in. intros c Hc%list_elem_of_In.
  apply Hfg. unfold ascii_str in Hs. rewrite Forall_forall in Hs. by apply Hs.
Qed.

Section AgreeNormalize.
Variable U : ucd.
Hypothesis HU : basic_latin U.

Lemma keeps_dot_agree s : ascii_str s → keeps_dot U s = keeps_dot latin s.
Proof. intros Hs. unfold keeps_dot. by rewrite (bl_lower U HU). Qed.

Lemma normalize_agree s :
  ascii_str s → normalize_column_name U s = normalize_column_name latin s.
Proof.
  intros Hs. rewrite !normalize_filters, (bl_nfkc U HU), keeps_dot_agree by done.
  simpl nfkc. rewrite (bl_lower U HU) by by do 2 apply filter_ascii.
  simpl lower. f_equal.
  rewrite (filter_ext_ascii (λ c, negb (isspace U c)) (λ c, negb (isspace latin c)))
    by (by intros; rewrite ?(bl_isspace U HU)).
  apply filter_ext_ascii; [by apply filter_ascii|].
  intros c Hc. by rewrite (bl_isalnum U HU).
Qed.

Lemma normalize_ascii s : ascii_str s → ascii_str (normalize_column_name latin s).
Proof.
  intros Hs. rewrite normalize_filters. simpl.
  by apply latin_lower_ascii, filter_ascii, filter_ascii.
Qed.

Lemma words_agree s :
  ascii_str s → normalize_by_the_words U s = normalize_by_the_words latin s.
Proof.
  intros Hs. unfold normalize_by_the_words.
  rewrite (bl_nfkc U HU), keeps_dot_agree by done.
  simpl nfkc. rewrite (bl_lower U HU) by by do 2 apply filter_ascii.
  simpl lower. f_equal.
  rewrite (filter_ext_ascii (λ c, negb (isspace U c)) (λ c, negb (isspace latin c)))
    by (by intros; rewrite ?(bl_isspace U HU)).
  apply filter_ext_ascii; [by apply filter_ascii|].
  intros c Hc. by rewrite (bl_isalnum U HU).
Qed.
End AgreeNormalize.

(** C3, where the code leaves the contract.  The header "Menu_Name" comes
    out as "menu_name": the underscore, which is not alphanumeric, is
    kept, since the pattern deletes what is outside \w.  By the words of
    the contract it would be "menuname".  On headers without underscore
    the code and the contract coincide. *)
Theorem normalize_keeps_underscore (U : ucd) (HU : basic_latin U) :
  normalize_column_name U (lit "Menu_Name") = lit "menu_name"
  ∧ normalize_by_the_words U (lit "Menu_Name") = lit "menuname"
  ∧ isalnum U 95%N = false
  ∧ (∀ header, 95%N ∉ nfkc U header →
       normalize_column_name U header = normalize_by_the_words U header).
Proof.
  split_and!.
  - rewrite normalize_agree; [by vm_compute|done|ascii_lit].
  - rewrite words_agree; [by vm_compute|done|ascii_lit].
  - by rewrite (bl_isalnum U HU).
  - intros header Hu. rewrite normalize_filters. unfold normalize_by_the_words.
    f_equal. apply List.filter_ext_in. intros c Hc%List.filter_In.
    destruct Hc as [Hc%list_elem_of_In _].
    destruct (N.eqb_spec c 95) as [->|_]; [done|].
    destruct (keeps_dot U header); simpl; by rewrite ?orb_false_r.
Qed.

(** ** Idempotence of the normalizer on Basic Latin *)

Lemma ascii_forall (P : cp → bool) :
  forallb P (map N.of_nat (seq 0 128)) = true →
  ∀ c, is_ascii c = true → P c = true.
Proof.
  intros H c Hc%N.ltb_lt. rewrite forallb_forall in H. apply H.
  apply in_map_iff. exists (N.to_nat c). split; [lia|]. apply in_seq. lia.
Qed.

Lemma contains_spec p s : contains p s = true ↔ ∃ a b, s = a ++ p ++ b.
Proof.
  induction s as [|c s IH]; simpl.
  - destruct (strip_prefix p []) as [r|] eqn:Hp.
    + apply strip_prefix_Some in Hp. split; [|done]. intros _. by exists [], r.
    + split; [done|]. intros (a & b & Hab). symmetry in Hab.
      apply app_eq_nil in Hab as [-> Hab]. simpl in Hab.
      assert (strip_prefix p [] = Some b) by by apply strip_prefix_Some.
      congruence.
  - destruct (strip_prefix p (c :: s)) as [r|] eqn:Hp.
    + apply strip_prefix_Some in Hp. split; [|done]. intros _. by exists [], r.
    + rewrite IH. split.
      * intros (a & b & ->). by exists (c :: a), b.
      * intros ([|c' a] & b & Hab).
        -- simpl in Hab. assert (strip_prefix p (c :: s) = Some b)
             by by apply strip_prefix_Some. congruence.
        -- simpl in Hab. injection Hab as _ ->. by exists a, b.
Qed.

Lemma contains_filter (f : cp → bool) p s :
  contains p s = true → contains (List.filter f p) (List.filter f s) = true.
Proof.
  rewrite !contains_spec. intros (a & b & ->).
  exists (List.filter f a), (List.filter f b). by rewrite !List.filter_app.
Qed.

Lemma filter_map_commute (f : cp → bool) (g : cp → cp) s :
  Forall (λ c, f (g c) = f c) s →
  List.filter f (map g s) = map g (List.filter f s).
Proof.
  induction 1 as [|c s Hc Hs IH]; simpl; [done|].
  rewrite Hc, IH. by destruct (f c).
Qed.

Lemma filter_absorb (f g : cp → bool) s :
  Forall (λ c, f c = true → g c = true) s →
  List.filter f (List.filter g s) = List.filter f s.
Proof.
  induction 1 as [|c s Hc Hs IH]; simpl; [done|].
  destruct (g c) eqn:Hg; simpl; rewrite IH; [done|].
  destruct (f c) eqn:Hf; [|done]. specialize (Hc eq_refl). congruence.
Qed.

Lemma filter_all (f : cp → bool) s :
  Forall (λ c, f c = true) s → List.filter f s = s.
Proof. induction 1 as [|c s Hc Hs IH]; simpl; [done|]. by rewrite Hc, IH. Qed.

Lemma map_fixed (g : cp → cp) s : Forall (λ c, g c = c) s → map g s = s.
Proof. induction 1 as [|c s Hc Hs IH]; simpl; [done|]. by rewrite Hc, IH. Qed.

(** Lowercase of a Basic Latin letter. *)
Definition lc (c : cp) : cp := if latin_isupper c then (c + 32)%N else c.
Definition wd (c : cp) : bool := latin_isalnum c || (c =? 95)%N.
Definition wdot (c : cp) : bool := wd c || (c =? 46)%N.

Lemma lc_facts c :
  is_ascii c = true →
  latin_lower_cp c = [lc c] ∧ is_ascii (lc c) = true ∧ lc (lc c) = lc c
  ∧ wd (lc c) = wd c ∧ wdot (lc c) = wdot c
  ∧ (wdot c = true → negb (latin_isspace c) = true).
Proof.
  intros Hc.
  pose proof (ascii_forall (λ c,
    bool_decide (latin_lower_cp c = [lc c]) && is_ascii (lc c)
    && bool_decide (lc (lc c) = lc c) && bool_decide (wd (lc c) = wd c)
    && bool_decide (wdot (lc c) = wdot c)
    && implb (wdot c) (negb (latin_isspace c)))) as H.
  specialize (H ltac:(by vm_compute) c Hc).
  repeat (apply andb_true_iff in H as [H ?]).
  repeat match goal with
         | H : bool_decide _ = true |- _ => apply bool_decide_eq_true in H
         end.
  split_and!; try done. intros Hw. by rewrite Hw in *.
Qed.

Lemma latin_lower_map s : ascii_str s → latin_lower s = map lc s.
Proof.
  induction 1 as [|c s Hc Hs IH]; [done|].
  unfold latin_lower in *. simpl. rewrite IH.
  by destruct (lc_facts c Hc) as (-> & _).
Qed.

Section NormalizeIdempotent.
Variable s : str.
Hypothesis Hs : ascii_str s.

Let keep (h : str) (c : cp) : bool :=
  if keeps_dot latin h then wdot c else wd c.

Lemma normalize_latin h :
  ascii_str h →
  normalize_column_name latin h = map lc (List.filter (keep h) h).
Proof.
  intros Hh. rewrite normalize_filters. simpl lower. simpl nfkc.
  rewrite latin_lower_map by by do 2 apply filter_ascii. f_equal.
  etrans; [|apply (filter_absorb _ (λ c, negb (latin_isspace c)))].
  { apply List.filter_ext. intros c. unfold keep, wdot, wd. simpl.
    by destruct (keeps_dot latin h). }
  eapply Forall_impl; [exact Hh|]. intros c Hc Hk.
  destruct (lc_facts c Hc) as (_ & _ & _ & _ & _ & Hsp). apply Hsp.
  unfold keep in Hk. destruct (keeps_dot latin h); [done|].
  unfold wdot. by rewrite Hk.
Qed.

Let y := normalize_column_name latin s.

Lemma normal_form_chars :
  Forall (λ c, is_ascii c = true ∧ lc c = c ∧ keep s c = true) y.
Proof.
  subst y. rewrite normalize_latin by done.
  apply Forall_map. apply Forall_forall. intros c Hc%list_elem_of_In.
  apply List.filter_In in Hc as [Hc%list_elem_of_In Hk].
  unfold ascii_str in Hs. rewrite Forall_forall in Hs.
  destruct (lc_facts c (Hs c Hc)) as (_ & Ha & Hl & Hw & Hwd & _).
  split_and!; [done..|]. unfold keep in *.
  destruct (keeps_dot latin s); congruence.
Qed.

Lemma normal_form_keeps_dot :
  keeps_dot latin s = true → keeps_dot latin y = true.
Proof.
  intros Hk.
  assert (ascii_str y) as Hy.
  { eapply Forall_impl; [apply normal_form_chars|]. by intros c (? & _). }
  assert (latin_lower y = y) as Hly.
  { rewrite latin_lower_map by done. apply map_fixed.
    eapply Forall_impl; [apply normal_form_chars|]. by intros c (_ & ? & _). }
  assert (y = List.filter wdot (latin_lower s)) as Hyf.
  { subst y. rewrite normalize_latin by done. unfold keep. rewrite Hk.
    rewrite latin_lower_map by done. symmetry. apply filter_map_commute.
    eapply Forall_impl; [exact Hs|]. intros c Hc.
    by destruct (lc_facts c Hc) as (_ & _ & _ & _ & -> & _). }
  unfold keeps_dot in *. simpl lower in *. rewrite Hly, Hyf.
  apply orb_true_iff in Hk as [Hk|Hk]; [apply orb_true_iff in Hk as [Hk|Hk]|].
  - apply (contains_filter wdot) in Hk.
    change (List.filter wdot (lit "inv.no")) with (lit "inv.no") in Hk.
    by rewrite Hk.
  - apply (contains_filter wdot) in Hk.
    change (List.filter wdot (lit "custom payment ref."))
      with (lit "custompaymentref.") in Hk.
    rewrite Hk. by rewrite !orb_true_r.
  - apply (contains_filter wdot) in Hk.
    change (List.filter wdot (lit "custompaymentref."))
      with (lit "custompaymentref.") in Hk.
    rewrite Hk. by rewrite !orb_true_r.
Qed.

Lemma normalize_latin_idempotent : normalize_column_name latin y = y.
Proof.
  pose proof normal_form_chars as Hy.
  assert (ascii_str y) as Hya.
  { eapply Forall_impl; [exact Hy|]. by intros c (? & _). }
  rewrite normalize_latin by done.
  rewrite filter_all.
  - apply map_fixed. eapply Forall_impl; [exact Hy|]. by intros c (_ & ? & _).
  - eapply Forall_impl; [exact Hy|]. intros c (_ & _ & Hk).
    unfold keep in *. destruct (keeps_dot latin s) eqn:Hd.
    + by rewrite normal_form_keeps_dot.
    + destruct (keeps_dot latin y); [|done]. unfold wdot. by rewrite Hk.
Qed.
End NormalizeIdempotent.

(** C7, as the code has it.  On a header written in Basic Latin the
    normalizer is idempotent. *)
Theorem normalize_idempotent_ascii (U : ucd) (HU : basic_latin U) (header : str) :
  ascii_str header →
  normalize_column_name U (normalize_column_name U header)
  = normalize_column_name U header.
Proof.
  intros Hh. rewrite (normalize_agree U HU header Hh).
  rewrite (normalize_agree U HU) by by apply normalize_ascii.
  by apply normalize_latin_idempotent.
Qed.

(** C7 fails beyond Basic Latin.  The capital I with dot above (U+0130) is
    a letter, so it is kept, and its lowercase is [i] followed by the
    combining dot U+0307.  That mark is not a word character: the second
    pass deletes it. *)
Lemma normalize_not_idempotent :
  normalize_column_name latin [304%N] = [105%N; 775%N]
  ∧ normalize_column_name latin [105%N; 775%N] = [105%N]
  ∧ ¬ (∀ header, normalize_column_name latin (normalize_column_name latin header)
                 = normalize_column_name latin header).
Proof.
  split_and!; [by vm_compute..|].
  intros H. specialize (H [304%N]). by vm_compute in H.
Qed.

(** ** Looking a mapping key up among the headers of an upload *)

Section Lookup.
Variable U : ucd.

Local Abbreviation norm := (normalize_column_name U).

Lemma index_headers_lookup hs m0 k col :
  index_headers U m0 hs !! k = Some col →
  (col ∈ hs ∧ norm col = k) ∨ m0 !! k = Some col.
Proof.
  revert m0. induction hs as [|h hs IH]; intros m0; simpl; [by right|].
  intros [[Hin Hk]|Hm]%IH.
  - left. split; [by right|done].
  - destruct (decide (norm h = k)) as [<-|Hne].
    + rewrite lookup_insert_eq in Hm. simplify_eq. left. split; [by left|done].
    + rewrite lookup_insert_ne in Hm by done. by right.
Qed.

Lemma index_headers_None hs m0 k :
  index_headers U m0 hs !! k = None ↔
  m0 !! k = None ∧ ∀ h, h ∈ hs → norm h ≠ k.
Proof.
  revert m0. induction hs as [|h hs IH]; intros m0; simpl.
  - split; [|by intros [? _]]. intros Hm. split; [done|]. by intros h ?%elem_of_nil.
  - rewrite IH. split.
    + intros [Hm Hhs]. destruct (decide (norm h = k)) as [<-|Hne].
      { by rewrite lookup_insert_eq in Hm. }
      rewrite lookup_insert_ne in Hm by done. split; [done|].
      intros h' [->|Hin]%elem_of_cons; auto.
    + intros [Hm Hhs]. split.
      * rewrite lookup_insert_ne; [done|]. apply Hhs. by left.
      * intros h' Hin. apply Hhs. by right.
Qed.

Lemma index_headers_elem hs h :
  h ∈ hs →
  ∃ col, index_headers U ∅ hs !! norm h = Some col ∧ col ∈ hs
         ∧ norm col = norm h.
Proof.
  intros Hin. destruct (index_headers U ∅ hs !! norm h) as [col|] eqn:Hl.
  - exists col. split; [done|].
    by apply index_headers_lookup in Hl as [?|?%lookup_empty_Some].
  - apply index_headers_None in Hl as [_ Hn]. by apply Hn in Hin.
Qed.

Lemma index_headers_only hs h :
  h ∈ hs → (∀ h', h' ∈ hs → norm h' = norm h → h' = h) →
  index_headers U ∅ hs !! norm h = Some h.
Proof.
  intros Hin Honly. destruct (index_headers_elem hs h Hin) as (col & -> & ? & ?).
  f_equal. by apply Honly.
Qed.
End Lookup.

Lemma assoc_elem {A} (name : str) (l : list (str * A)) :
  name ∈ l.*1 → is_Some (assoc name l).
Proof.
  induction l as [|[k x] l IH]; simpl; [by intros ?%elem_of_nil|].
  intros Hin. case_bool_decide as Hk; [by eexists|].
  apply elem_of_cons in Hin as [->|Hin]; [done|]. by apply IH.
Qed.

(** C9. The dot is kept or dropped on the evidence of the lowercased
    header as uploaded, whitespace included: "INV. No" does not hold
    "inv.no", so it becomes "invno".  A header "INV. No" of an upload is
    indexed under the same key, so the mapping entry finds a column of that
    normal form, and finds that very column when no other header shares the
    normal form. *)
Theorem inv_no_key (U : ucd) (P : pandas) (HU : basic_latin U) :
  lower U (lit "INV. No") = lit "inv. no"
  ∧ contains (lit "inv.no") (lower U (lit "INV. No")) = false
  ∧ keeps_dot U (lit "INV. No") = false
  ∧ normalize_column_name U (lit "INV. No") = lit "invno"
  ∧ normalize_column_name U (lit "INV.No") = lit "inv.no"
  ∧ (lit "INV. No", lit "inv_no") ∈ BILLS_COLUMN_MAPPING
  ∧ (lit "INV. No", lit "inv_no") ∈ DETAIL_BILLS_COLUMN_MAPPING
  ∧ (∀ df : frame (float P),
       lit "INV. No" ∈ columns df →
       ∃ col v,
         normalized_df_columns_map U P df !! normalize_column_name U (lit "INV. No")
         = Some col
         ∧ normalize_column_name U col = lit "invno"
         ∧ column df col = Some v
         ∧ ∀ fr, map_column U P df fr (lit "INV. No", lit "inv_no")
                 = Ok (loc_set_series (lit "inv_no") v fr))
  ∧ (∀ df : frame (float P),
       lit "INV. No" ∈ columns df →
       (∀ h, h ∈ columns df → normalize_column_name U h = lit "invno" →
             h = lit "INV. No") →
       normalized_df_columns_map U P df !! normalize_column_name U (lit "INV. No")
       = Some (lit "INV. No")).
Proof.
  assert (normalize_column_name U (lit "INV. No") = lit "invno") as Hn.
  { rewrite normalize_agree; [by vm_compute|done|ascii_lit]. }
  split_and!.
  - rewrite (bl_lower U HU); [by vm_compute|ascii_lit].
  - rewrite (bl_lower U HU); [by vm_compute|ascii_lit].
  - rewrite keeps_dot_agree; [by vm_compute|done|ascii_lit].
  - done.
  - rewrite normalize_agree; [by vm_compute|done|ascii_lit].
  - apply (bool_decide_unpack _). by vm_compute.
  - apply (bool_decide_unpack _). by vm_compute.
  - intros df Hin. unfold normalized_df_columns_map.
    destruct (index_headers_elem U (columns df) _ Hin) as (col & Hl & Hc & Hk).
    destruct (assoc_elem col (cols df) Hc) as [v Hv].
    exists col, v. split_and!; [done|congruence|done|].
    intros fr. unfold map_column, normalized_df_columns_map, column in *.
    by rewrite Hl, Hv.
  - intros df Hin Honly. apply index_headers_only; [done|].
    intros h Hh Hk. apply Honly; [done|congruence].
Qed.

(** ** Date repair *)

Section AgreeDates.
Variable U : ucd.
Hypothesis HU : basic_latin U.

Lemma fields_agree fmt g d :
  Forall ascii_str g → fields U fmt g d = fields latin fmt g d.
Proof.
  revert g d. induction fmt as [|dir fmt IH]; intros g d Hg; [done|].
  destruct dir; simpl; try by apply IH.
  all: destruct g as [|x g]; [done|]; apply Forall_cons in Hg as [Hx Hg];
    rewrite (strip_agree U HU x Hx),
            (int_of_agree U HU _ (strip_ascii latin x Hx)); by apply IH.
Qed.

Lemma strptime_agree fmt s :
  ascii_str s → strptime U fmt s = strptime latin fmt s.
Proof.
  intros Hs. unfold strptime.
  rewrite (run_agree U HU _ s [] [] _ (λ s' _ g, Some (s', g)));
    [|done|constructor|constructor|done].
  destruct (run latin _ s [] [] _) as [[[|c s'] g]|] eqn:Hr; [|done..].
  apply run_ascii in Hr as (s1 & p1 & g1 & _ & _ & Hg & Hr);
    [|done|constructor|constructor].
  simplify_eq. by rewrite fields_agree.
Qed.

Lemma to_datetime_agree P fmt s :
  ascii_str s → to_datetime U P fmt s = to_datetime latin P fmt s.
Proof. intros Hs. unfold to_datetime. by rewrite strptime_agree. Qed.
End AgreeDates.

(** C5. The date repair tries day/month/year, then year-month-day, then
    month/day/year, in that order, then the parse without format, and
    renders what it found as an ISO calendar date; when nothing parses,
    and for a value that is not a string, it gives the empty string.
    "31/01/2024" and "2024-01-31" both give "2024-01-31". *)
Theorem parse_date_order (U : ucd) (P : pandas) (HU : basic_latin U)
    (Hrange : in_range P (Date 2024 1 31) = true) :
  let f := parse_date_robust_and_format U P in
  (∀ s d, to_datetime U P fmt_dmy s = Some d → f (CStr s) = strftime d)
  ∧ (∀ s d, to_datetime U P fmt_dmy s = None →
       to_datetime U P fmt_ymd s = Some d → f (CStr s) = strftime d)
  ∧ (∀ s d, to_datetime U P fmt_dmy s = None → to_datetime U P fmt_ymd s = None →
       to_datetime U P fmt_mdy s = Some d → f (CStr s) = strftime d)
  ∧ (∀ s, to_datetime U P fmt_dmy s = None → to_datetime U P fmt_ymd s = None →
       to_datetime U P fmt_mdy s = None →
       f (CStr s) = match parse_any P s with Some d => strftime d | None => [] end)
  ∧ f CNaN = [] ∧ (∀ z, f (CInt z) = []) ∧ (∀ x, f (CFloat x) = [])
  ∧ strftime (Date 2024 1 31) = lit "2024-01-31"
  ∧ to_datetime U P fmt_dmy (lit "31/01/2024") = Some (Date 2024 1 31)
  ∧ f (CStr (lit "31/01/2024")) = lit "2024-01-31"
  ∧ to_datetime U P fmt_dmy (lit "2024-01-31") = None
  ∧ to_datetime U P fmt_ymd (lit "2024-01-31") = Some (Date 2024 1 31)
  ∧ f (CStr (lit "2024-01-31")) = lit "2024-01-31"
  ∧ to_datetime U P fmt_dmy (lit "01/31/2024") = None
  ∧ to_datetime U P fmt_ymd (lit "01/31/2024") = None
  ∧ to_datetime U P fmt_mdy (lit "01/31/2024") = Some (Date 2024 1 31)
  ∧ f (CStr (lit "01/31/2024")) = lit "2024-01-31"
  ∧ (parse_any P (lit "not a date") = None → f (CStr (lit "not a date")) = []).
Proof.
  intros f. subst f.
  assert (∀ fmt (s : string) d,
            ascii_str (lit s) → strptime latin fmt (lit s) = d →
            to_datetime U P fmt (lit s)
            = match d with
              | Some d => if valid_date d && in_range P d then Some d else None
              | None => None
              end) as Hlit.
  { intros fmt s d Hs <-. by rewrite to_datetime_agree. }
  assert (to_datetime U P fmt_dmy (lit "31/01/2024") = Some (Date 2024 1 31)) as H1.
  { erewrite Hlit; [|ascii_lit|vm_compute; reflexivity]. cbv beta iota. by rewrite Hrange. }
  assert (to_datetime U P fmt_dmy (lit "2024-01-31") = None) as H2.
  { by erewrite Hlit; [|ascii_lit|vm_compute; reflexivity]. }
  assert (to_datetime U P fmt_ymd (lit "2024-01-31") = Some (Date 2024 1 31)) as H3.
  { erewrite Hlit; [|ascii_lit|vm_compute; reflexivity]. cbv beta iota. by rewrite Hrange. }
  assert (to_datetime U P fmt_dmy (lit "01/31/2024") = None) as H4.
  { by erewrite Hlit; [|ascii_lit|vm_compute; reflexivity]. }
  assert (to_datetime U P fmt_ymd (lit "01/31/2024") = None) as H5.
  { by erewrite Hlit; [|ascii_lit|vm_compute; reflexivity]. }
  assert (to_datetime U P fmt_mdy (lit "01/31/2024") = Some (Date 2024 1 31)) as H6.
  { erewrite Hlit; [|ascii_lit|vm_compute; reflexivity]. cbv beta iota. by rewrite Hrange. }
  split_and!; try done.
  - intros s d Hd. unfold parse_date_robust_and_format, try_formats. by rewrite Hd.
  - intros s d Hn Hd. unfold parse_date_robust_and_format, try_formats. by rewrite Hn, Hd.
  - intros s d Hn Hn' Hd. unfold parse_date_robust_and_format, try_formats. by rewrite Hn, Hn', Hd.
  - intros s Hn Hn' Hn''. unfold parse_date_robust_and_format, try_formats. by rewrite Hn, Hn', Hn''.
  - unfold parse_date_robust_and_format, try_formats. by rewrite H1.
  - unfold parse_date_robust_and_format, try_formats. by rewrite H2, H3.
  - unfold parse_date_robust_and_format, try_formats. by rewrite H4, H5, H6.
  - intros Hany. unfold parse_date_robust_and_format, try_formats.
    rewrite !(to_datetime_agree U HU) by ascii_lit.
    unfold to_datetime. 
    replace (strptime latin fmt_dmy (lit "not a date")) with (@None date) by by vm_compute.
    replace (strptime latin fmt_ymd (lit "not a date")) with (@None date) by by vm_compute.
    replace (strptime latin fmt_mdy (lit "not a date")) with (@None date) by by vm_compute.
    by rewrite Hany.
Qed.

(** ** Storage: nothing is kept without a commit *)

Section StorageFacts.
Context {F : Type} (E : engine F).

Lemma insert_rows_Ok name names rows c c' :
  insert_rows E name names rows c = (Ok (), c') →
  c' = Connection (committed c)
         (pending c ++ map (λ r, (name, zip names r)) rows)
  ∧ Forall (λ r, accepts E name (zip names r) = true) rows.
Proof.
  revert c. induction rows as [|r rows IH]; intros c; simpl.
  - intros [= <-]. rewrite app_nil_r. by destruct c.
  - destruct (accepts E name (zip names r)) eqn:Hr; [|done].
    intros [-> Hrows]%IH. simpl. rewrite <- (assoc_L (++)). split; [done|].
    by constructor.
Qed.


Lemma insert_rows_accepted name names rows c :
  Forall (λ r, accepts E name (zip names r) = true) rows →
  insert_rows E name names rows c
  = (Ok (), Connection (committed c)
              (pending c ++ map (λ r, (name, zip names r)) rows)).
Proof.
  intros Hrows. revert c. induction Hrows as [|r rows Hr Hrows IH]; intros c; simpl.
  - rewrite app_nil_r. by destruct c.
  - rewrite Hr, IH. simpl. by rewrite <- (assoc_L (++)).
Qed.

End StorageFacts.

Lemma add_rows_lookup {F} (db : gmap (list N) (table F)) name t rows :
  db !! name = Some t →
  foldl add_row db (map (name,.) rows)
  = <[name := Table (tcols t) (trows t ++ rows)]> db.
Proof.
  revert db t. induction rows as [|r rows IH]; intros db t Ht; cbn [map foldl].
  - rewrite app_nil_r. destruct t. by rewrite insert_id.
  - unfold add_row at 2. cbn [fst snd]. rewrite Ht.
    erewrite IH by apply lookup_insert_eq. cbn [tcols trows].
    by rewrite insert_insert_eq, <- (assoc_L (++)).
Qed.




(** ** Frames: columns by name *)

Section FrameFacts.
Context {F : Type}.
Implicit Types (fr : frame F) (l : list (str * list (cell F))).

Lemma mem_true x (l : list str) : mem x l = true ↔ x ∈ l.
Proof. unfold mem. apply bool_decide_eq_true. Qed.

Lemma mem_false x (l : list str) : mem x l = false ↔ x ∉ l.
Proof. unfold mem. apply bool_decide_eq_false. Qed.

Lemma assoc_None {A} name (l : list (str * A)) :
  name ∉ l.*1 → assoc name l = None.
Proof.
  induction l as [|[k x] l IH]; simpl; [done|].
  intros Hn. apply not_elem_of_cons in Hn as [Hk Hn].
  rewrite bool_decide_eq_false_2 by done. by apply IH.
Qed.

Lemma assoc_app_r {A} name (l1 l2 : list (str * A)) :
  name ∉ l1.*1 → assoc name (l1 ++ l2) = assoc name l2.
Proof.
  induction l1 as [|[k x] l1 IH]; simpl; [done|].
  intros Hn. apply not_elem_of_cons in Hn as [Hk Hn].
  rewrite bool_decide_eq_false_2 by done. by apply IH.
Qed.

Lemma assoc_head {A} name (x : A) (l : list (str * A)) :
  assoc name ((name, x) :: l) = Some x.
Proof. simpl. by rewrite bool_decide_eq_true_2. Qed.

Lemma assoc_In {A} name (x : A) (l : list (str * A)) :
  assoc name l = Some x → (name, x) ∈ l.
Proof.
  induction l as [|[k y] l IH]; simpl; [done|].
  case_bool_decide as Hk; [intros [= ->]; subst; by left|].
  intros ?%IH. by right.
Qed.

Lemma assoc_map_snd {A B} (g : str → A → B) name (l : list (str * A)) :
  assoc name (map (λ kx, (kx.1, g kx.1 kx.2)) l) = g name <$> assoc name l.
Proof.
  induction l as [|[k x] l IH]; simpl; [done|].
  case_bool_decide as Hk; [by subst|done].
Qed.

Lemma replace_col_app_r name v l1 l2 :
  name ∉ l1.*1 → replace_col name v (l1 ++ l2) = l1 ++ replace_col name v l2.
Proof.
  induction l1 as [|[k x] l1 IH]; simpl; [done|].
  intros Hn. apply not_elem_of_cons in Hn as [Hk Hn].
  rewrite bool_decide_eq_false_2 by done. by rewrite IH.
Qed.

Lemma replace_col_head name v v' l :
  replace_col name v' ((name, v) :: l) = (name, v') :: l.
Proof. simpl. by rewrite bool_decide_eq_true_2. Qed.

Lemma replace_col_absent name v l : name ∉ l.*1 → replace_col name v l = l.
Proof.
  induction l as [|[k x] l IH]; simpl; [done|].
  intros Hn. apply not_elem_of_cons in Hn as [Hk Hn].
  rewrite bool_decide_eq_false_2 by done. by rewrite IH.
Qed.

(** Setting every cell of a column that is there, one column after the
    other. *)
Lemma replace_col_map (g : str → list (cell F) → list (cell F)) name l :
  NoDup l.*1 →
  replace_col name (g name (default [] (assoc name l))) l
  = map (λ kx, (kx.1, if bool_decide (kx.1 = name) then g kx.1 kx.2 else kx.2)) l.
Proof.
  induction l as [|[k x] l IH]; simpl; [done|].
  intros [Hk Hl]%NoDup_cons. case_bool_decide as Hkn; simpl.
  - subst. f_equal. symmetry. etrans; [|apply map_id].
    apply map_ext_in. intros [k' x'] Hin%list_elem_of_In. simpl.
    rewrite bool_decide_eq_false_2; [done|]. intros ->. apply Hk.
    apply list_elem_of_fmap. by exists (name, x').
  - f_equal. by apply IH.
Qed.
End FrameFacts.

Lemma list_filter_all {A} (Q : A → Prop) `{!∀ x, Decision (Q x)} (l : list A) :
  (∀ x, x ∈ l → Q x) → filter Q l = l.
Proof.
  induction l as [|x l IH]; intros Hl; [done|].
  rewrite filter_cons_True by (apply Hl; by left). f_equal. apply IH.
  intros y Hy. apply Hl. by right.
Qed.

Lemma foldM_app {A B} (f : B → A → result B) l1 l2 b :
  foldM f (l1 ++ l2) b = (b' ← foldM f l1 b; foldM f l2 b').
Proof.
  revert b. induction l1 as [|x l1 IH]; intros b; simpl; [done|].
  destruct (f b x) as [b'|e]; simpl; [apply IH|done].
Qed.

Lemma foldM_id {A B} (f : B → A → result B) l b :
  Forall (λ x, f b x = Ok b) l → foldM f l b = Ok b.
Proof. induction 1 as [|x l Hx Hl IH]; simpl; [done|]. by rewrite Hx. Qed.

Lemma traverse_Ok {A B} (f : A → result B) l :
  Forall (λ x, ∃ y, f x = Ok y) l →
  ∃ l', traverse f l = Ok l' ∧ Forall2 (λ x y, f x = Ok y) l l'.
Proof.
  induction 1 as [|x l [y Hy] Hl (l' & IH & IH2)].
  - by exists [].
  - exists (y :: l'). cbn. rewrite Hy. cbn. rewrite IH.
    split; [done|]. by constructor.
Qed.

(** ** The frame the import builds *)

Section ImportFacts.
Variable U : ucd.
Variable P : pandas.

Local Abbreviation cell := (cell (float P)).
Local Abbreviation frame := (frame (float P)).

(** The column of the upload a mapping key finds. *)
Definition found (df : frame) (key : str) : option (list cell) :=
  match normalized_df_columns_map U P df !! normalize_column_name U key with
  | Some orig => column df orig
  | None => None
  end.

Definition source (df : frame) (e : str * str) : list cell :=
  match found df e.1 with
  | Some v => v
  | None => replicate (nrows df) (default_value P e.2)
  end.

(** Every column of the upload runs over its index. *)
Definition well_formed (df : frame) : Prop :=
  Forall (λ kv, length kv.2 = nrows df) (cols df).

Lemma found_None df key :
  (∀ h, h ∈ columns df → normalize_column_name U h ≠ normalize_column_name U key) →
  found df key = None.
Proof.
  intros Hn. unfold found, normalized_df_columns_map.
  destruct (index_headers U ∅ (columns df) !! _) as [col|] eqn:Hl; [|done].
  apply index_headers_lookup in Hl as [[Hin Hk]|?%lookup_empty_Some]; [|done].
  by apply Hn in Hin.
Qed.

Lemma found_length df key v :
  well_formed df → found df key = Some v → length v = nrows df.
Proof.
  unfold found, well_formed, column. intros Hwf Hf.
  destruct (_ !! _) as [orig|]; [|done]. apply assoc_In in Hf.
  rewrite Forall_forall in Hwf. by apply (Hwf (orig, v)).
Qed.

Lemma source_length df e : well_formed df → length (source df e) = nrows df.
Proof.
  intros Hwf. unfold source. destruct (found df e.1) as [v|] eqn:Hf.
  - by eapply found_length.
  - by rewrite length_replicate.
Qed.

Lemma map_column_found df fr key db_col :
  map_column U P df fr (key, db_col)
  = match found df key with
    | Some v => Ok (loc_set_series db_col v fr)
    | None => loc_set_scalar db_col (default_value P db_col) fr
    end.
Proof.
  unfold map_column, found. destruct (_ !! _) as [orig|]; [|done].
  by destruct (column df orig).
Qed.

Lemma map_columns_rest df rest (fr : frame) :
  well_formed df → nrows fr = nrows df → nrows df ≠ 0%nat →
  NoDup (columns fr ++ rest.*2) →
  foldM (map_column U P df) rest fr
  = Ok (Frame (nrows df) (cols fr ++ map (λ e, (e.2, source df e)) rest)).
Proof.
  intros Hwf. revert fr. induction rest as [|[key db_col] rest IH];
    intros [n l] Hn Hn0 Hnd; cbn [foldM nrows cols map] in *.
  - subst. by rewrite app_nil_r.
  - unfold columns in Hnd. cbn [cols fmap list_fmap] in Hnd.
    apply NoDup_app in Hnd as (Hl & Hdisj & Hrest).
    apply NoDup_cons in Hrest as [Hc Hrest].
    assert (db_col ∉ l.*1) as Hfresh.
    { intros Hin. apply (Hdisj _ Hin). by left. }
    assert (∀ v, foldM (map_column U P df) rest (Frame n (l ++ [(db_col, v)]))
                 = Ok (Frame (nrows df)
                         (l ++ (db_col, v) :: map (λ e, (e.2, source df e)) rest)))
      as Hnext.
    { intros v. rewrite IH; cbn [nrows cols]; [by rewrite <- (assoc_L (++))|done..|].
      unfold columns. cbn [cols]. rewrite fmap_app. cbn [fmap list_fmap].
      rewrite <- (assoc_L (++)). apply NoDup_app. split_and!; [done| |].
      - intros x Hx [->|Hin]%elem_of_cons; [done|]. apply (Hdisj x Hx). by right.
      - by constructor. }
    rewrite map_column_found. unfold source at 1. cbn [fst snd].
    destruct (found df key) as [v|] eqn:Hf.
    + unfold loc_set_series, columns. cbn [nrows cols].
      rewrite (proj2 (mem_false _ _) Hfresh).
      rewrite bool_decide_eq_false_2 by lia. apply Hnext.
    + unfold loc_set_scalar, columns. cbn [nrows cols].
      rewrite (proj2 (mem_false _ _) Hfresh).
      rewrite bool_decide_eq_false_2 by lia. subst n. apply Hnext.
Qed.

Lemma map_columns_all df e0 rest v0 :
  well_formed df → nrows df ≠ 0%nat → found df e0.1 = Some v0 →
  NoDup (e0 :: rest).*2 →
  foldM (map_column U P df) (e0 :: rest) empty_frame
  = Ok (Frame (nrows df) (map (λ e, (e.2, source df e)) (e0 :: rest))).
Proof.
  intros Hwf Hn0 Hf Hnd. destruct e0 as [key db_col]. cbn [fst snd foldM map] in *.
  rewrite map_column_found, Hf.
  change (foldM (map_column U P df) rest (loc_set_series db_col v0 empty_frame)
          = Ok (Frame (nrows df)
                  ((db_col, source df (key, db_col))
                   :: map (λ e, (e.2, source df e)) rest))).
  unfold loc_set_series, columns, empty_frame. cbn [nrows cols fmap list_fmap].
  replace (mem db_col []) with false by done.
  rewrite bool_decide_eq_true_2 by done. cbn [map app].
  rewrite (map_columns_rest df rest); cbn [nrows cols app].
  - unfold source at 2. cbn [fst snd]. by rewrite Hf.
  - done.
  - by eapply found_length.
  - done.
  - done.
Qed.

(** The second loop finds every column in place. *)
Lemma ensure_columns_id (fr : frame) names :
  (∀ c, c ∈ names → c ∈ columns fr) →
  foldM (ensure_column P) names fr = Ok fr.
Proof.
  intros Hin. apply foldM_id, Forall_forall. intros c Hc.
  unfold ensure_column. by rewrite (proj2 (mem_true _ _) (Hin c Hc)).
Qed.

(** The third loop, column by column. *)
Definition clean_cells (c : str) (v : list cell) : result (list cell) :=
  match get_sql_type c with
  | REAL => Ok (map (coerce_real P) (to_numeric_series P v))
  | INTEGER =>
      v' ← traverse (coerce_integer P) (to_numeric_series P v);
      Ok (map (keep_dtype P v) v')
  | TEXT => Ok (map (coerce_text P) v)
  end.

Definition cleaned (c : str) (v : list cell) : list cell :=
  match clean_cells c v with
  | Ok v' => v'
  | Raise _ => v
  end.

Lemma clean_column_cells (fr : frame) c v :
  column fr c = Some v →
  clean_column P fr c = (v' ← clean_cells c v; Ok (loc_set_series c v' fr)).
Proof.
  intros Hv. unfold clean_column, clean_cells. rewrite Hv.
  destruct (get_sql_type c); try done.
  by destruct (traverse (coerce_integer P) (to_numeric_series P v)).
Qed.

Lemma clean_columns_go n (l1 l2 : list (str * list cell)) :
  NoDup (l1 ++ l2).*1 →
  Forall (λ kv, ∃ v', clean_cells kv.1 kv.2 = Ok v') l2 →
  foldM (clean_column P) l2.*1 (Frame n (l1 ++ l2))
  = Ok (Frame n (l1 ++ map (λ kv, (kv.1, cleaned kv.1 kv.2)) l2)).
Proof.
  intros Hnd Hok. revert l1 Hnd.
  induction Hok as [|[c v] l2 [v' Hv'] Hok IH]; intros l1 Hnd;
    cbn [foldM fmap list_fmap map fst snd] in *; [done|].
  rewrite fmap_app in Hnd. apply NoDup_app in Hnd as (Hl1 & Hdisj & Hl2).
  cbn [fmap list_fmap fst] in Hl2, Hdisj.
  assert (c ∉ l1.*1) as Hfresh.
  { intros Hin. apply (Hdisj _ Hin). by left. }
  rewrite (clean_column_cells _ c v).
  2:{ unfold column. cbn [cols]. rewrite assoc_app_r by done. apply assoc_head. }
  rewrite Hv'. cbn. unfold loc_set_series, columns. cbn [cols nrows].
  rewrite (proj2 (mem_true _ _)).
  2:{ rewrite fmap_app. apply elem_of_app. right. by left. }
  rewrite replace_col_app_r, replace_col_head by done.
  replace (l1 ++ (c, v') :: l2) with ((l1 ++ [(c, v')]) ++ l2)
    by by rewrite <- (assoc_L (++)).
  rewrite IH.
  - unfold cleaned at 2. cbn [fst snd]. rewrite Hv'.
    by rewrite <- (assoc_L (++)).
  - rewrite !fmap_app. cbn [fmap list_fmap fst]. rewrite <- (assoc_L (++)).
    apply NoDup_app. split_and!; [done| |done].
    intros x Hx Hin. by apply (Hdisj x Hx).
Qed.

Lemma clean_columns n (l : list (str * list cell)) :
  NoDup l.*1 →
  Forall (λ kv, ∃ v', clean_cells kv.1 kv.2 = Ok v') l →
  foldM (clean_column P) l.*1 (Frame n l)
  = Ok (Frame n (map (λ kv, (kv.1, cleaned kv.1 kv.2)) l)).
Proof. intros Hnd Hok. by apply (clean_columns_go n [] l). Qed.

(** [apply] on a column that is there touches that column only. *)
Definition on_column (c : str) (f : cell → str) (kv : str * list cell)
    : str * list cell :=
  (kv.1, if bool_decide (kv.1 = c) then map (λ x, CStr (f x)) kv.2 else kv.2).

Lemma apply_column_Some f c n (l : list (str * list cell)) :
  NoDup l.*1 → c ∈ l.*1 →
  apply_column P f c (Frame n l) = Some (Frame n (map (on_column c f) l)).
Proof.
  intros Hnd Hc. unfold apply_column, column. cbn [cols].
  destruct (assoc_elem c l Hc) as [v Hv]. rewrite Hv.
  unfold loc_set_series, columns. cbn [cols nrows].
  rewrite (proj2 (mem_true _ _) Hc). do 2 f_equal.
  pose proof (replace_col_map (λ _ v, map (λ x, CStr (f x)) v) c l Hnd) as H.
  by rewrite Hv in H.
Qed.

Lemma apply_column_None f c n (l : list (str * list cell)) :
  c ∉ l.*1 → apply_column P f c (Frame n l) = None.
Proof.
  intros Hc. unfold apply_column, column. cbn [cols]. by rewrite assoc_None.
Qed.

Lemma on_column_absent f c (l : list (str * list cell)) :
  c ∉ l.*1 → map (on_column c f) l = l.
Proof.
  intros Hc. etrans; [|apply map_id]. apply map_ext_in.
  intros [k v] Hin%list_elem_of_In. unfold on_column. cbn [fst snd].
  rewrite bool_decide_eq_false_2; [done|]. intros ->. apply Hc.
  apply list_elem_of_fmap. by exists (c, v).
Qed.

Lemma on_column_names f c (l : list (str * list cell)) :
  (map (on_column c f) l).*1 = l.*1.
Proof. induction l as [|[k v] l IH]; [done|]. cbn. by rewrite IH. Qed.

Lemma repair_date_map n (l : list (str * list cell)) :
  NoDup l.*1 →
  repair_date U P (Frame n l)
  = Frame n (map (on_column (lit "payment_date")
                    (parse_date_robust_and_format U P)) l).
Proof.
  intros Hnd. unfold repair_date.
  destruct (decide (lit "payment_date" ∈ l.*1)) as [Hin|Hin].
  - by rewrite apply_column_Some.
  - rewrite apply_column_None by done. cbn. by rewrite on_column_absent.
Qed.

Lemma repair_time_map n (l : list (str * list cell)) :
  NoDup l.*1 → n ≠ 0%nat →
  ∃ extra,
    repair_time U P (Frame n l)
    = Ok (Frame n (map (on_column (lit "payment_time")
                          (format_time_string_for_storage U)) l ++ extra))
    ∧ ∀ c, c ∈ extra.*1 → c ∉ l.*1.
Proof.
  intros Hnd Hn. unfold repair_time.
  destruct (decide (lit "payment_time" ∈ l.*1)) as [Hin|Hin].
  - exists []. rewrite apply_column_Some by done. rewrite app_nil_r.
    split; [done|]. by intros c ?%elem_of_nil.
  - exists [(lit "payment_time", replicate n (CStr (lit "00:00:00")))].
    rewrite apply_column_None by done.
    unfold loc_set_scalar, columns. cbn [cols nrows].
    rewrite (proj2 (mem_false _ _) Hin), bool_decide_eq_false_2 by done.
    rewrite on_column_absent by done. split; [done|].
    intros c Hc. cbn in Hc. by apply list_elem_of_singleton in Hc as ->.
Qed.

(** The selection, the last loop and the rows. *)
Lemma select_own_go (l0 l extra : list (str * list cell)) :
  NoDup (l0 ++ l).*1 →
  omap (λ k, (k,.) <$> assoc k (l0 ++ l ++ extra)) l.*1 = l.
Proof.
  revert l0. induction l as [|[k v] l IH]; intros l0 Hnd; [done|].
  cbn [fmap list_fmap fst omap list_omap].
  assert (k ∉ l0.*1) as Hk.
  { rewrite fmap_app in Hnd. apply NoDup_app in Hnd as (_ & Hd & _).
    intros Hin. apply (Hd _ Hin). by left. }
  rewrite assoc_app_r by done. cbn [app]. rewrite assoc_head. cbn.
  f_equal. specialize (IH (l0 ++ [(k, v)])).
  rewrite <- !(assoc_L (++)) in IH. by apply IH.
Qed.

Lemma select_own n (l extra : list (str * list cell)) :
  NoDup l.*1 → select P (Frame n (l ++ extra)) l.*1 = Frame n l.
Proof.
  intros Hnd. unfold select, columns, column. cbn [cols nrows]. f_equal.
  rewrite list_filter_all.
  - by apply (select_own_go [] l extra).
  - intros k Hk. rewrite fmap_app. apply elem_of_app. by left.
Qed.

Lemma ensure_final_id (fr : frame) names :
  (∀ c, c ∈ names → c ∈ columns fr) →
  foldM (ensure_final P) names fr = Ok fr.
Proof.
  intros Hin. apply foldM_id, Forall_forall. intros c Hc.
  unfold ensure_final. by rewrite (proj2 (mem_true _ _) (Hin c Hc)).
Qed.

Lemma traverse_columns_go (l0 l : list (str * list cell)) n :
  NoDup (l0 ++ l).*1 →
  traverse (λ name, match column (Frame n (l0 ++ l)) name with
                    | Some v => Ok v
                    | None => Raise KeyError
                    end) l.*1 = Ok l.*2.
Proof.
  revert l0. induction l as [|[k v] l IH]; intros l0 Hnd; [done|].
  cbn [fmap list_fmap fst snd traverse].
  assert (k ∉ l0.*1) as Hk.
  { rewrite fmap_app in Hnd. apply NoDup_app in Hnd as (_ & Hd & _).
    intros Hin. apply (Hd _ Hin). by left. }
  specialize (IH (l0 ++ [(k, v)])). rewrite <- !(assoc_L (++)) in IH.
  cbn [app] in IH. unfold column in *. cbn [cols] in *.
  rewrite assoc_app_r, assoc_head by done. cbn. by rewrite IH.
Qed.

Lemma values_tolist_own n (l : list (str * list cell)) :
  NoDup l.*1 →
  values_tolist (Frame n l) l.*1
  = Ok (map (λ i, map (λ kv, nth i kv.2 CNaN) l) (seq 0 n)).
Proof.
  intros Hnd. unfold values_tolist.
  pose proof (traverse_columns_go [] l n Hnd) as H. cbn [app] in H.
  rewrite H. cbn. f_equal.
  apply map_ext. intros i. by rewrite <- list_fmap_compose.
Qed.

(** What the import stores in the column of a mapping entry. *)
Definition final_cells (df : frame) (e : str * str) : list cell :=
  (on_column (lit "payment_time") (format_time_string_for_storage U)
     (on_column (lit "payment_date") (parse_date_robust_and_format U P)
        (e.2, cleaned e.2 (source df e)))).2.

Lemma transform_Ok df e0 rest v0 :
  let column_mapping := e0 :: rest in
  well_formed df → nrows df ≠ 0%nat → found df e0.1 = Some v0 →
  NoDup column_mapping.*2 →
  Forall (λ e, ∃ v', clean_cells e.2 (source df e) = Ok v') column_mapping →
  transform U P df column_mapping
  = Ok (map (λ i, map (λ e, nth i (final_cells df e) CNaN) column_mapping)
          (seq 0 (nrows df))).
Proof.
  intros column_mapping Hwf Hn0 Hf Hnd Hok. subst column_mapping.
  unfold transform.
  rewrite (map_columns_all df e0 rest v0) by done.
  set (column_mapping := e0 :: rest) in *. clearbody column_mapping.
  cbn [mbind result_bind].
  set (l1 := map (λ e, (e.2, source df e)) column_mapping).
  assert (l1.*1 = column_mapping.*2) as Hl1.
  { unfold l1. rewrite <- !list_fmap_compose. by apply list_fmap_ext. }
  rewrite <- Hl1 in *.
  rewrite ensure_columns_id by done. cbn [mbind result_bind].
  rewrite clean_columns; [|done|].
  2:{ unfold l1. by apply Forall_map. }
  cbn [mbind result_bind].
  set (l3 := map (λ kv, (kv.1, cleaned kv.1 kv.2)) l1).
  assert (l3.*1 = l1.*1) as Hl3.
  { unfold l3. rewrite <- !list_fmap_compose. by apply list_fmap_ext. }
  rewrite repair_date_map by by rewrite Hl3.
  set (l4 := map (on_column _ _) l3).
  assert (l4.*1 = l1.*1) as Hl4 by (unfold l4; by rewrite on_column_names).
  destruct (repair_time_map (nrows df) l4) as (extra & Hrt & Hextra);
    [by rewrite Hl4|done|].
  rewrite Hrt. cbn [mbind result_bind]. set (l5 := map (on_column _ _) l4) in *.
  assert (l5.*1 = l1.*1) as Hl5 by (unfold l5; by rewrite on_column_names).
  rewrite <- Hl5. rewrite select_own by by rewrite Hl5.
  rewrite ensure_final_id by done. cbn [mbind result_bind].
  rewrite values_tolist_own by by rewrite Hl5. f_equal.
  apply map_ext. intros i. unfold l5, l4, l3, l1. rewrite !map_map.
  by apply map_ext.
Qed.
End ImportFacts.

(** ** A column the upload lacks *)

Lemma traverse_replicate {A B} (f : A → result B) x y n :
  f x = Ok y → traverse f (replicate n x) = Ok (replicate n y).
Proof. intros Hx. induction n as [|n IH]; [done|]. cbn. by rewrite Hx, IH. Qed.

Lemma assoc_named {A B} (g : A → str) (h : A → B) (l : list A) e :
  NoDup (g <$> l) → e ∈ l → assoc (g e) (map (λ e, (g e, h e)) l) = Some (h e).
Proof.
  induction l as [|x l IH]; intros Hnd Hin; [by apply elem_of_nil in Hin|].
  cbn in Hnd. apply NoDup_cons in Hnd as [Hx Hnd]. cbn.
  apply elem_of_cons in Hin as [->|Hin]; [by rewrite bool_decide_eq_true_2|].
  rewrite bool_decide_eq_false_2; [by apply IH|].
  intros Heq. apply Hx. rewrite Heq. by apply list_elem_of_fmap_2.
Qed.

Section Missing.
Variable U : ucd.
Variable P : pandas.
Hypothesis HU : basic_latin U.

Local Abbreviation cell := (cell (float P)).

(** What ends up in a column filled with its default. *)
Definition final_default (c : str) : cell :=
  let d := default_value P c in
  let d := match get_sql_type c with
           | REAL => coerce_real P d
           | INTEGER => match coerce_integer P d with Ok y => y | Raise _ => d end
           | TEXT => coerce_text P d
           end in
  let d := if bool_decide (c = lit "payment_date")
           then CStr (parse_date_robust_and_format U P d) else d in
  if bool_decide (c = lit "payment_time")
  then CStr (format_time_string_for_storage U d) else d.

Lemma default_integer c :
  get_sql_type c = INTEGER → default_value P c = CInt 0.
Proof.
  intros Hc. unfold default_value. rewrite Hc. destruct (mem c _) eqn:Hm; [|done].
  apply mem_true in Hm. set_unfold in Hm.
  destruct Hm as [->|[->|[]]]; by vm_compute in Hc.
Qed.

Lemma default_real c :
  get_sql_type c = REAL → default_value P c = CFloat (zero P).
Proof.
  intros Hc. unfold default_value. rewrite Hc. destruct (mem c _) eqn:Hm; [|done].
  apply mem_true in Hm. set_unfold in Hm.
  destruct Hm as [->|[->|[]]]; by vm_compute in Hc.
Qed.

(** A column of one number is read as it is. *)
Lemma to_numeric_series_ints n z :
  to_numeric_series P (replicate n (CInt z)) = replicate n (CInt z).
Proof.
  assert (is_int64 P (map (λ c, default CNaN (to_numeric P c))
                        (replicate n (CInt z))) = true) as Hi.
  { induction n as [|n IH]; [done|]. cbn. exact IH. }
  unfold to_numeric_series. rewrite (map_ext_in _ id); [apply map_id|].
  intros c Hc%list_elem_of_In%elem_of_replicate. destruct Hc as [-> _].
  unfold to_numeric_in. by rewrite Hi.
Qed.

Lemma to_numeric_series_floats n (x : float P) :
  to_numeric_series P (replicate n (CFloat x)) = replicate n (CFloat x).
Proof.
  unfold to_numeric_series. rewrite (map_ext_in _ id); [apply map_id|].
  intros c Hc%list_elem_of_In%elem_of_replicate. destruct Hc as [-> _].
  unfold to_numeric_in. by destruct (is_int64 P _).
Qed.

Lemma coerce_integer_numeric (c : cell) :
  coerce_integer P (default CNaN (to_numeric P c)) = coerce_integer P c.
Proof.
  unfold coerce_integer. destruct c as [|s|z|x]; cbn; try done.
  by destruct (numeric_of_str P s) as [[z|x]|].
Qed.

(** A column whose cells cast one by one casts as a column: an integer
    read beside a float goes through float64, which is finite. *)
Lemma to_numeric_series_casts (v : list cell) :
  Forall (λ c, ∃ c', coerce_integer P c = Ok c') v →
  Forall (λ c, ∃ c', coerce_integer P c = Ok c') (to_numeric_series P v).
Proof.
  intros Hv. unfold to_numeric_series. apply Forall_map.
  eapply Forall_impl; [exact Hv|]. intros c [c' Hc]. cbn beta.
  unfold to_numeric_in. destruct (is_int64 P _).
  { exists c'. by rewrite coerce_integer_numeric. }
  rewrite <- coerce_integer_numeric in Hc.
  destruct (default CNaN (to_numeric P c)) as [|s|z|x]; cbn [to_float64];
    [by exists c'..| |by exists c'].
  unfold coerce_integer. cbn.
  pose proof (float_of_int_finite P z) as Hz.
  destruct (int_of_float P (float_of_int P z)); [by eexists|done].
Qed.

(** A column of integer zeros is no float64 column: the zeros written
    into it stay integers. *)
Lemma keep_dtype_zeros n :
  map (keep_dtype P (replicate n (CInt 0))) (replicate n (CInt 0))
  = replicate n (CInt 0).
Proof.
  destruct n as [|n]; [done|].
  rewrite (map_ext _ id) by done. apply map_id.
Qed.

Lemma clean_cells_default c n :
  get_sql_type c = INTEGER →
  ∃ v', clean_cells P c (replicate n (default_value P c)) = Ok v'.
Proof.
  intros Hc. unfold clean_cells. rewrite Hc.
  rewrite (default_integer c Hc), to_numeric_series_ints.
  rewrite (traverse_replicate _ _ (CInt 0)) by done.
  by eexists.
Qed.

Lemma final_cells_missing df key c :
  found U P df key = None →
  final_cells U P df (key, c) = replicate (nrows df) (final_default c).
Proof.
  intros Hf. unfold final_cells, on_column, source, cleaned, clean_cells,
    final_default. cbn [fst snd]. rewrite Hf.
  assert (∀ (b : bool) (f : cell → str) (x : cell) n,
            (if b then map (λ x, CStr (f x)) (replicate n x) else replicate n x)
            = replicate n (if b then CStr (f x) else x)) as Hrep.
  { intros [] f x n; [|done]. apply (fmap_replicate (λ x, CStr (f x))). }
  destruct (get_sql_type c) eqn:Hc.
  - rewrite (default_real c Hc), to_numeric_series_floats.
    rewrite (fmap_replicate (coerce_real P) (nrows df) (CFloat (zero P))
             : map _ _ = _).
    by rewrite !Hrep.
  - rewrite (default_integer c Hc), to_numeric_series_ints.
    rewrite (traverse_replicate _ _ (CInt 0)) by done.
    cbn [mbind result_bind]. rewrite keep_dtype_zeros.
    by rewrite !Hrep.
  - rewrite (fmap_replicate (coerce_text P) (nrows df) (default_value P c)
             : map _ _ = _).
    by rewrite !Hrep.
Qed.

Lemma nan_is_no_date :
  parse_any P (lit "nan") = None →
  parse_date_robust_and_format U P (CStr (lit "nan")) = [].
Proof.
  intros Hany. unfold parse_date_robust_and_format, try_formats.
  rewrite !(to_datetime_agree U HU) by ascii_lit. unfold to_datetime.
  replace (strptime latin fmt_dmy (lit "nan")) with (@None date) by by vm_compute.
  replace (strptime latin fmt_ymd (lit "nan")) with (@None date) by by vm_compute.
  replace (strptime latin fmt_mdy (lit "nan")) with (@None date) by by vm_compute.
  by rewrite Hany.
Qed.

Lemma final_default_real c :
  get_sql_type c = REAL → final_default c = CFloat (zero P).
Proof.
  intros Hc. unfold final_default, default_value. rewrite Hc.
  destruct (mem c _) eqn:Hm.
  { apply mem_true in Hm. set_unfold in Hm.
    destruct Hm as [->|[->|[]]]; by vm_compute in Hc. }
  rewrite !bool_decide_eq_false_2; [done|intros ->; by vm_compute in Hc..].
Qed.

Lemma final_default_integer c :
  get_sql_type c = INTEGER → final_default c = CInt 0.
Proof.
  intros Hc. unfold final_default, default_value. rewrite Hc.
  destruct (mem c _) eqn:Hm.
  { apply mem_true in Hm. set_unfold in Hm.
    destruct Hm as [->|[->|[]]]; by vm_compute in Hc. }
  rewrite !bool_decide_eq_false_2; [done|intros ->; by vm_compute in Hc..].
Qed.

Lemma final_default_key c :
  c = lit "receipt_number" ∨ c = lit "menu_name" → final_default c = CStr [].
Proof. intros [->| ->]; by vm_compute. Qed.

Lemma final_default_date :
  parse_any P (lit "nan") = None →
  final_default (lit "payment_date") = CStr [].
Proof.
  intros Hany. unfold final_default.
  replace (get_sql_type (lit "payment_date")) with TEXT by by vm_compute.
  replace (default_value P (lit "payment_date")) with (@CNaN (float P))
    by by vm_compute.
  rewrite (bool_decide_eq_true_2 (lit "payment_date" = lit "payment_date")) by done.
  rewrite (bool_decide_eq_false_2 (lit "payment_date" = lit "payment_time"))
    by ascii_lit.
  change (coerce_text P CNaN) with (@CStr (float P) (lit "nan")).
  by rewrite nan_is_no_date.
Qed.

Lemma final_default_time :
  final_default (lit "payment_time") = CStr (lit "00:00:00").
Proof.
  unfold final_default.
  replace (get_sql_type (lit "payment_time")) with TEXT by by vm_compute.
  replace (default_value P (lit "payment_time")) with (@CNaN (float P))
    by by vm_compute.
  rewrite (bool_decide_eq_false_2 (lit "payment_time" = lit "payment_date"))
    by ascii_lit.
  rewrite bool_decide_eq_true_2 by done.
  change (coerce_text P CNaN) with (@CStr (float P) (lit "nan")).
  f_equal. by_latin.
Qed.

(** Any other text column: the missing value is cast to the text "nan",
    which the fill that follows no longer sees. *)
Lemma final_default_text c :
  get_sql_type c = TEXT →
  c ∉ [lit "receipt_number"; lit "menu_name"; lit "payment_date";
       lit "payment_time"] →
  final_default c = CStr (lit "nan").
Proof.
  intros Hc Hn. unfold final_default, default_value. rewrite Hc.
  rewrite !not_elem_of_cons in Hn. destruct Hn as (? & ? & ? & ? & _).
  rewrite (proj2 (mem_false _ _)).
  2:{ rewrite !not_elem_of_cons. split_and!; [done..|]. apply not_elem_of_nil. }
  by rewrite !bool_decide_eq_false_2.
Qed.
End Missing.

Lemma zip_named {A B} (h : A → B) (l : list (str * A)) :
  zip l.*2 (map h l.*2) = map (λ e, (e.2, h e.2)) l.
Proof. induction l as [|e l IH]; [done|]. cbn. by rewrite IH. Qed.

Lemma zip_second {A B C} (g : A → B) (h : A → C) (l : list A) :
  zip (g <$> l) (map h l) = map (λ e, (g e, h e)) l.
Proof. induction l as [|e l IH]; [done|]. cbn. by rewrite IH. Qed.

(** C1, as the code has it.  Take an upload with at least one row whose
    header for the first mapping entry is there, integer columns that
    cast, and a store that takes the rows.  Then the import returns true,
    and a mapped column for which the upload has no header holds in every
    inserted row: 0.0 when it is REAL, 0 when it is INTEGER, the empty
    string for the receipt number, the menu name and the payment date, and
    "00:00:00" for the payment time. *)
Theorem missing_column_default (U : ucd) (P : pandas) (E : engine (float P))
    (HU : basic_latin U)
    (df : frame (float P)) (table_name : str) (e0 : str * str)
    (rest : list (str * str)) (db : gmap (list N) (table (float P)))
    (key db_col : str) (v0 : list (cell (float P))) :
  let column_mapping := e0 :: rest in
  let names := column_mapping.*2 in
  well_formed P df → nrows df ≠ 0%nat → found U P df e0.1 = Some v0 →
  NoDup names →
  Forall (λ e, get_sql_type e.2 = INTEGER → ∀ v, found U P df e.1 = Some v →
               Forall (λ c, ∃ c', coerce_integer P c = Ok c') v) column_mapping →
  connects E = true → prepares db table_name names = true →
  (∀ rows, transform U P df column_mapping = Ok rows →
           Forall (λ row, accepts E table_name (zip names row) = true) rows) →
  (key, db_col) ∈ column_mapping →
  (∀ h, h ∈ columns df →
        normalize_column_name U h ≠ normalize_column_name U key) →
  ∃ rows,
    insert_data_from_df U P E df table_name column_mapping db
    = (true, foldl add_row db (map (table_name,.) rows))
    ∧ length rows = nrows df
    ∧ ∀ row, row ∈ rows →
        (get_sql_type db_col = REAL → assoc db_col row = Some (CFloat (zero P)))
        ∧ (get_sql_type db_col = INTEGER → assoc db_col row = Some (CInt 0))
        ∧ (db_col = lit "receipt_number" ∨ db_col = lit "menu_name" →
             assoc db_col row = Some (CStr []))
        ∧ (db_col = lit "payment_date" → parse_any P (lit "nan") = None →
             assoc db_col row = Some (CStr []))
        ∧ (db_col = lit "payment_time" →
             assoc db_col row = Some (CStr (lit "00:00:00"))).
Proof.
  intros column_mapping names Hwf Hn0 Hf Hnd Hint Hconn Hprep Hacc Hin Hmiss.
  assert (Forall (λ e, ∃ v', clean_cells P e.2 (source U P df e) = Ok v')
            column_mapping) as Hok.
  { eapply Forall_impl; [exact Hint|]. intros [k c] Hc. cbn [fst snd] in *.
    unfold clean_cells. destruct (get_sql_type c) eqn:Hty; [by eexists| |by eexists].
    unfold source. cbn [fst snd]. destruct (found U P df k) as [v|] eqn:Hv.
    - destruct (traverse_Ok (coerce_integer P) _
                  (to_numeric_series_casts P v (Hc eq_refl v eq_refl)))
        as (v' & -> & _).
      by eexists.
    - destruct (clean_cells_default P c (nrows df) Hty) as [v' Hv'].
      unfold clean_cells in Hv'. rewrite Hty in Hv'. by exists v'. }
  pose proof (transform_Ok U P df e0 rest v0 Hwf Hn0 Hf Hnd Hok) as Ht.
  fold column_mapping in Ht.
  set (cells := λ i, map (λ e, nth i (final_cells U P df e) CNaN) column_mapping) in Ht.
  exists (map (λ i, zip names (cells i)) (seq 0 (nrows df))). split_and!.
  - unfold insert_data_from_df, try_block. rewrite Hconn, Ht.
    unfold executemany. cbn [committed]. fold names. rewrite Hprep.
    rewrite insert_rows_accepted by by apply Hacc.
    cbn [close commit committed pending app]. by rewrite !map_map.
  - by rewrite length_map, length_seq.
  - intros row (i & -> & Hi)%list_elem_of_fmap. apply elem_of_seq in Hi.
    assert (assoc db_col (zip names (cells i)) = Some (final_default U P db_col))
      as Hrow.
    { unfold cells, names. rewrite zip_second.
      rewrite (assoc_named snd _ column_mapping (key, db_col)) by done.
      rewrite final_cells_missing by by apply found_None.
      rewrite nth_lookup, lookup_replicate_2 by lia. done. }
    rewrite Hrow. split_and!.
    + intros Hty. by rewrite final_default_real.
    + intros Hty. by rewrite final_default_integer.
    + intros Hk. by rewrite final_default_key.
    + intros -> Hnan. by rewrite final_default_date.
    + intros ->. by rewrite final_default_time.
Qed.

(** C1 fails on a text column.  An upload of one row that has the payment
    date and nothing else is imported; the payment time, which the upload
    lacks, is stored as "00:00:00" and not as the empty string. *)
Lemma missing_time_not_empty :
  let r := insert_bills_data latin pandas0 sqlite_ok date_only bills_db in
  r.1 = true
  ∧ get_sql_type (lit "payment_time") = TEXT
  ∧ found latin pandas0 date_only (lit "Payment Time") = None
  ∧ ∃ row, stored r.2 (lit "bills") = [row]
      ∧ assoc (lit "payment_date") row = Some (CStr (lit "2024-01-31"))
      ∧ assoc (lit "payment_time") row = Some (CStr (lit "00:00:00"))
      ∧ assoc (lit "payment_time") row ≠ Some (CStr []).
Proof.
  split_and!; [by vm_compute..|].
  eexists. split_and!; [by vm_compute..|]. by vm_compute.
Qed.

(** The other text columns get the text "nan" in that import. *)
Example missing_branch_is_nan :
  ∃ row,
    stored (insert_bills_data latin pandas0 sqlite_ok date_only bills_db).2
      (lit "bills") = [row]
    ∧ assoc (lit "branch") row = Some (CStr (lit "nan"))
    ∧ assoc (lit "receipt_number") row = Some (CStr [])
    ∧ assoc (lit "summary_price") row = Some (CFloat 0)
    ∧ assoc (lit "seat_amount") row = Some (CInt 0).
Proof. eexists. split_and!; by vm_compute. Qed.

(** An upload without the header of the first mapping entry is refused:
    the first default is set on a frame that has no index yet. *)
Example missing_first_column_fails :
  insert_bills_data latin pandas0 sqlite_ok
    (Frame 1 [(lit "Payment Time", [CStr (lit "14:05")])]) bills_db
  = (false, bills_db).
Proof. by vm_compute. Qed.

(** ** The basket *)

Lemma sorted_perm l : sorted l ≡ₚ l.
Proof. apply merge_sort_Permutation. Qed.

Lemma elem_of_sorted l x : x ∈ sorted l ↔ x ∈ l.
Proof. by rewrite sorted_perm. Qed.

Lemma NoDup_sorted l : NoDup l → NoDup (sorted l).
Proof. by rewrite sorted_perm. Qed.










Lemma elem_of_concat (X : list (list str)) c :
  c ∈ concat X ↔ ∃ tx, c ∈ tx ∧ tx ∈ X.
Proof.
  rewrite list_elem_of_In, in_concat. split.
  - intros (tx & ?%list_elem_of_In & ?%list_elem_of_In). by exists tx.
  - intros (tx & ? & ?). exists tx. by rewrite <- !list_elem_of_In.
Qed.


Section BasketFacts.
Variable P : pandas.

Lemma get_basket_data_eq db exclude_items :
  let kept := filter (λ d, menu_name d ∉ default [] exclude_items)
                (get_bill_details_for_analysis P db) in
  let X := (transactions kept).*2 in
  get_basket_data P db exclude_items = OneHot (te_fit X) (te_transform (te_fit X) X).
Proof.
  intros kept X. subst X kept. unfold get_basket_data.
  destruct (get_bill_details_for_analysis P db) as [|d l] eqn:Hd; [done|].
  by destruct (filter _ (d :: l)).
Qed.

Lemma elem_of_items_of r (df : list detail) c :
  c ∈ items_of r df ↔ ∃ d, d ∈ df ∧ receipt_number d = r ∧ menu_name d = c.
Proof.
  unfold items_of. rewrite list_elem_of_fmap. split.
  - intros (d & -> & [? ?]%list_elem_of_filter). by exists d.
  - intros (d & Hd & Hr & Hm). exists d. split; [done|].
    by apply list_elem_of_filter.
Qed.

Lemma elem_of_receipts (df : list detail) r :
  r ∈ receipts df ↔ ∃ d, d ∈ df ∧ receipt_number d = r.
Proof.
  unfold receipts. rewrite elem_of_sorted, elem_of_remove_dups, list_elem_of_fmap.
  split; intros (d & ? & ?); by exists d.
Qed.

Lemma elem_of_te_fit (df : list detail) c :
  c ∈ te_fit (transactions df).*2 ↔ ∃ d, d ∈ df ∧ menu_name d = c.
Proof.
  unfold te_fit, transactions.
  rewrite elem_of_sorted, elem_of_remove_dups, elem_of_concat.
  split.
  - intros (tx & Hc & Htx). apply list_elem_of_fmap in Htx as ([r tx'] & -> & Htx).
    apply list_elem_of_fmap in Htx as (r' & [= -> ->] & Hr). cbn in Hc.
    apply elem_of_remove_dups, elem_of_items_of in Hc as (d & ? & ? & ?).
    by exists d.
  - intros (d & Hd & Hm).
    exists (remove_dups (items_of (receipt_number d) df)). split.
    + apply elem_of_remove_dups, elem_of_items_of. by exists d.
    + apply list_elem_of_fmap.
      exists (receipt_number d, remove_dups (items_of (receipt_number d) df)).
      split; [done|]. apply list_elem_of_fmap. exists (receipt_number d).
      split; [done|]. apply elem_of_receipts. by exists d.
Qed.
End BasketFacts.


(** ** The theorems at concrete inputs *)

Lemma format_time_idempotent_witness :
  let v := @CStr unit (lit "1 hour 57 min") in
  basic_latin latin
  ∧ length (format_time_string_for_storage latin v) = 8%nat
  ∧ format_time_string_for_storage latin
      (@CStr unit (format_time_string_for_storage latin v))
    = format_time_string_for_storage latin v.
Proof.
  split; [exact latin_basic_latin|]. split; [by vm_compute|].
  apply (format_time_idempotent latin unit latin_basic_latin).
  by vm_compute.
Defined.

Lemma format_time_priority_witness :
  basic_latin latin
  ∧ format_time_string_for_storage latin (@CStr unit (lit "51 min")) = lit "00:51:00".
Proof.
  split; [exact latin_basic_latin|].
  pose proof (format_time_priority latin unit latin_basic_latin) as H.
  cbv zeta in H. apply H.
Defined.

Lemma hour_match_overwrites_minutes_witness :
  basic_latin latin
  ∧ format_time_string_for_storage latin (@CStr unit (lit "57 min 1 hour"))
    = lit "01:00:00".
Proof.
  split; [exact latin_basic_latin|].
  apply (hour_match_overwrites_minutes latin unit latin_basic_latin).
Defined.

Lemma normalize_keeps_underscore_witness :
  basic_latin latin
  ∧ normalize_column_name latin (lit "Menu_Name") = lit "menu_name".
Proof.
  split; [exact latin_basic_latin|].
  apply (normalize_keeps_underscore latin latin_basic_latin).
Defined.

Lemma normalize_idempotent_ascii_witness :
  basic_latin latin ∧ ascii_str (lit "Custom Payment Ref.")
  ∧ normalize_column_name latin (normalize_column_name latin (lit "Custom Payment Ref."))
    = normalize_column_name latin (lit "Custom Payment Ref.").
Proof.
  split; [exact latin_basic_latin|].
  assert (ascii_str (lit "Custom Payment Ref.")) as Ha by ascii_lit.
  split; [exact Ha|].
  exact (normalize_idempotent_ascii latin latin_basic_latin _ Ha).
Defined.

Lemma inv_no_key_witness :
  basic_latin latin
  ∧ normalize_column_name latin (lit "INV. No") = lit "invno".
Proof.
  split; [exact latin_basic_latin|].
  apply (inv_no_key latin pandas0 latin_basic_latin).
Defined.

Lemma parse_date_order_witness :
  basic_latin latin ∧ in_range pandas0 (Date 2024 1 31) = true
  ∧ parse_date_robust_and_format latin pandas0 (CStr (lit "31/01/2024"))
    = lit "2024-01-31"
  ∧ parse_date_robust_and_format latin pandas0 (CStr (lit "2024-01-31"))
    = lit "2024-01-31".
Proof.
  split; [exact latin_basic_latin|]. split; [by vm_compute|].
  pose proof (parse_date_order latin pandas0 latin_basic_latin eq_refl) as H.
  cbv zeta in H. split; apply H.
Defined.

Lemma missing_column_default_witness :
  ∃ rows,
    insert_data_from_df latin pandas0 sqlite_ok date_only (lit "bills")
      BILLS_COLUMN_MAPPING bills_db
    = (true, foldl add_row bills_db (map (lit "bills",.) rows))
    ∧ length rows = 1%nat
    ∧ ∀ row, row ∈ rows →
        assoc (lit "payment_time") row = Some (CStr (lit "00:00:00")).
Proof.
  destruct (missing_column_default latin pandas0 sqlite_ok latin_basic_latin
              date_only (lit "bills")
              (lit "Payment Date", lit "payment_date")
              (tail BILLS_COLUMN_MAPPING) bills_db
              (lit "Payment Time") (lit "payment_time")
              [CStr (lit "31/01/2024")])
    as (rows & Hr & Hlen & Hrows).
  - by repeat constructor.
  - done.
  - by vm_compute.
  - apply (bool_decide_unpack _). by vm_compute.
  - repeat (constructor;
            [intros Hty v Hv; vm_compute in Hty, Hv; discriminate|]).
    constructor.
  - done.
  - by vm_compute.
  - intros rows _. by apply Forall_true.
  - apply (bool_decide_unpack _). by vm_compute.
  - intros h Hh. apply list_elem_of_singleton in Hh as ->. by vm_compute.
  - exists rows. split_and!; [exact Hr|exact Hlen|].
    intros row Hrow. by apply (Hrows row Hrow).
Defined.

(** A bill with the same item on two lines: one flag. *)
Example basket_same_item_twice :
  let line r m : list (str * cell Z) :=
    [(lit "receipt_number", CStr (lit r)); (lit "menu_name", CStr (lit m))] in
  let db : gmap (list N) (table Z) :=
    {[ lit "bill_details" :=
         Table DETAIL_BILLS_COLUMN_MAPPING.*2
           [line "R2" "tea"; line "R1" "tea"; line "R1" "cake"; line "R1" "tea"] ]} in
  get_basket_data pandas0 db None
  = OneHot [lit "cake"; lit "tea"] [[true; true]; [false; true]]
  ∧ get_basket_data pandas0 db (Some [lit "cake"])
    = OneHot [lit "tea"] [[true]; [true]].
Proof. split; by vm_compute. Qed.

(** A store that refuses a row without payment date.  Of an upload of two
    rows whose second date does not parse, the first row is taken into the
    open transaction, the second is refused, and closing the connection
    leaves the table as it was. *)
Example refused_row_rolls_back :
  let strict : engine Z :=
    {| connects := true;
       accepts := λ _ row,
         match assoc (lit "payment_date") row with
         | Some (CStr []) => false
         | _ => true
         end |} in
  let df : frame Z :=
    Frame 2 [(lit "Payment Date", [CStr (lit "31/01/2024"); CStr (lit "soon")])] in
  let tried := try_block latin pandas0 strict df (lit "bills") BILLS_COLUMN_MAPPING
                 (Connection bills_db []) in
  tried.1 = Raise SqliteError
  ∧ length (pending tried.2) = 1%nat
  ∧ committed tried.2 = bills_db
  ∧ insert_bills_data latin pandas0 strict df bills_db = (false, bills_db).
Proof. split_and!; by vm_compute. Qed.

(** * Further properties *)

(** ** The normalizer: what a header keeps *)

Lemma latin_lower_idem s : ascii_str s → latin_lower (latin_lower s) = latin_lower s.
Proof.
  intros Hs. rewrite (latin_lower_map s Hs).
  rewrite latin_lower_map.
  - rewrite map_map. apply map_ext_in. intros c Hc%list_elem_of_In.
    unfold ascii_str in Hs. rewrite Forall_forall in Hs.
    by destruct (lc_facts c (Hs c Hc)) as (_ & _ & -> & _).
  - rewrite <- latin_lower_map by done. by apply latin_lower_ascii.
Qed.

Lemma keeps_dot_lower s : ascii_str s → keeps_dot latin (latin_lower s) = keeps_dot latin s.
Proof. intros Hs. unfold keeps_dot. simpl lower. by rewrite latin_lower_idem. Qed.

Lemma normalize_latin_lower s :
  ascii_str s →
  normalize_column_name latin (latin_lower s) = normalize_column_name latin s.
Proof.
  intros Hs. rewrite !normalize_latin by (try done; by apply latin_lower_ascii).
  rewrite keeps_dot_lower by done. rewrite (latin_lower_map s Hs).
  assert (∀ f : N → bool, (∀ c, is_ascii c = true → f (lc c) = f c) →
            map lc (List.filter f (map lc s)) = map lc (List.filter f s)) as H.
  { intros f Hf. rewrite filter_map_commute.
    - rewrite map_map. apply map_ext_in. intros c Hc.
      apply List.filter_In in Hc as [Hc%list_elem_of_In _].
      unfold ascii_str in Hs. rewrite Forall_forall in Hs.
      by destruct (lc_facts c (Hs c Hc)) as (_ & _ & -> & _).
    - eapply Forall_impl; [exact Hs|]. intros c Hc. by apply Hf. }
  apply H. intros c Hc. destruct (lc_facts c Hc) as (_ & _ & _ & Hw & Hwd & _).
  by destruct (keeps_dot latin s).
Qed.

(** X1. The Column Normalizer is blind to letter case on Basic Latin
    headers: lowercasing a header first does not change its key, so two
    headers with the same lowercase form get the same key. *)
Theorem normalize_ignores_case (U : ucd) (HU : basic_latin U) (h1 h2 : list N) :
  ascii_str h1 → ascii_str h2 →
  normalize_column_name U (lower U h1) = normalize_column_name U h1
  ∧ (lower U h1 = lower U h2 →
     normalize_column_name U h1 = normalize_column_name U h2).
Proof.
  intros H1 H2.
  assert (∀ h, ascii_str h →
            normalize_column_name U (lower U h) = normalize_column_name U h) as Hl.
  { intros h Hh. rewrite (bl_lower U HU) by done.
    rewrite !(normalize_agree U HU) by (try done; by apply latin_lower_ascii).
    by apply normalize_latin_lower. }
  split; [by apply Hl|]. intros Heq. by rewrite <- (Hl h1), <- (Hl h2), Heq.
Qed.

Lemma normalize_ignores_case_witness :
  normalize_column_name latin (lit "RECEIPT number")
  = normalize_column_name latin (lit "Receipt Number").
Proof.
  apply (normalize_ignores_case latin latin_basic_latin); [ascii_lit..|by vm_compute].
Defined.

Lemma keeps_dot_has_dot s : ascii_str s → keeps_dot latin s = true → 46%N ∈ s.
Proof.
  intros Hs Hk.
  assert (46%N ∈ latin_lower s) as Hd.
  { unfold keeps_dot in Hk. simpl lower in Hk.
    assert (∀ p, 46%N ∈ p → contains p (latin_lower s) = true → 46%N ∈ latin_lower s)
      as Hp.
    { intros p Hp (a & b & ->)%contains_spec. rewrite !elem_of_app. auto. }
    apply orb_true_iff in Hk as [Hk|Hk]; [apply orb_true_iff in Hk as [Hk|Hk]|];
      (eapply Hp; [|exact Hk]); apply (bool_decide_unpack _); by vm_compute. }
  rewrite latin_lower_map in Hd by done.
  apply list_elem_of_fmap in Hd as (c & Hc & Hin).
  unfold ascii_str in Hs. rewrite Forall_forall in Hs. specialize (Hs c Hin).
  pose proof (ascii_forall (λ c, implb (lc c =? 46)%N (c =? 46)%N)
                ltac:(by vm_compute) c Hs) as Hlc.
  cbv beta in Hlc. rewrite <- Hc, N.eqb_refl in Hlc. simpl in Hlc. apply N.eqb_eq in Hlc. by subst.
Qed.

(** X2. The key of a Basic Latin header is made of lowercase letters,
    digits and underscores, and of dots when the lowercased header holds one
    of the three dot patterns; the key holds a dot exactly in that case. *)
Theorem normalize_alphabet (U : ucd) (HU : basic_latin U) (header : list N) :
  ascii_str header →
  Forall (λ c, latin_islower c || latin_isdigit c || (c =? 95)%N
               || keeps_dot U header && (c =? 46)%N = true)
    (normalize_column_name U header)
  ∧ (46%N ∈ normalize_column_name U header ↔ keeps_dot U header = true).
Proof.
  intros Hh. rewrite (normalize_agree U HU), (keeps_dot_agree U HU) by done.
  pose proof (normal_form_chars header Hh) as Hc.
  split.
  - eapply Forall_impl; [exact Hc|]. intros c (Ha & Hl & Hk). cbv beta.
    pose proof (ascii_forall
      (λ c, implb (bool_decide (lc c = c))
              (implb (wd c) (latin_islower c || latin_isdigit c || (c =? 95)%N)
               && implb (wdot c) (latin_islower c || latin_isdigit c || (c =? 95)%N
                                  || (c =? 46)%N)))
      ltac:(by vm_compute) c Ha) as Hf.
    cbv beta in Hf. rewrite bool_decide_eq_true_2 in Hf by done. simpl in Hf.
    apply andb_true_iff in Hf as [Hw Hwd].
    destruct (keeps_dot latin header).
    + rewrite Hk in Hwd. simpl in *. done.
    + rewrite Hk in Hw. simpl in *. by rewrite Hw.
  - split.
    + intros Hin. rewrite Forall_forall in Hc. destruct (Hc _ Hin) as (_ & _ & Hk).
      by destruct (keeps_dot latin header).
    + intros Hk. rewrite normalize_latin, Hk by done.
      apply list_elem_of_fmap. exists 46%N. split; [done|].
      apply list_elem_of_In, List.filter_In. split; [|done].
      apply list_elem_of_In. by apply keeps_dot_has_dot.
Qed.

Lemma normalize_alphabet_witness :
  46%N ∈ normalize_column_name latin (lit "Custom Payment Ref.")
  ↔ keeps_dot latin (lit "Custom Payment Ref.") = true.
Proof.
  apply (normalize_alphabet latin latin_basic_latin). ascii_lit.
Defined.

(** X3. Into a Basic Latin header without dot, a character that is neither
    a word character nor a dot (a space, a hyphen, a bracket) can be
    inserted anywhere without changing the key. *)
Theorem normalize_ignores_punctuation (U : ucd) (HU : basic_latin U)
    (a b : list N) (c : N) :
  ascii_str a → ascii_str b → is_ascii c = true →
  46%N ∉ a ++ b → c ≠ 46%N → cls_match U CWord c = false →
  normalize_column_name U (a ++ c :: b) = normalize_column_name U (a ++ b).
Proof.
  intros Ha Hb Hc Hdot Hc46 Hw.
  assert (ascii_str (a ++ b)) as Hab by by apply ascii_str_app.
  assert (ascii_str (a ++ c :: b)) as Hacb.
  { apply ascii_str_app. split; [done|]. by apply ascii_str_cons. }
  rewrite !(normalize_agree U HU) by done.
  rewrite !normalize_latin by done.
  assert (keeps_dot latin (a ++ b) = false) as ->.
  { destruct (keeps_dot latin (a ++ b)) eqn:Hk; [|done].
    by apply keeps_dot_has_dot in Hk. }
  assert (keeps_dot latin (a ++ c :: b) = false) as ->.
  { destruct (keeps_dot latin (a ++ c :: b)) eqn:Hk; [|done].
    apply keeps_dot_has_dot in Hk; [|done].
    rewrite elem_of_app, elem_of_cons in Hk. rewrite elem_of_app in Hdot.
    destruct Hk as [?|[?|?]]; [destruct Hdot; by left|by subst|destruct Hdot; by right]. }
  rewrite !List.filter_app. simpl List.filter.
  replace (wd c) with false; [done|].
  simpl in Hw. rewrite (bl_isalnum U HU) in Hw by done. by rewrite <- Hw.
Qed.

Lemma normalize_ignores_punctuation_witness :
  normalize_column_name latin (lit "Order" ++ 45%N :: lit "Type")
  = normalize_column_name latin (lit "Order" ++ lit "Type").
Proof.
  apply (normalize_ignores_punctuation latin latin_basic_latin);
    [ascii_lit|ascii_lit|done| |done|done].
  apply (bool_decide_unpack _). by vm_compute.
Defined.

(** ** Header index *)

Lemma index_headers_snoc U m hs h :
  index_headers U m (hs ++ [h])
  = <[normalize_column_name U h := h]> (index_headers U m hs).
Proof. unfold index_headers. by rewrite foldl_app. Qed.

(** X4. The index of the headers of an upload maps a key to the last
    header, in column order, that has this key: of two headers with the
    same normal form the later one is kept. *)
Theorem header_index_last_wins (U : ucd) (P : pandas) (df : frame (float P))
    (k col : list N) :
  normalized_df_columns_map U P df !! k = Some col
  ↔ ∃ before after,
      columns df = before ++ col :: after
      ∧ normalize_column_name U col = k
      ∧ ∀ h, h ∈ after → normalize_column_name U h ≠ k.
Proof.
  unfold normalized_df_columns_map. generalize (columns df). intros hs.
  induction hs as [|h hs IH] using rev_ind.
  - cbn. split; [by intros ?%lookup_empty_Some|].
    intros (before & after & Hnil & _). by destruct before.
  - rewrite index_headers_snoc.
    destruct (decide (normalize_column_name U h = k)) as [Hk|Hk].
    + subst k. rewrite lookup_insert_eq. split.
      * intros [= <-]. exists hs, []. split_and!; [done..|].
        by intros h' ?%elem_of_nil.
      * intros (before & after & Heq & Hc & Hafter).
        destruct after as [|x after _] using rev_ind.
        { apply app_inj_tail in Heq as [_ ->]. done. }
        rewrite app_comm_cons, (assoc_L (++)) in Heq.
        apply app_inj_tail in Heq as [_ ->].
        destruct (Hafter x); [|done]. apply elem_of_app. right. by left.
    + rewrite lookup_insert_ne by done. rewrite IH. split.
      * intros (before & after & -> & Hc & Hafter).
        exists before, (after ++ [h]). rewrite <- (assoc_L (++)).
        split_and!; [done..|].
        intros h' [?|Hx%list_elem_of_singleton]%elem_of_app;
          [by apply Hafter|by subst].
      * intros (before & after & Heq & Hc & Hafter).
        destruct after as [|x after _] using rev_ind.
        { apply app_inj_tail in Heq as [_ ->]. done. }
        rewrite app_comm_cons, (assoc_L (++)) in Heq.
        apply app_inj_tail in Heq as [-> ->].
        exists before, after. split_and!; [done..|].
        intros h' Hh'. apply Hafter, elem_of_app. by left.
Qed.

(** ** Time repair: a time at the head of the text *)

Section TimePrefix.
Variable U : ucd.
Hypothesis HU : basic_latin U.

Lemma lstrip_drop s : ∃ n, lstrip U s = drop n s.
Proof.
  induction s as [|c s [n IH]]; [by exists 0%nat|]. simpl.
  destruct (isspace U c); [by exists (S n)|by exists 0%nat].
Qed.

Lemma lstrip_app_keep t c r :
  isspace U c = false → lstrip U (t ++ c :: r) = lstrip U t ++ c :: r.
Proof.
  intros Hc. induction t as [|x t IH]; simpl; [by rewrite Hc|].
  by destruct (isspace U x).
Qed.

Lemma strip_keeps_head a x z tail :
  isspace U a = false → isspace U z = false →
  ∃ n, strip U (a :: x ++ z :: tail) = a :: x ++ z :: take n tail.
Proof.
  intros Ha Hz. unfold strip. cbn [lstrip]. rewrite Ha.
  change (a :: x ++ z :: tail) with ((a :: x) ++ z :: tail).
  rewrite reverse_app, reverse_cons, <- (assoc_L (++)). cbn [app].
  rewrite lstrip_app_keep by done.
  destruct (lstrip_drop (reverse tail)) as [n ->].
  exists (length tail - n)%nat.
  rewrite reverse_app, reverse_cons, !reverse_involutive, <- (assoc_L (++)).
  cbn [app]. by rewrite drop_reverse, reverse_involutive.
Qed.

Lemma digit_not_colon c v : digit U c v → (58 =? c)%N = false.
Proof.
  intros (Ha & Hd & _). apply N.eqb_neq. intros <-.
  rewrite (bl_decimal U HU) in Hd by done. done.
Qed.

Lemma colon_no_digit : cls_match U CDigit 58%N = false.
Proof. simpl. by rewrite (bl_decimal U HU). Qed.

(** A character that is neither whitespace nor changed by lowercasing. *)
Definition plain (c : N) : Prop :=
  is_ascii c = true ∧ isspace U c = false ∧ latin_lower_cp c = [c].

Lemma digit_plain c v : digit U c v → plain c.
Proof. intros (? & _ & ? & ?). by split_and!. Qed.

Lemma colon_plain : plain 58%N.
Proof. split_and!; [done| |done]. by rewrite (bl_isspace U HU). Qed.

Lemma latin_lower_plain p : Forall plain p → latin_lower p = p.
Proof.
  induction 1 as [|c p (_ & _ & Hc) Hp IH]; [done|].
  unfold latin_lower in *. cbn [flat_map]. by rewrite Hc, IH.
Qed.

Lemma shape_keeps_head a x z tail :
  Forall plain (a :: x ++ [z]) → ascii_str tail →
  ∃ n, lower U (strip U (a :: x ++ z :: tail))
       = a :: x ++ z :: latin_lower (take n tail).
Proof.
  intros Hp Ht.
  assert (plain a ∧ plain z) as [Ha Hz].
  { apply Forall_cons in Hp as [Ha Hp]. apply Forall_app in Hp as [_ Hz].
    apply Forall_inv in Hz. by split. }
  destruct (strip_keeps_head a x z tail) as [n ->]; [apply Ha|apply Hz|].
  exists n.
  assert (ascii_str (take n tail)) as Htn.
  { apply Forall_take. exact Ht. }
  replace (a :: x ++ z :: take n tail) with ((a :: x ++ [z]) ++ take n tail)
    by (cbn; by rewrite <- (assoc_L (++))).
  rewrite (bl_lower U HU).
  2:{ apply ascii_str_app. split; [|done].
      eapply Forall_impl; [exact Hp|]. by intros c (? & _). }
  unfold latin_lower. rewrite flat_map_app.
  fold (latin_lower (a :: x ++ [z])). rewrite latin_lower_plain by done.
  cbn. by rewrite <- (assoc_L (++)).
Qed.

Lemma take_head_not_colon n tail :
  ascii_str tail → head tail ≠ Some 58%N →
  head (latin_lower (take n tail)) ≠ Some 58%N.
Proof.
  intros Ht Hh. destruct tail as [|c r]; [by destruct n|].
  destruct n as [|n]; [done|]. cbn [take]. unfold latin_lower. cbn [flat_map].
  apply ascii_str_cons in Ht as [Hc _].
  destruct (lc_facts c Hc) as (-> & _). cbn.
  pose proof (ascii_forall (λ c, implb (lc c =? 58)%N (c =? 58)%N)
                ltac:(by vm_compute) c Hc) as Hlc.
  cbv beta in Hlc. intros [= Heq]. rewrite Heq in Hlc. cbn in Hlc.
  apply N.eqb_eq in Hlc. subst c. by cbn in Hh.
Qed.

Ltac digits Ha Hb Hc Hd He Hf :=
  repeat (cbn -[cls_match N.eqb];
          rewrite ?N.eqb_refl,
            ?(cls_digit _ _ _ Ha), ?(cls_digit _ _ _ Hb), ?(cls_digit _ _ _ Hc),
            ?(cls_digit _ _ _ Hd), ?(cls_digit _ _ _ He), ?(cls_digit _ _ _ Hf),
            ?colon_no_digit,
            ?(digit_not_colon _ _ Ha), ?(digit_not_colon _ _ Hb),
            ?(digit_not_colon _ _ Hc), ?(digit_not_colon _ _ Hd),
            ?(digit_not_colon _ _ He), ?(digit_not_colon _ _ Hf)).

Lemma match_hms_head a b c d e f va vb vc vd ve vf t :
  digit U a va → digit U b vb → digit U c vc → digit U d vd → digit U e ve →
  digit U f vf →
  re_match U pat_hms (a :: b :: 58%N :: c :: d :: 58%N :: e :: f :: t)
  = Some [[a; b]; [c; d]; [e; f]].
Proof.
  intros Ha Hb Hc Hd He Hf.
  unfold re_match, pat_hms, one_or_two_digits, two_digits. norm_lit.
  digits Ha Hb Hc Hd He Hf. done.
Qed.

Lemma match_hms_head1 a c d e f va vc vd ve vf t :
  digit U a va → digit U c vc → digit U d vd → digit U e ve → digit U f vf →
  re_match U pat_hms (a :: 58%N :: c :: d :: 58%N :: e :: f :: t)
  = Some [[a]; [c; d]; [e; f]].
Proof.
  intros Ha Hc Hd He Hf.
  unfold re_match, pat_hms, one_or_two_digits, two_digits. norm_lit.
  digits Ha Ha Hc Hd He Hf. done.
Qed.

Lemma match_hms_none a b c d va vb vc vd t :
  digit U a va → digit U b vb → digit U c vc → digit U d vd →
  head t ≠ Some 58%N →
  re_match U pat_hms (a :: b :: 58%N :: c :: d :: t) = None.
Proof.
  intros Ha Hb Hc Hd Ht.
  unfold re_match, pat_hms, one_or_two_digits, two_digits. norm_lit.
  digits Ha Hb Hc Hd Hd Hd.
  destruct t as [|x t]; [done|]. cbn -[N.eqb].
  destruct (N.eqb_spec 58 x) as [<-|_]; [by destruct Ht|]. done.
Qed.

Lemma match_hm_head a b c d va vb vc vd t :
  digit U a va → digit U b vb → digit U c vc → digit U d vd →
  re_match U pat_hm (a :: b :: 58%N :: c :: d :: t) = Some [[a; b]; [c; d]].
Proof.
  intros Ha Hb Hc Hd.
  unfold re_match, pat_hm, one_or_two_digits, two_digits. norm_lit.
  digits Ha Hb Hc Hd Hd Hd. done.
Qed.

Lemma int_of_digits2 a b va vb :
  digit U a va → digit U b vb → int_of U [a; b] = 10 * va + vb.
Proof.
  intros (_ & Ha & _) (_ & Hb & _). unfold int_of. cbn [fold_left].
  rewrite Ha, Hb. cbn. lia.
Qed.

Lemma int_of_digits1 a va : digit U a va → int_of U [a] = va.
Proof. intros (_ & Ha & _). unfold int_of. cbn [fold_left]. rewrite Ha. cbn. lia. Qed.
End TimePrefix.

Lemma str_of_int_digit h : 0 ≤ h < 10 → str_of_int h = [dg h].
Proof.
  intros Hh.
  assert (h = 0 ∨ h = 1 ∨ h = 2 ∨ h = 3 ∨ h = 4 ∨ h = 5 ∨ h = 6
          ∨ h = 7 ∨ h = 8 ∨ h = 9) as Hc by lia.
  repeat (destruct Hc as [->|Hc]; [done|]). by subst.
Qed.

(** X5. A text that starts with HH:MM:SS, or with H:MM:SS, is repaired to
    that time with the hours on two digits, whatever Basic Latin text
    follows.  The fields are two digits each and are not checked against
    24 or 60: "25:61:61 pm" gives "25:61:61". *)
Theorem time_head_is_kept (U : ucd) (F : Type) (HU : basic_latin U)
    (h m s : Z) (tail : list N) :
  0 ≤ h < 100 → 0 ≤ m < 100 → 0 ≤ s < 100 → ascii_str tail →
  format_time_string_for_storage U (@CStr F (hms h m s ++ tail)) = hms h m s
  ∧ (h < 10 →
     format_time_string_for_storage U
       (@CStr F (str_of_int h ++ lit ":" ++ fmt_d 2 m ++ lit ":" ++ fmt_d 2 s ++ tail))
     = hms h m s).
Proof.
  intros Hh Hm Hs Ht.
  pose proof (digit_dg U HU (h / 10) ltac:(dlia)) as Ha.
  pose proof (digit_dg U HU (h `mod` 10) ltac:(dlia)) as Hb.
  pose proof (digit_dg U HU (m / 10) ltac:(dlia)) as Hc.
  pose proof (digit_dg U HU (m `mod` 10) ltac:(dlia)) as Hd.
  pose proof (digit_dg U HU (s / 10) ltac:(dlia)) as He.
  pose proof (digit_dg U HU (s `mod` 10) ltac:(dlia)) as Hf.
  pose proof (colon_plain U HU) as Hcolon.
  split.
  - unfold hms at 1. rewrite !fmt_d_2 by done. norm_lit. cbn [app].
    unfold format_time_string_for_storage.
    destruct (shape_keeps_head U HU (dg (h / 10))
                [dg (h `mod` 10); 58%N; dg (m / 10); dg (m `mod` 10); 58%N; dg (s / 10)]
                (dg (s `mod` 10)) tail) as [n Hn]; [|done|].
    { repeat (constructor; [by eauto using digit_plain|]). constructor. }
    cbn [app] in Hn. rewrite Hn.
    erewrite match_hms_head by done. cbn [group Nat.sub nth].
    erewrite !int_of_digits2 by done. f_equal; dlia.
  - intros Hh10. rewrite str_of_int_digit by lia. rewrite !fmt_d_2 by done.
    norm_lit. cbn [app]. unfold format_time_string_for_storage.
    pose proof (digit_dg U HU h ltac:(lia)) as Ha'.
    destruct (shape_keeps_head U HU (dg h)
                [58%N; dg (m / 10); dg (m `mod` 10); 58%N; dg (s / 10)]
                (dg (s `mod` 10)) tail) as [n Hn]; [|done|].
    { repeat (constructor; [by eauto using digit_plain|]). constructor. }
    cbn [app] in Hn. rewrite Hn.
    erewrite match_hms_head1 by done. cbn [group Nat.sub nth].
    erewrite int_of_digits1, !int_of_digits2 by done. f_equal; dlia.
Qed.

(** X6. A text that starts with HH:MM and does not go on with a colon is
    repaired to HH:MM:00, whatever Basic Latin text follows: "02:30 PM"
    gives "02:30:00". *)
Theorem time_without_seconds (U : ucd) (F : Type) (HU : basic_latin U)
    (h m : Z) (tail : list N) :
  0 ≤ h < 100 → 0 ≤ m < 100 → ascii_str tail → head tail ≠ Some 58%N →
  format_time_string_for_storage U
    (@CStr F (fmt_d 2 h ++ lit ":" ++ fmt_d 2 m ++ tail))
  = hms h m 0.
Proof.
  intros Hh Hm Ht Hhead.
  pose proof (digit_dg U HU (h / 10) ltac:(dlia)) as Ha.
  pose proof (digit_dg U HU (h `mod` 10) ltac:(dlia)) as Hb.
  pose proof (digit_dg U HU (m / 10) ltac:(dlia)) as Hc.
  pose proof (digit_dg U HU (m `mod` 10) ltac:(dlia)) as Hd.
  pose proof (colon_plain U HU) as Hcolon.
  rewrite !fmt_d_2 by done. norm_lit. cbn [app].
  unfold format_time_string_for_storage.
  destruct (shape_keeps_head U HU (dg (h / 10))
              [dg (h `mod` 10); 58%N; dg (m / 10)]
              (dg (m `mod` 10)) tail) as [n Hn]; [|done|].
  { repeat (constructor; [by eauto using digit_plain|]). constructor. }
  cbn [app] in Hn. rewrite Hn.
  erewrite match_hms_none; [|done..|by apply take_head_not_colon].
  erewrite match_hm_head by done. cbn [group Nat.sub nth].
  erewrite !int_of_digits2 by done.
  unfold hms. rewrite (fmt_d_2 0) by lia.
  replace (10 * (h / 10) + h `mod` 10) with h by dlia.
  replace (10 * (m / 10) + m `mod` 10) with m by dlia.
  by do 3 f_equal.
Qed.

Lemma time_head_is_kept_witness :
  format_time_string_for_storage latin (@CStr unit (hms 25 61 61 ++ lit " pm"))
  = hms 25 61 61.
Proof.
  assert (ascii_str (lit " pm")) as Ht by ascii_lit.
  exact (proj1 (time_head_is_kept latin unit latin_basic_latin 25 61 61 (lit " pm")
                  ltac:(lia) ltac:(lia) ltac:(lia) Ht)).
Defined.

Lemma time_without_seconds_witness :
  format_time_string_for_storage latin
    (@CStr unit (fmt_d 2 2 ++ lit ":" ++ fmt_d 2 30 ++ lit " PM"))
  = hms 2 30 0.
Proof.
  apply (time_without_seconds latin unit latin_basic_latin 2 30 (lit " PM"));
    [lia|lia|ascii_lit|by vm_compute].
Defined.

(** ** Time repair: the text it returns *)

Definition time_char (c : N) : bool := latin_isdigit c || (c =? 58)%N.

Lemma uint_cps_digits u : Forall (λ c, time_char c = true) (uint_cps u).
Proof. induction u; cbn [uint_cps]; by constructor. Qed.

Lemma fmt_d_chars w n : Forall (λ c, time_char c = true) (fmt_d w n).
Proof.
  unfold fmt_d. apply Forall_app. split.
  - by apply Forall_replicate.
  - apply uint_cps_digits.
Qed.

Lemma fmt_d_width w n : (w ≤ length (fmt_d w n))%nat.
Proof. unfold fmt_d. rewrite length_app, length_replicate. lia. Qed.

(** X7. The time repair always returns a text of the shape H..H:MM:SS:
    decimal digits and colons only, at least eight characters, the minutes
    and the seconds on two digits. *)
Theorem format_time_shape (U : ucd) (F : Type) (HU : basic_latin U) (v : cell F) :
  let r := format_time_string_for_storage U v in
  (∃ h m s, r = hms h m s ∧ 0 ≤ h ∧ 0 ≤ m < 100 ∧ 0 ≤ s < 100)
  ∧ (8 ≤ length r)%nat
  ∧ Forall (λ c, time_char c = true) r.
Proof.
  intros r. subst r.
  destruct (time_shape U HU v) as (h & m & s & -> & Hh & Hm & Hs).
  split_and!.
  - by exists h, m, s.
  - unfold hms. rewrite !length_app.
    pose proof (fmt_d_width 2 h). pose proof (fmt_d_width 2 m).
    pose proof (fmt_d_width 2 s). cbn [lit length map String.list_ascii_of_string].
    lia.
  - unfold hms. rewrite !Forall_app. split_and!; try apply fmt_d_chars.
    all: by repeat constructor.
Qed.

Lemma format_time_shape_witness :
  (8 ≤ length (format_time_string_for_storage latin (@CStr unit (lit "100 hour"))))%nat.
Proof.
  apply (format_time_shape latin unit latin_basic_latin (CStr (lit "100 hour"))).
Defined.

(** ** A pattern with a literal needs the characters of the literal *)

(** [needs c r]: every match of [r] holds the character [c]. *)
Fixpoint needs (c : N) (r : re) : bool :=
  match r with
  | RLit l => bool_decide (c ∈ l)
  | RSeq a b => needs c a || needs c b
  | RAlt a b => needs c a && needs c b
  | RGrp a => needs c a
  | _ => false
  end.

Section Needs.
Variable U : ucd.
Variable c0 : N.

Lemma not_elem_of_tail (c : N) (s : list N) : c0 ∉ (c :: s) → c0 ∉ s.
Proof. intros H Hin. apply H. by right. Qed.

Lemma star_avoids {R} k s pre (cont : list N → list N → option R) x :
  star U k s pre cont = Some x → c0 ∉ s →
  ∃ s' pre', (c0 ∉ s') ∧ cont s' pre' = Some x.
Proof.
  revert pre. induction s as [|c s IH]; simpl; intros pre Hx Hs; [by eauto|].
  destruct (cls_match U k c); [|by eauto].
  destruct (star U k s (c :: pre) cont) as [y|] eqn:Hy; [|by eauto].
  simplify_eq. eapply IH; [done|]. by eapply not_elem_of_tail.
Qed.

Lemma run_avoids {R} r :
  ∀ s pre caps (cont : list N → list N → list (list N) → option R) x,
    run U r s pre caps cont = Some x → c0 ∉ s →
    ∃ s' pre' caps', (c0 ∉ s') ∧ cont s' pre' caps' = Some x.
Proof.
  induction r as [|k|l|a IHa b IHb|a IHa b IHb|a IHa|k|a IHa];
    intros s pre caps cont x; simpl; intros Hx Hs.
  - by eauto 10.
  - destruct s as [|c s]; [done|]. destruct (cls_match U k c); [|done].
    exists s, (c :: pre), caps. split; [by eapply not_elem_of_tail|done].
  - destruct (strip_prefix l s) as [s'|] eqn:Hl; [|done].
    apply strip_prefix_Some in Hl as ->.
    exists s', (reverse l ++ pre), caps. split; [|done].
    intros Hin. apply Hs, elem_of_app. by right.
  - apply IHa in Hx as (s1 & p1 & g1 & Hs1 & Hx); [|done]. by apply IHb in Hx.
  - destruct (run U a s pre caps cont) as [y|] eqn:Hy; simplify_eq.
    + by eapply IHa.
    + by eapply IHb.
  - destruct (run U a s pre caps cont) as [y|] eqn:Hy; simplify_eq.
    + by eapply IHa.
    + by eauto 10.
  - apply star_avoids in Hx as (s' & pre' & ? & ?); [|done]. by eauto 10.
  - apply IHa in Hx as (s1 & p1 & g1 & Hs1 & Hx); [|done]. by eauto 10.
Qed.

Lemma run_needs {R} r :
  ∀ s pre caps (cont : list N → list N → list (list N) → option R),
    needs c0 r = true → c0 ∉ s → run U r s pre caps cont = None.
Proof.
  induction r as [|k|l|a IHa b IHb|a IHa b IHb|a IHa|k|a IHa];
    intros s pre caps cont; simpl; intros Hn Hs; try done.
  - destruct (strip_prefix l s) as [s'|] eqn:Hl; [|done].
    apply strip_prefix_Some in Hl as ->. apply bool_decide_eq_true in Hn.
    destruct Hs. apply elem_of_app. by left.
  - apply orb_true_iff in Hn as [Hn|Hn]; [by apply IHa|].
    destruct (run U a s pre caps _) as [x|] eqn:Hx; [|done].
    apply run_avoids in Hx as (s1 & p1 & g1 & Hs1 & Hx); [|done].
    by rewrite IHb in Hx.
  - apply andb_true_iff in Hn as [Ha Hb]. by rewrite IHa, IHb.
  - by apply IHa.
Qed.

Lemma re_match_needs r s : needs c0 r = true → c0 ∉ s → re_match U r s = None.
Proof. intros. by apply run_needs. Qed.

Lemma re_search_needs r s : needs c0 r = true → c0 ∉ s → re_search U r s = None.
Proof.
  intros Hn. induction s as [|c s IH]; intros Hs; cbn [re_search].
  - by rewrite re_match_needs.
  - rewrite re_match_needs by done. apply IH. by eapply not_elem_of_tail.
Qed.
End Needs.

(** ** [int] reads back what [str] wrote *)

Lemma of_uint_acc_fold d p :
  Z.pos (Pos.of_uint_acc d p)
  = fold_left (λ a c, 10 * a + default 0 (latin_decimal c)) (uint_cps d) (Z.pos p).
Proof.
  revert p. induction d; intros p; cbn [uint_cps fold_left Pos.of_uint_acc];
    rewrite ?IHd; try done; f_equal; cbn; lia.
Qed.

Lemma of_uint_fold d :
  Z.of_N (Pos.of_uint d)
  = fold_left (λ a c, 10 * a + default 0 (latin_decimal c)) (uint_cps d) 0.
Proof.
  induction d; cbn [uint_cps fold_left Pos.of_uint]; try done;
    cbn [N.of_uint Z.of_N]; by rewrite of_uint_acc_fold.
Qed.

Lemma int_of_str_of_int n : 0 ≤ n → int_of latin (str_of_int n) = n.
Proof.
  intros Hn. unfold int_of, str_of_int. cbn [decimal latin].
  rewrite <- of_uint_fold. change (Pos.of_uint ?d) with (N.of_uint d).
  rewrite DecimalN.Unsigned.of_to. lia.
Qed.

Lemma str_of_int_digits n :
  Forall (λ c, latin_isdigit c = true) (str_of_int n).
Proof. unfold str_of_int. generalize (N.to_uint (Z.to_N n)). induction u; by constructor. Qed.

Lemma str_of_int_cons n : ∃ a ds, str_of_int n = a :: ds.
Proof.
  unfold str_of_int. pose proof (DecimalN.Unsigned.of_to (Z.to_N n)) as H.
  destruct (N.to_uint (Z.to_N n)) eqn:Hu; cbn [uint_cps]; try by eauto.
  cbn in H. destruct (Z.to_N n); [by cbn in Hu|done].
Qed.

(** ** Time repair: a whole number of minutes or of hours *)

Lemma star_app U {R} k l u pre (cont : list N → list N → option R) x :
  Forall (λ c, cls_match U k c = true) l →
  star U k u (reverse l ++ pre) cont = Some x →
  star U k (l ++ u) pre cont = Some x.
Proof.
  intros Hl. revert pre. induction Hl as [|c l Hc Hl IH]; intros pre Hx; [done|].
  cbn [app star]. rewrite Hc. rewrite (IH (c :: pre)); [done|].
  by rewrite reverse_cons, <- (assoc_L (++)) in Hx.
Qed.

Lemma digit_facts c :
  latin_isdigit c = true →
  is_ascii c = true ∧ cls_match latin CDigit c = true ∧ latin_isspace c = false
  ∧ latin_lower_cp c = [c] ∧ c ≠ 58%N ∧ c ≠ 104%N ∧ c ≠ 109%N.
Proof.
  unfold latin_isdigit, between. intros [Hlo%N.leb_le Hhi%N.leb_le]%andb_true_iff.
  assert (c = 48 ∨ c = 49 ∨ c = 50 ∨ c = 51 ∨ c = 52 ∨ c = 53 ∨ c = 54 ∨ c = 55
          ∨ c = 56 ∨ c = 57)%N as Hc by lia.
  repeat (destruct Hc as [->|Hc]; [by split_and!|]). subst. by split_and!.
Qed.

Section NumberText.
Variables (a : N) (ds : list N).
Hypothesis Ha : latin_isdigit a = true.
Hypothesis Hds : Forall (λ c, latin_isdigit c = true) ds.

Lemma digits_match ds' :
  Forall (λ c, latin_isdigit c = true) ds' →
  Forall (λ c, cls_match latin CDigit c = true) ds'.
Proof.
  intros H. eapply Forall_impl; [exact H|].
  intros c Hc. by destruct (digit_facts c Hc) as (_ & ? & _).
Qed.

Lemma digits_avoid c0 u :
  c0 ∈ [58; 104; 109]%N → c0 ∉ u → c0 ∉ (a :: ds ++ u).
Proof.
  intros Hc0 Hu Hin.
  assert (∀ c, latin_isdigit c = true → c ≠ c0) as Hne.
  { intros c Hc. destruct (digit_facts c Hc) as (_ & _ & _ & _ & ? & ? & ?).
    apply elem_of_cons in Hc0 as [->|Hc0]; [done|].
    apply elem_of_cons in Hc0 as [->|Hc0]; [done|].
    by apply list_elem_of_singleton in Hc0 as ->. }
  apply elem_of_cons in Hin as [->|Hin]; [by apply (Hne a)|].
  apply elem_of_app in Hin as [Hin|Hin]; [|done].
  rewrite Forall_forall in Hds. by apply (Hne c0 (Hds c0 Hin)).
Qed.

(** The leading group takes the whole number when the unit does not
    start with a digit. *)
Lemma run_number {R} u (K : list N → list N → list (list N) → option R) x :
  (∀ c, head u = Some c → cls_match latin CDigit c = false) →
  K u (reverse ds ++ [a]) [a :: ds] = Some x →
  run latin (RGrp (RPlus CDigit)) (a :: ds ++ u) [] [] K = Some x.
Proof.
  intros Hu HK. unfold RPlus. cbn [run app length].
  destruct (digit_facts a Ha) as (_ & -> & _).
  apply star_app; [by apply digits_match|].
  assert (star latin CDigit u (reverse ds ++ [a])
            (λ s' pre', K s' pre' [reverse (take (length pre' - 0) pre')])
          = K u (reverse ds ++ [a])
              [reverse (take (length (reverse ds ++ [a]) - 0)
                          (reverse ds ++ [a]))]) as ->.
  { destruct u as [|c u]; [done|]. cbn [star]. by rewrite (Hu c eq_refl). }
  rewrite Nat.sub_0_r, firstn_all, reverse_app, reverse_involutive. exact HK.
Qed.

Lemma number_shape u z :
  latin_isspace z = false → latin_lower (u ++ [z]) = u ++ [z] →
  ascii_str (u ++ [z]) →
  lower latin (strip latin (a :: ds ++ u ++ [z])) = a :: ds ++ u ++ [z].
Proof.
  intros Hz Hu Hua.
  destruct (digit_facts a Ha) as (_ & _ & Hsa & Hla & _).
  replace (a :: ds ++ u ++ [z]) with (a :: (ds ++ u) ++ z :: [])
    by by rewrite <- (assoc_L (++)).
  destruct (strip_keeps_head latin a (ds ++ u) z []) as [n ->]; [done..|].
  rewrite take_nil. cbn [lower latin].
  replace (a :: (ds ++ u) ++ [z]) with ((a :: ds) ++ (u ++ [z]))
    by (cbn; by rewrite <- (assoc_L (++))).
  unfold latin_lower in *. rewrite flat_map_app, Hu. f_equal.
  cbn [flat_map]. rewrite Hla. cbn [app]. f_equal.
  clear -Hds. induction Hds as [|c l Hc Hl IH]; [done|].
  cbn [flat_map]. destruct (digit_facts c Hc) as (_ & _ & _ & -> & _).
  by rewrite IH.
Qed.
End NumberText.

Definition after_min : re :=
  (RStar CSpace ⋅ RLit (lit "min") ⋅ ROpt (RLit (lit "ute")) ⋅ ROpt (RLit (lit "s")))%re.
Definition after_hour : re :=
  (RStar CSpace ⋅ RLit (lit "hour") ⋅ ROpt (RLit (lit "s")))%re.

Lemma re_search_ext U r r' s :
  (∀ s, re_match U r s = re_match U r' s) → re_search U r s = re_search U r' s.
Proof.
  intros Hm. induction s as [|c s IH]; cbn [re_search]; rewrite Hm; [done|].
  by rewrite IH.
Qed.

Lemma pat_min_number s :
  re_search latin pat_min s = re_search latin (RGrp (RPlus CDigit) ⋅ after_min) s.
Proof. apply re_search_ext. intros s'. reflexivity. Qed.

Lemma pat_hour_number s :
  re_search latin pat_hour s = re_search latin (RGrp (RPlus CDigit) ⋅ after_hour) s.
Proof. apply re_search_ext. intros s'. reflexivity. Qed.

Lemma search_number (tail : re) (a : N) (ds u : list N) :
  latin_isdigit a = true → Forall (λ c, latin_isdigit c = true) ds →
  (∀ c, head u = Some c → cls_match latin CDigit c = false) →
  (∀ pre caps, run latin tail u pre caps (λ _ _ caps, Some caps) = Some caps) →
  re_search latin (RGrp (RPlus CDigit) ⋅ tail) (a :: ds ++ u) = Some [a :: ds].
Proof.
  intros Ha Hds Hu Htail. cbn [re_search].
  assert (re_match latin (RGrp (RPlus CDigit) ⋅ tail) (a :: ds ++ u)
          = Some [a :: ds]) as ->; [|done].
  unfold re_match. rewrite run_seq. apply run_number; [done..|]. apply Htail.
Qed.

Section Duration.
Context {F : Type}.
Variables (a : N) (ds u : list N) (z : N).
Hypothesis Ha : latin_isdigit a = true.
Hypothesis Hds : Forall (λ c, latin_isdigit c = true) ds.
Hypothesis Hz : latin_isspace z = false.
Hypothesis Hlow : latin_lower (u ++ [z]) = u ++ [z].
Hypothesis Hascii : ascii_str (u ++ [z]).
Hypothesis Hcolon : 58%N ∉ u ++ [z].
Hypothesis Hhead : ∀ c, head (u ++ [z]) = Some c → cls_match latin CDigit c = false.

Let t := a :: ds ++ u ++ [z].

Lemma duration_text :
  format_time_string_for_storage latin (@CStr F t)
  = let total_seconds := duration_seconds latin t in
    if 0 <? total_seconds
    then hms (total_seconds / 3600) (total_seconds `mod` 3600 / 60)
             (total_seconds `mod` 60)
    else lit "00:00:00".
Proof.
  unfold format_time_string_for_storage. subst t.
  rewrite number_shape by done.
  assert (58%N ∉ a :: ds ++ u ++ [z]) as Hno.
  { apply digits_avoid; [done..|by left|done]. }
  rewrite (re_match_needs latin 58 pat_hms) by done.
  by rewrite (re_match_needs latin 58 pat_hm) by done.
Qed.

Lemma minutes_text :
  104%N ∉ u ++ [z] →
  (∀ pre caps, run latin after_min (u ++ [z]) pre caps (λ _ _ caps, Some caps)
               = Some caps) →
  duration_seconds latin t = int_of latin (a :: ds) * 60.
Proof.
  intros Hh Htail. unfold duration_seconds. subst t.
  assert (104%N ∉ a :: ds ++ u ++ [z]) as Hno.
  { apply digits_avoid; [done..|right; by left|done]. }
  rewrite (re_search_needs latin 104 pat_hour_min) by done.
  rewrite (re_search_needs latin 104 pat_hour) by done.
  by rewrite pat_min_number, search_number.
Qed.

Lemma hours_text :
  109%N ∉ u ++ [z] →
  (∀ pre caps, run latin after_hour (u ++ [z]) pre caps (λ _ _ caps, Some caps)
               = Some caps) →
  duration_seconds latin t = int_of latin (a :: ds) * 3600.
Proof.
  intros Hm Htail. unfold duration_seconds. subst t.
  assert (109%N ∉ a :: ds ++ u ++ [z]) as Hno.
  { apply digits_avoid; [done..|right; right; by left|done]. }
  rewrite (re_search_needs latin 109 pat_hour_min) by done.
  by rewrite pat_hour_number, search_number.
Qed.
End Duration.

Ltac unit_facts :=
  first [ assumption
        | apply (bool_decide_unpack _); by vm_compute
        | intros ? [= <-]; by vm_compute
        | intros ? ?; reflexivity ].

Lemma minutes_total n :
  0 ≤ n →
  (if 0 <? n * 60
   then hms (n * 60 / 3600) ((n * 60) `mod` 3600 / 60) ((n * 60) `mod` 60)
   else lit "00:00:00") = hms (n / 60) (n `mod` 60) 0.
Proof.
  intros Hn. destruct (Z.ltb_spec 0 (n * 60)).
  - f_equal; dlia.
  - by replace n with 0 by lia.
Qed.

(** X8. A whole number n of minutes, written "n min", "nmin", "n mins",
    "n minute" or "n minutes", is repaired to the hours n div 60 and the
    minutes n mod 60 with the seconds at 00; a whole number of hours,
    written "n hour", "nhour" or "n hours", to n:00:00.  This holds for
    every n from 0 on: the hours are not bounded. *)
Theorem whole_durations (U : ucd) (F : Type) (HU : basic_latin U)
    (n : Z) (word : list N) :
  0 ≤ n →
  (word ∈ [lit " min"; lit "min"; lit " mins"; lit " minute"; lit " minutes"] →
   format_time_string_for_storage U (@CStr F (str_of_int n ++ word))
   = hms (n / 60) (n `mod` 60) 0)
  ∧ (word ∈ [lit " hour"; lit "hour"; lit " hours"] →
     format_time_string_for_storage U (@CStr F (str_of_int n ++ word))
     = hms n 0 0).
Proof.
  intros Hn.
  pose proof (int_of_str_of_int n Hn) as Hint.
  pose proof (str_of_int_digits n) as Hdig.
  destruct (str_of_int_cons n) as (a & ds & Heq). rewrite Heq in *.
  apply Forall_cons in Hdig as [Ha Hds].
  assert (ascii_str (a :: ds)) as Hads.
  { constructor; [by destruct (digit_facts a Ha)|].
    eapply Forall_impl; [exact Hds|]. intros c Hc. by destruct (digit_facts c Hc). }
  assert (∀ u z,
            ascii_str (u ++ [z]) →
            format_time_string_for_storage U (@CStr F ((a :: ds) ++ u ++ [z]))
            = format_time_string_for_storage latin (@CStr F (a :: ds ++ u ++ [z])))
    as Hlatin.
  { intros u z Hu. apply (format_time_agree U HU).
    change (ascii_str ((a :: ds) ++ u ++ [z])). by apply ascii_str_app. }
  split; intros Hword.
  - assert (∃ u z, word = u ++ [z] ∧ latin_isspace z = false
              ∧ latin_lower (u ++ [z]) = u ++ [z] ∧ ascii_str (u ++ [z])
              ∧ (58%N ∉ u ++ [z]) ∧ (104%N ∉ u ++ [z])
              ∧ (∀ c, head (u ++ [z]) = Some c → cls_match latin CDigit c = false)
              ∧ (∀ pre caps, run latin after_min (u ++ [z]) pre caps
                               (λ _ _ caps, Some caps) = Some caps))
      as (u & z & -> & Hz & Hlow & Hascii & Hcolon & Hh & Hhead & Htail).
    { repeat (apply elem_of_cons in Hword as [->|Hword];
              [match goal with
               | |- ∃ u z, ?w = _ ∧ _ => exists (removelast w), (List.last w 0%N)
               end;
               split_and!; [by vm_compute|unit_facts..]|]).
      by apply elem_of_nil in Hword. }
    rewrite Hlatin, duration_text, minutes_text by done. cbv zeta.
    rewrite Hint. by apply minutes_total.
  - assert (∃ u z, word = u ++ [z] ∧ latin_isspace z = false
              ∧ latin_lower (u ++ [z]) = u ++ [z] ∧ ascii_str (u ++ [z])
              ∧ (58%N ∉ u ++ [z]) ∧ (109%N ∉ u ++ [z])
              ∧ (∀ c, head (u ++ [z]) = Some c → cls_match latin CDigit c = false)
              ∧ (∀ pre caps, run latin after_hour (u ++ [z]) pre caps
                               (λ _ _ caps, Some caps) = Some caps))
      as (u & z & -> & Hz & Hlow & Hascii & Hcolon & Hh & Hhead & Htail).
    { repeat (apply elem_of_cons in Hword as [->|Hword];
              [match goal with
               | |- ∃ u z, ?w = _ ∧ _ => exists (removelast w), (List.last w 0%N)
               end;
               split_and!; [by vm_compute|unit_facts..]|]).
      by apply elem_of_nil in Hword. }
    rewrite Hlatin, duration_text, hours_text by done. cbv zeta.
    rewrite Hint. by apply hms_of_hours.
Qed.

Lemma whole_durations_witness :
  format_time_string_for_storage latin (@CStr unit (str_of_int 135 ++ lit " minutes"))
  = hms 2 15 0.
Proof.
  apply (proj1 (whole_durations latin unit latin_basic_latin 135 (lit " minutes")
                  ltac:(lia))).
  apply (bool_decide_unpack _). by vm_compute.
Defined.

(** X9. A text whose stripped and lowercased form holds no colon, no h and
    no m matches none of the five patterns, its duration is 0 and it is
    repaired to "00:00:00". *)
Theorem no_marker_no_time (U : ucd) (F : Type) (t : list N) :
  let t' := lower U (strip U t) in
  58%N ∉ t' → 104%N ∉ t' → 109%N ∉ t' →
  re_match U pat_hms t' = None ∧ re_match U pat_hm t' = None
  ∧ duration_seconds U t' = 0
  ∧ format_time_string_for_storage U (@CStr F t) = lit "00:00:00".
Proof.
  intros t' Hc Hh Hm.
  assert (re_match U pat_hms t' = None) as H1 by by apply (re_match_needs U 58).
  assert (re_match U pat_hm t' = None) as H2 by by apply (re_match_needs U 58).
  assert (duration_seconds U t' = 0) as H3.
  { unfold duration_seconds.
    rewrite (re_search_needs U 104 pat_hour_min), (re_search_needs U 109 pat_min),
      (re_search_needs U 104 pat_hour) by done. done. }
  split_and!; [done..|]. unfold format_time_string_for_storage. fold t'.
  by rewrite H1, H2, H3.
Qed.

Lemma no_marker_no_time_witness :
  format_time_string_for_storage latin (@CStr unit (lit "Soon, 5 pax")) = lit "00:00:00".
Proof.
  apply (no_marker_no_time latin unit (lit "Soon, 5 pax"));
    apply (bool_decide_unpack _); by vm_compute.
Defined.

(** ** Date repair: what it renders, it reads back *)

Tactic Notation "enum_nat" ident(k) integer(n) tactic3(tac) :=
  do n (destruct k as [|k]; [tac|]).

Lemma fmt_d_4 n :
  1000 ≤ n < 10000 →
  fmt_d 4 n = [dg (n / 1000); dg ((n / 100) `mod` 10); dg ((n / 10) `mod` 10);
               dg (n `mod` 10)].
Proof.
  intros Hn.
  pose (chk := λ a b : nat,
          let n := (Z.of_nat a + 10) * 100 + Z.of_nat b in
          bool_decide (fmt_d 4 n = [dg (n / 1000); dg ((n / 100) `mod` 10);
                                    dg ((n / 10) `mod` 10); dg (n `mod` 10)])).
  assert (forallb (λ a, forallb (chk a) (seq 0 100)) (seq 0 90) = true) as H
    by by vm_compute.
  rewrite forallb_forall in H.
  specialize (H (Z.to_nat (n / 100 - 10))). rewrite forallb_forall in H.
  specialize (H ltac:(apply in_seq; dlia) (Z.to_nat (n `mod` 100))
                ltac:(apply in_seq; dlia)).
  unfold chk in H. cbv zeta in H. apply bool_decide_eq_true in H.
  replace ((Z.of_nat (Z.to_nat (n / 100 - 10)) + 10) * 100
           + Z.of_nat (Z.to_nat (n `mod` 100))) with n in H by dlia.
  exact H.
Qed.

Lemma dmy_rejects_digits v1 v2 v3 s :
  0 ≤ v1 ≤ 9 → 0 ≤ v2 ≤ 9 → 0 ≤ v3 ≤ 9 →
  strptime latin fmt_dmy (dg v1 :: dg v2 :: dg v3 :: s) = None.
Proof.
  intros H1 H2 H3.
  replace v1 with (Z.of_nat (Z.to_nat v1)) by lia.
  replace v2 with (Z.of_nat (Z.to_nat v2)) by lia.
  replace v3 with (Z.of_nat (Z.to_nat v3)) by lia.
  assert (Z.to_nat v1 ≤ 9)%nat as K1 by lia.
  assert (Z.to_nat v2 ≤ 9)%nat as K2 by lia.
  assert (Z.to_nat v3 ≤ 9)%nat as K3 by lia.
  generalize dependent (Z.to_nat v1). intros k1 K1.
  generalize dependent (Z.to_nat v2). intros k2 K2.
  generalize dependent (Z.to_nat v3). intros k3 K3.
  clear H1 H2 H3.
  enum_nat k1 10 (enum_nat k2 10 (enum_nat k3 10 (vm_compute; reflexivity); lia); lia);
    lia.
Qed.

Lemma lstrip_id U s : Forall (λ c, isspace U c = false) s → lstrip U s = s.
Proof. destruct 1 as [|c s Hc _]; [done|]. simpl. by rewrite Hc. Qed.

Lemma strip_id U s : Forall (λ c, isspace U c = false) s → strip U s = s.
Proof.
  intros Hs. unfold strip. rewrite (lstrip_id U s Hs), lstrip_id.
  - apply reverse_involutive.
  - by apply Forall_reverse.
Qed.

Lemma int_of_fmt_d_2 n : 0 ≤ n < 100 → int_of latin (strip latin (fmt_d 2 n)) = n.
Proof.
  intros Hn. rewrite fmt_d_2 by done.
  pose proof (digit_dg latin latin_basic_latin (n / 10) ltac:(dlia)) as Ha.
  pose proof (digit_dg latin latin_basic_latin (n `mod` 10) ltac:(dlia)) as Hb.
  rewrite strip_id.
  - unfold int_of. cbn [fold_left].
    destruct Ha as (_ & -> & _), Hb as (_ & -> & _). cbn. dlia.
  - destruct Ha as (_ & _ & Ha & _), Hb as (_ & _ & Hb & _). by repeat constructor.
Qed.

Lemma int_of_fmt_d_4 n : 1000 ≤ n < 10000 → int_of latin (strip latin (fmt_d 4 n)) = n.
Proof.
  intros Hn. rewrite fmt_d_4 by done.
  pose proof (digit_dg latin latin_basic_latin (n / 1000) ltac:(dlia)) as Ha.
  pose proof (digit_dg latin latin_basic_latin ((n / 100) `mod` 10) ltac:(dlia)) as Hb.
  pose proof (digit_dg latin latin_basic_latin ((n / 10) `mod` 10) ltac:(dlia)) as Hc.
  pose proof (digit_dg latin latin_basic_latin (n `mod` 10) ltac:(dlia)) as Hd.
  rewrite strip_id.
  - unfold int_of. cbn [fold_left].
    destruct Ha as (_ & -> & _), Hb as (_ & -> & _), Hc as (_ & -> & _),
      Hd as (_ & -> & _). cbn. dlia.
  - destruct Ha as (_ & _ & Ha & _), Hb as (_ & _ & Hb & _),
      Hc as (_ & _ & Hc & _), Hd as (_ & _ & Hd & _). by repeat constructor.
Qed.

Lemma run_year {R} a b c d va vb vc vd s rest
    (k : list N → list N → list (list N) → option R) :
  digit latin a va → digit latin b vb → digit latin c vc → digit latin d vd →
  run latin (RGrp pat_year ⋅ rest) (a :: b :: c :: d :: s) [] [] k
  = run latin rest s [d; c; b; a] [[a; b; c; d]] k.
Proof.
  intros Ha Hb Hc Hd. rewrite run_seq. unfold pat_year.
  cbn -[cls_match].
  by rewrite (cls_digit _ _ _ Ha), (cls_digit _ _ _ Hb), (cls_digit _ _ _ Hc),
    (cls_digit _ _ _ Hd).
Qed.

Lemma month_day_groups (a b c d : N) (m dd : Z) :
  1 ≤ m ≤ 12 → 1 ≤ dd ≤ 31 →
  run latin (format_re [Pchr 45; Pm; Pchr 45; Pd])
    (45%N :: fmt_d 2 m ++ 45%N :: fmt_d 2 dd) [d; c; b; a] [[a; b; c; d]]
    (λ s' _ g, Some (s', g))
  = Some ([], [[a; b; c; d]; fmt_d 2 m; fmt_d 2 dd]).
Proof.
  intros Hm Hd.
  replace m with (Z.of_nat (Z.to_nat m)) by lia.
  replace dd with (Z.of_nat (Z.to_nat dd)) by lia.
  assert (1 ≤ Z.to_nat m ≤ 12)%nat as Km by lia.
  assert (1 ≤ Z.to_nat dd ≤ 31)%nat as Kd by lia.
  generalize dependent (Z.to_nat m). intros km Km.
  generalize dependent (Z.to_nat dd). intros kd Kd.
  clear Hm Hd.
  enum_nat km 13 (first [lia | enum_nat kd 32 (first [lia | vm_compute; reflexivity]); lia]).
  lia.
Qed.

Lemma ymd_accepts (y m dd : Z) :
  1000 ≤ y < 10000 → 1 ≤ m ≤ 12 → 1 ≤ dd ≤ 31 →
  strptime latin fmt_ymd (strftime (Date y m dd)) = Some (Date y m dd).
Proof.
  intros Hy Hm Hd. unfold strptime, strftime. cbn [year month day].
  pose proof (digit_dg latin latin_basic_latin (y / 1000) ltac:(dlia)) as Ha.
  pose proof (digit_dg latin latin_basic_latin ((y / 100) `mod` 10) ltac:(dlia)) as Hb.
  pose proof (digit_dg latin latin_basic_latin ((y / 10) `mod` 10) ltac:(dlia)) as Hc.
  pose proof (digit_dg latin latin_basic_latin (y `mod` 10) ltac:(dlia)) as H4.
  pose proof (int_of_fmt_d_4 y Hy) as Hyear. rewrite fmt_d_4 in Hyear |- * by done.
  norm_lit. cbn [app].
  change (format_re fmt_ymd)
    with (RGrp pat_year ⋅ format_re [Pchr 45; Pm; Pchr 45; Pd])%re.
  erewrite run_year by done.
  rewrite month_day_groups by done.
  cbn [fields fmt_ymd]. rewrite Hyear, !int_of_fmt_d_2 by lia. done.
Qed.

Lemma strftime_ascii (y m dd : Z) :
  1000 ≤ y < 10000 → 0 ≤ m < 100 → 0 ≤ dd < 100 →
  ascii_str (strftime (Date y m dd)).
Proof.
  intros Hy Hm Hd. unfold strftime. cbn [year month day].
  rewrite fmt_d_4, !fmt_d_2 by done. norm_lit. cbn [app].
  repeat (constructor; [first [done | by apply (digit_dg latin latin_basic_latin); dlia]|]).
  constructor.
Qed.

(** X10. The date repair reads back what it writes.  For a calendar day of
    a four-digit year inside the range of the timestamp type, the text
    YYYY-MM-DD it renders is not matched by the day/month/year format, is
    parsed by the year-month-day format, and is repaired to itself. *)
Theorem date_round_trip (U : ucd) (P : pandas) (HU : basic_latin U) (d : date) :
  valid_date d = true → in_range P d = true → 1000 ≤ year d ≤ 9999 →
  parse_date_robust_and_format U P (CStr (strftime d)) = strftime d.
Proof.
  destruct d as [y m dd]. intros Hv Hr Hy. cbn [year] in Hy.
  assert (1 ≤ m ≤ 12 ∧ 1 ≤ dd ≤ 31) as [Hm Hd].
  { unfold valid_date in Hv. cbn [year month day] in Hv.
    repeat (apply andb_true_iff in Hv as [Hv ?]).
    assert (days_in_month y m ≤ 31).
    { unfold days_in_month. repeat case_match; lia. }
    lia. }
  assert (ascii_str (strftime (Date y m dd))) as Ha by (apply strftime_ascii; lia).
  unfold parse_date_robust_and_format, try_formats.
  rewrite !(to_datetime_agree U HU) by done. unfold to_datetime.
  assert (strptime latin fmt_dmy (strftime (Date y m dd)) = None) as ->.
  { unfold strftime. cbn [year month day]. rewrite fmt_d_4 by lia. cbn [app].
    apply dmy_rejects_digits; dlia. }
  rewrite ymd_accepts by lia. by rewrite Hv, Hr.
Qed.

Lemma date_round_trip_witness :
  parse_date_robust_and_format latin pandas0 (CStr (strftime (Date 2024 2 29)))
  = strftime (Date 2024 2 29).
Proof.
  apply (date_round_trip latin pandas0 latin_basic_latin (Date 2024 2 29));
    [by vm_compute|by vm_compute|cbn; lia].
Defined.

(** ** The store after an import *)

Lemma traverse_length {A B} (f : A → result B) l l' :
  traverse f l = Ok l' → length l' = length l.
Proof.
  revert l'. induction l as [|x l IH]; intros l'; cbn; [by intros [= <-]|].
  destruct (f x) as [y|]; cbn; [|done].
  destruct (traverse f l) as [ys|]; cbn; [|done].
  intros [= <-]. cbn. f_equal. by apply IH.
Qed.

Lemma values_tolist_width {F} (fr : frame F) names rows :
  values_tolist fr names = Ok rows →
  Forall (λ row, length row = length names) rows.
Proof.
  unfold values_tolist.
  destruct (traverse _ names) as [cs|] eqn:Hcs; cbn; [|done].
  intros [= <-]. apply traverse_length in Hcs.
  apply Forall_map, Forall_forall. intros i _. cbn. by rewrite length_map.
Qed.

Lemma transform_width U P df column_mapping rows :
  transform U P df column_mapping = Ok rows →
  Forall (λ row, length row = length column_mapping) rows.
Proof.
  unfold transform. intros Ht.
  repeat match type of Ht with
         | mbind _ ?x = _ => destruct x; cbn [mbind result_bind] in Ht; [|done]
         end.
  apply values_tolist_width in Ht. by rewrite length_fmap in Ht.
Qed.

(** X11. A successful import appends rows to the named table and does
    nothing else: the table was there, its earlier rows are kept in place,
    the new rows come after them, each new row binds exactly the mapped
    columns in the order of the mapping, and every other table is left as
    it was. *)
Theorem import_appends (U : ucd) (P : pandas) (E : engine (float P))
    (df : frame (float P)) (table_name : list N)
    (column_mapping : list (list N * list N))
    (db : gmap (list N) (table (float P))) :
  let r := insert_data_from_df U P E df table_name column_mapping db in
  r.1 = true →
  ∃ t rows,
    db !! table_name = Some t
    ∧ r.2 = <[table_name := Table (tcols t) (trows t ++ rows)]> db
    ∧ stored r.2 table_name = stored db table_name ++ rows
    ∧ (∀ other, other ≠ table_name → r.2 !! other = db !! other)
    ∧ Forall (λ row, row.*1 = column_mapping.*2) rows.
Proof.
  intros r. subst r. unfold insert_data_from_df, try_block.
  destruct (connects E); [|done].
  destruct (transform U P df column_mapping) as [data|e] eqn:Ht; [|done].
  unfold executemany. cbn [committed].
  destruct (prepares db table_name column_mapping.*2) eqn:Hp; [|done].
  destruct (insert_rows E table_name column_mapping.*2 data (Connection db []))
    as [[[]|e] c] eqn:Hi; [|done].
  apply insert_rows_Ok in Hi as [-> _]. cbn. intros _.
  unfold prepares in Hp. destruct (db !! table_name) as [t|] eqn:Hdb; [|done].
  assert (foldl add_row db
            (map (λ r, (table_name, zip column_mapping.*2 r)) data)
          = <[table_name := Table (tcols t)
                (trows t ++ map (zip column_mapping.*2) data)]> db) as Heq.
  { rewrite <- (add_rows_lookup db table_name t) by done. by rewrite map_map. }
  exists t, (map (zip column_mapping.*2) data).
  cbn [commit close committed pending app fst snd]. rewrite Heq.
  split_and!; [done|done| | |].
  - unfold stored. by rewrite lookup_insert_eq, Hdb.
  - intros other Hne. by rewrite lookup_insert_ne.
  - apply Forall_map. eapply Forall_impl; [by apply transform_width in Ht|].
    intros row Hrow. cbn beta in *. apply fst_zip. rewrite length_fmap. lia.
Qed.

Lemma import_appends_witness :
  let r := insert_bills_data latin pandas0 sqlite_ok date_only bills_db in
  ∃ rows, stored r.2 (lit "bills") = stored bills_db (lit "bills") ++ rows.
Proof.
  intros r.
  destruct (import_appends latin pandas0 sqlite_ok date_only (lit "bills")
              BILLS_COLUMN_MAPPING bills_db) as (t & rows & _ & _ & H & _).
  - by vm_compute.
  - by exists rows.
Defined.

(** ** An upload is read through its headers only *)

Lemma foldM_ext {A B} (f g : B → A → result B) l b :
  (∀ b x, x ∈ l → f b x = g b x) → foldM f l b = foldM g l b.
Proof.
  revert b. induction l as [|x l IH]; intros b Hfg; cbn; [done|].
  rewrite (Hfg b x) by by left. destruct (g b x) as [b'|]; cbn; [|done].
  apply IH. intros b'' y Hy. apply Hfg. by right.
Qed.

Lemma transform_ext U P (df df' : frame (float P)) column_mapping :
  (∀ e, e ∈ column_mapping → found U P df e.1 = found U P df' e.1) →
  transform U P df column_mapping = transform U P df' column_mapping.
Proof.
  intros Hf. unfold transform.
  rewrite (foldM_ext (map_column U P df) (map_column U P df')); [done|].
  intros fr [key c] He. rewrite !map_column_found.
  specialize (Hf _ He). cbn [fst] in Hf. by rewrite Hf.
Qed.

Lemma insert_ext U P E (df df' : frame (float P)) table_name column_mapping db :
  (∀ e, e ∈ column_mapping → found U P df e.1 = found U P df' e.1) →
  insert_data_from_df U P E df table_name column_mapping db
  = insert_data_from_df U P E df' table_name column_mapping db.
Proof.
  intros Hf. unfold insert_data_from_df, try_block.
  by rewrite (transform_ext U P df df' column_mapping Hf).
Qed.

Lemma NoDup_fmap_inj {A B} (f : A → B) (l : list A) x y :
  NoDup (f <$> l) → x ∈ l → y ∈ l → f x = f y → x = y.
Proof.
  induction l as [|z l IH]; intros Hnd Hx Hy Hxy; [by apply elem_of_nil in Hx|].
  cbn in Hnd. apply NoDup_cons in Hnd as [Hz Hnd].
  apply elem_of_cons in Hx as [->|Hx]; apply elem_of_cons in Hy as [->|Hy].
  - done.
  - destruct Hz. rewrite Hxy. by apply list_elem_of_fmap_2.
  - destruct Hz. rewrite <- Hxy. by apply list_elem_of_fmap_2.
  - by apply IH.
Qed.

Lemma index_headers_unique U hs k col :
  NoDup (normalize_column_name U <$> hs) →
  col ∈ hs → normalize_column_name U col = k →
  index_headers U ∅ hs !! k = Some col.
Proof.
  intros Hnd Hin <-. apply index_headers_only; [done|].
  intros h' Hh' Heq. by apply (NoDup_fmap_inj _ hs h' col Hnd).
Qed.

Lemma assoc_unique {A} (l : list (list N * A)) k x :
  NoDup l.*1 → (k, x) ∈ l → assoc k l = Some x.
Proof.
  induction l as [|[k' y] l IH]; intros Hnd Hin; [by apply elem_of_nil in Hin|].
  cbn in Hnd. apply NoDup_cons in Hnd as [Hk Hnd]. cbn.
  apply elem_of_cons in Hin as [[= -> ->]|Hin].
  - by rewrite bool_decide_eq_true_2.
  - rewrite bool_decide_eq_false_2; [by apply IH|].
    intros ->. apply Hk. apply list_elem_of_fmap. by exists (k, x).
Qed.

(** X12. The import sees an upload through its headers only.  Permuting
    the columns of an upload, or adding columns whose key is the key of no
    mapping entry, gives the same verdict and the same store, provided the
    keys of the headers are pairwise distinct. *)
Theorem import_ignores_order_and_unmapped (U : ucd) (P : pandas)
    (E : engine (float P)) (df df' : frame (float P))
    (extra : list (list N * list (cell (float P))))
    (table_name : list N) (column_mapping : list (list N * list N))
    (db : gmap (list N) (table (float P))) :
  cols df' ≡ₚ cols df ++ extra →
  NoDup (normalize_column_name U <$> columns df') →
  (∀ h e, h ∈ extra.*1 → e ∈ column_mapping →
          normalize_column_name U h ≠ normalize_column_name U e.1) →
  insert_data_from_df U P E df' table_name column_mapping db
  = insert_data_from_df U P E df table_name column_mapping db.
Proof.
  intros Hperm Hnd Hextra. symmetry. apply insert_ext. intros e He.
  assert (columns df' ≡ₚ columns df ++ extra.*1) as Hcols.
  { unfold columns. by rewrite Hperm, fmap_app. }
  assert (NoDup (columns df')) as Hnd' by by apply NoDup_fmap_1 in Hnd.
  assert (NoDup (normalize_column_name U <$> columns df)) as Hnd0.
  { rewrite Hcols, fmap_app in Hnd. by apply NoDup_app in Hnd as (? & _). }
  assert (∀ col v, (col, v) ∈ cols df → column df col = Some v
                                       ∧ column df' col = Some v) as Hcol.
  { intros col v Hin. unfold column. split.
    - apply assoc_unique; [|done]. apply NoDup_fmap_1 in Hnd0.
      exact Hnd0.
    - apply assoc_unique; [done|]. rewrite Hperm. apply elem_of_app. by left. }
  unfold found, normalized_df_columns_map.
  destruct (index_headers U ∅ (columns df) !! _) as [col|] eqn:Hl.
  - apply index_headers_lookup in Hl as [[Hin Hk]|?%lookup_empty_Some]; [|done].
    rewrite (index_headers_unique U (columns df') _ col); [|done| |done].
    2:{ rewrite Hcols. apply elem_of_app. by left. }
    apply list_elem_of_fmap in Hin as ([col' v] & -> & Hin). cbn.
    destruct (Hcol _ _ Hin) as [-> ->]. done.
  - apply index_headers_None in Hl as [_ Hl].
    assert (index_headers U ∅ (columns df') !! normalize_column_name U e.1 = None)
      as ->; [|done].
    apply index_headers_None. split; [done|].
    intros h Hh. rewrite Hcols in Hh. apply elem_of_app in Hh as [Hh|Hh].
    + by apply Hl.
    + by apply Hextra.
Qed.

(** X13. An upload none of whose headers has the key of the first mapping
    entry is refused, whatever else it holds: the default of that entry is
    assigned to a frame that has no index yet, the ValueError is caught,
    the import returns False and the store is unchanged. *)
Theorem first_header_required (U : ucd) (P : pandas) (E : engine (float P))
    (df : frame (float P)) (table_name : list N) (e0 : list N * list N)
    (rest : list (list N * list N)) (db : gmap (list N) (table (float P))) :
  (∀ h, h ∈ columns df →
        normalize_column_name U h ≠ normalize_column_name U e0.1) →
  transform U P df (e0 :: rest) = Raise ValueError
  ∧ insert_data_from_df U P E df table_name (e0 :: rest) db = (false, db).
Proof.
  intros Hmiss.
  assert (transform U P df (e0 :: rest) = Raise ValueError) as Ht.
  { unfold transform. cbn [foldM]. destruct e0 as [key c].
    rewrite map_column_found, found_None by done. done. }
  split; [done|]. unfold insert_data_from_df, try_block. rewrite Ht.
  by destruct (connects E).
Qed.

Lemma first_header_required_witness :
  insert_data_from_df latin pandas0 sqlite_ok
    (Frame 1 [(lit "Payment Time", [CStr (lit "14:05")])])
    (lit "bills") BILLS_COLUMN_MAPPING bills_db
  = (false, bills_db).
Proof.
  apply (first_header_required latin pandas0 sqlite_ok _ (lit "bills")
           (lit "Payment Date", lit "payment_date") (tail BILLS_COLUMN_MAPPING)).
  intros h Hh. apply list_elem_of_singleton in Hh as ->. by vm_compute.
Defined.

Lemma import_ignores_order_and_unmapped_witness :
  insert_bills_data latin pandas0 sqlite_ok
    (Frame 1 [(lit "Note", [CStr (lit "x")]);
              (lit "Payment Date", [CStr (lit "31/01/2024")])]) bills_db
  = insert_bills_data latin pandas0 sqlite_ok date_only bills_db.
Proof.
  apply (import_ignores_order_and_unmapped latin pandas0 sqlite_ok date_only _
           [(lit "Note", [CStr (lit "x")])]).
  - apply Permutation_swap.
  - apply (bool_decide_unpack _). by vm_compute.
  - intros h e Hh He. apply list_elem_of_singleton in Hh as ->.
    revert e He. apply Forall_forall. apply (bool_decide_unpack _). by vm_compute.
Defined.

(** ** What the import stores, cell by cell *)

Section Cells.
Variable U : ucd.
Variable P : pandas.

Local Abbreviation cell := (cell (float P)).

(** The value stored in column [db_col] for the cell [c] of the column
    [v] of the upload. *)
Definition stored_cell (db_col : list N) (v : list cell) (c : cell) : cell :=
  match get_sql_type db_col with
  | REAL => coerce_real P (to_numeric_in P v c)
  | INTEGER =>
      let x := to_numeric_in P v c in
      keep_dtype P v match coerce_integer P x with Ok y => y | Raise _ => x end
  | TEXT =>
      if bool_decide (db_col = lit "payment_date")
      then CStr (parse_date_robust_and_format U P (CStr (py_str P c)))
      else if bool_decide (db_col = lit "payment_time")
      then CStr (format_time_string_for_storage U (@CStr (float P) (py_str P c)))
      else CStr (py_str P c)
  end.

(** The type of a value, as the store sees it, in a column of type [ty]
    filled from the column [v] of the upload. *)
Definition has_type (ty : sql_type) (v : list cell) (c : cell) : Prop :=
  match ty with
  | TEXT => ∃ s, c = CStr s
  | REAL => (∃ z, c = CInt z) ∨ (∃ x, c = CFloat x)
  | INTEGER =>
      if is_float64 P v then ∃ z, c = CFloat (float_of_int P z)
      else ∃ z, c = CInt z
  end.

Lemma traverse_map {A B} (f : A → result B) (g : A → B) l l' :
  traverse f l = Ok l' → (∀ x y, f x = Ok y → y = g x) → l' = map g l.
Proof.
  revert l'. induction l as [|x l IH]; intros l' Hl Hg; cbn in *; [by simplify_eq|].
  destruct (f x) as [y|] eqn:Hy; cbn in Hl; [|done].
  destruct (traverse f l) as [ys|]; cbn in Hl; [|done].
  simplify_eq. f_equal; [by apply Hg|by apply IH].
Qed.

Lemma coerce_real_number (c : cell) :
  (∃ z, coerce_real P c = CInt z) ∨ (∃ x, coerce_real P c = CFloat x).
Proof.
  unfold coerce_real, to_numeric.
  destruct c as [|s|z|x]; cbn; eauto.
  destruct (numeric_of_str P s) as [[z|x]|]; cbn; eauto.
Qed.

Lemma coerce_integer_int (c c' : cell) :
  coerce_integer P c = Ok c' → ∃ z, c' = CInt z.
Proof.
  unfold coerce_integer, to_numeric. intros Hc.
  destruct c as [|s|z|x]; cbn in Hc.
  - simplify_eq. eauto.
  - destruct (numeric_of_str P s) as [[z|x]|]; cbn in Hc;
      [simplify_eq; eauto| |simplify_eq; eauto].
    destruct (int_of_float P x); simplify_eq. eauto.
  - simplify_eq. eauto.
  - destruct (int_of_float P x); simplify_eq. eauto.
Qed.

Lemma stored_cell_typed db_col v c :
  (get_sql_type db_col = INTEGER →
     ∃ c', coerce_integer P (to_numeric_in P v c) = Ok c') →
  has_type (get_sql_type db_col) v (stored_cell db_col v c).
Proof.
  intros Hint. unfold stored_cell, has_type. destruct (get_sql_type db_col).
  - apply coerce_real_number.
  - destruct (Hint eq_refl) as [c' Hc']. cbn zeta. rewrite Hc'.
    apply coerce_integer_int in Hc' as [z ->].
    unfold keep_dtype. destruct (is_float64 P v); cbn; eauto.
  - repeat case_bool_decide; eauto.
Qed.
End Cells.

Section Rows.
Variable U : ucd.
Variable P : pandas.

Local Abbreviation cell := (cell (float P)).

Lemma final_cells_source df e :
  (∃ v', clean_cells P e.2 (source U P df e) = Ok v') →
  final_cells U P df e
  = map (stored_cell U P e.2 (source U P df e)) (source U P df e).
Proof.
  destruct e as [key db_col]. intros [v' Hv'].
  unfold final_cells, on_column, cleaned.
  cbn [fst snd] in *. rewrite Hv'. unfold clean_cells in Hv'.
  set (v := source U P df (key, db_col)) in *. clearbody v.
  assert (v' = map (λ c, match get_sql_type db_col with
                         | REAL => coerce_real P (to_numeric_in P v c)
                         | INTEGER =>
                             let x := to_numeric_in P v c in
                             keep_dtype P v
                               match coerce_integer P x with
                               | Ok y => y | Raise _ => x end
                         | TEXT => coerce_text P c
                         end) v) as ->.
  { destruct (get_sql_type db_col).
    - simplify_eq. unfold to_numeric_series. by rewrite map_map.
    - destruct (traverse _ _) as [w|] eqn:Hw; cbn in Hv'; [|done]. simplify_eq.
      rewrite (traverse_map _ (λ x, match coerce_integer P x with
                                    | Ok y => y | Raise _ => x end) _ _ Hw)
        by by intros x y ->.
      unfold to_numeric_series. by rewrite !map_map.
    - by simplify_eq. }
  unfold stored_cell.
  destruct (get_sql_type db_col) eqn:Hty.
  - rewrite !bool_decide_eq_false_2; [done|intros ->; by vm_compute in Hty..].
  - rewrite !bool_decide_eq_false_2; [done|intros ->; by vm_compute in Hty..].
  - destruct (decide (db_col = lit "payment_date")) as [->|Hd].
    + rewrite (bool_decide_eq_false_2 (lit "payment_date" = lit "payment_time"))
        by ascii_lit.
      rewrite !(bool_decide_eq_true_2 (lit "payment_date" = lit "payment_date"))
        by done.
      by rewrite map_map.
    + rewrite !(bool_decide_eq_false_2 (db_col = lit "payment_date")) by done.
      case_bool_decide; [by rewrite map_map|done].
Qed.

Lemma traverse_Ok_inv {A B} (f : A → result B) l l' :
  traverse f l = Ok l' → Forall (λ x, ∃ y, f x = Ok y) l.
Proof.
  revert l'. induction l as [|x l IH]; intros l' Hl; cbn in *; [constructor|].
  destruct (f x) as [y|] eqn:Hy; cbn in Hl; [|done].
  destruct (traverse f l) as [ys|]; cbn in Hl; [|done].
  constructor; [by exists y|by eapply IH].
Qed.

(** The hypotheses on integer columns make every column clean. *)
Lemma casts_clean df (column_mapping : list (list N * list N)) :
  Forall (λ e, get_sql_type e.2 = INTEGER → ∀ v, found U P df e.1 = Some v →
               Forall (λ c, ∃ c', coerce_integer P c = Ok c') v) column_mapping →
  Forall (λ e, ∃ v', clean_cells P e.2 (source U P df e) = Ok v') column_mapping.
Proof.
  intros Hint. eapply Forall_impl; [exact Hint|]. intros [k c] Hc. cbn [fst snd] in *.
  unfold clean_cells. destruct (get_sql_type c) eqn:Hty; [by eexists| |by eexists].
  unfold source. cbn [fst snd]. destruct (found U P df k) as [v|] eqn:Hv.
  - destruct (traverse_Ok (coerce_integer P) _
                (to_numeric_series_casts P v (Hc eq_refl v eq_refl)))
      as (v' & -> & _).
    by eexists.
  - destruct (clean_cells_default P c (nrows df) Hty) as [v' Hv'].
    unfold clean_cells in Hv'. rewrite Hty in Hv'. by exists v'.
Qed.

Lemma transform_cells df e0 rest v0 :
  let column_mapping := e0 :: rest in
  well_formed P df → nrows df ≠ 0%nat → found U P df e0.1 = Some v0 →
  NoDup column_mapping.*2 →
  Forall (λ e, get_sql_type e.2 = INTEGER → ∀ v, found U P df e.1 = Some v →
               Forall (λ c, ∃ c', coerce_integer P c = Ok c') v) column_mapping →
  transform U P df column_mapping
  = Ok (map (λ i, map (λ e, default CNaN
                              (stored_cell U P e.2 (source U P df e)
                                 <$> source U P df e !! i))
                    column_mapping)
          (seq 0 (nrows df))).
Proof.
  intros column_mapping Hwf Hn0 Hf Hnd Hint.
  pose proof (casts_clean df column_mapping Hint) as Hok.
  subst column_mapping.
  rewrite (transform_Ok U P df e0 rest v0) by done.
  f_equal. apply map_ext_in. intros i Hi%in_seq.
  apply map_ext_in. intros e He%list_elem_of_In.
  rewrite Forall_forall in Hok. rewrite final_cells_source by by apply Hok.
  rewrite nth_lookup, list_lookup_fmap. done.
Qed.
End Rows.

(** X14. Row i of the upload becomes row i of the insert.  For an upload
    with at least one row, the header of the first mapping entry and
    integer columns that cast, the value in the column of a mapping entry
    whose header the upload has is the cell of the upload coerced by the
    type of the column.  REAL: the number the cell reads as, 0.0 when it
    reads as none; the column is read as a whole, so the number is an
    integer only when every cell of the column reads as an integer and is
    a float otherwise.  INTEGER: that number cast to an integer, 0 for a
    cell that reads as none, and handed over as the float of this integer
    when the column of the upload is a float64 column, which keeps its
    dtype.  TEXT: the str() of the cell, on which the date repair or the
    time repair is then run for the payment date and the payment time. *)
Theorem import_cell_values (U : ucd) (P : pandas) (df : frame (float P))
    (e0 : list N * list N) (rest : list (list N * list N))
    (v0 v : list (cell (float P))) (key db_col : list N) :
  let column_mapping := e0 :: rest in
  well_formed P df → nrows df ≠ 0%nat → found U P df e0.1 = Some v0 →
  NoDup column_mapping.*2 →
  Forall (λ e, get_sql_type e.2 = INTEGER → ∀ v, found U P df e.1 = Some v →
               Forall (λ c, ∃ c', coerce_integer P c = Ok c') v) column_mapping →
  (key, db_col) ∈ column_mapping → found U P df key = Some v →
  ∃ rows,
    transform U P df column_mapping = Ok rows
    ∧ length rows = nrows df
    ∧ ∀ i c, v !! i = Some c →
        ∃ row, rows !! i = Some row
          ∧ assoc db_col (zip column_mapping.*2 row)
            = Some (stored_cell U P db_col v c).
Proof.
  intros column_mapping Hwf Hn0 Hf0 Hnd Hint Hin Hf.
  eexists. split; [by apply (transform_cells U P df e0 rest v0)|].
  fold column_mapping. split; [by rewrite length_map, length_seq|].
  intros i c Hc.
  assert (i < nrows df)%nat as Hi.
  { rewrite <- (found_length U P df key v Hwf Hf). by eapply lookup_lt_Some. }
  eexists. split.
  { rewrite list_lookup_fmap, lookup_seq_lt by done. done. }
  cbn [Nat.add]. rewrite zip_second.
  rewrite (assoc_named snd _ column_mapping (key, db_col)) by done.
  unfold source. cbn [fst snd]. by rewrite Hf, Hc.
Qed.

(** X15. Under the same hypotheses every value handed to the store is a
    string in a TEXT column and a number in a REAL column.  In an INTEGER
    column it is an integer, unless the column of the upload it is read
    from is a float64 column: then it is the float of an integer.  No
    missing value reaches the store. *)
Theorem import_rows_typed (U : ucd) (P : pandas) (df : frame (float P))
    (e0 : list N * list N) (rest : list (list N * list N))
    (v0 : list (cell (float P))) :
  let column_mapping := e0 :: rest in
  well_formed P df → nrows df ≠ 0%nat → found U P df e0.1 = Some v0 →
  NoDup column_mapping.*2 →
  Forall (λ e, get_sql_type e.2 = INTEGER → ∀ v, found U P df e.1 = Some v →
               Forall (λ c, ∃ c', coerce_integer P c = Ok c') v) column_mapping →
  ∃ rows,
    transform U P df column_mapping = Ok rows
    ∧ length rows = nrows df
    ∧ Forall (λ row,
                Forall2 (λ e c, has_type P (get_sql_type e.2) (source U P df e) c)
                  column_mapping row) rows.
Proof.
  intros column_mapping Hwf Hn0 Hf0 Hnd Hint.
  eexists. split; [by apply (transform_cells U P df e0 rest v0)|].
  fold column_mapping. split; [by rewrite length_map, length_seq|].
  apply Forall_map, Forall_forall. intros i Hi%elem_of_seq. cbn beta.
  apply Forall2_fmap_r, Forall_Forall2_diag, Forall_forall. intros e He.
  pose proof (casts_clean U P df column_mapping Hint) as Hok.
  rewrite Forall_forall in Hok. destruct (Hok e He) as [v' Hv'].
  destruct (lookup_lt_is_Some_2 (source U P df e) i) as [c Hc].
  { rewrite source_length by done. lia. }
  unfold compose. rewrite Hc. cbn. apply stored_cell_typed. intros Hty.
  unfold clean_cells in Hv'. rewrite Hty in Hv'.
  destruct (traverse _ _) as [w|] eqn:Hw; [|done].
  apply traverse_Ok_inv in Hw. unfold to_numeric_series in Hw.
  rewrite Forall_map, Forall_forall in Hw.
  apply Hw. by eapply list_elem_of_lookup_2.
Qed.

Lemma float_seats_imports :
  well_formed pandas0 float_seats ∧ nrows float_seats ≠ 0%nat
  ∧ found latin pandas0 float_seats (lit "Payment Date")
    = Some [CStr (lit "31/01/2024"); CStr (lit "01/02/2024")]
  ∧ found latin pandas0 float_seats (lit "Seat Amount") = Some [CFloat 2; CNaN]
  ∧ NoDup BILLS_COLUMN_MAPPING.*2
  ∧ Forall (λ e, get_sql_type e.2 = INTEGER →
               ∀ v, found latin pandas0 float_seats e.1 = Some v →
                    Forall (λ c, ∃ c', coerce_integer pandas0 c = Ok c') v)
      BILLS_COLUMN_MAPPING.
Proof.
  split_and!.
  - by repeat constructor.
  - done.
  - by vm_compute.
  - by vm_compute.
  - apply (bool_decide_unpack _). by vm_compute.
  - repeat (constructor;
            [intros Hty v Hv; vm_compute in Hty, Hv;
             first [discriminate
                   |injection Hv as <-; repeat constructor; by eexists]|]).
    constructor.
Defined.

Lemma import_cell_values_witness :
  ∃ rows r0 r1,
    transform latin pandas0 float_seats BILLS_COLUMN_MAPPING = Ok rows
    ∧ rows !! 0%nat = Some r0 ∧ rows !! 1%nat = Some r1
    ∧ assoc (lit "seat_amount") (zip BILLS_COLUMN_MAPPING.*2 r0) = Some (CFloat 2)
    ∧ assoc (lit "seat_amount") (zip BILLS_COLUMN_MAPPING.*2 r1) = Some (CFloat 0).
Proof.
  destruct float_seats_imports as (Hwf & Hn & Hf & Hs & Hnd & Hint).
  destruct (import_cell_values latin pandas0 float_seats
              (lit "Payment Date", lit "payment_date") (tail BILLS_COLUMN_MAPPING)
              [CStr (lit "31/01/2024"); CStr (lit "01/02/2024")] [CFloat 2; CNaN]
              (lit "Seat Amount") (lit "seat_amount") Hwf Hn Hf Hnd Hint)
    as (rows & Ht & _ & Hrows).
  - apply (bool_decide_unpack _). by vm_compute.
  - exact Hs.
  - destruct (Hrows 0%nat (CFloat 2) eq_refl) as (r0 & Hr0 & Hc0).
    destruct (Hrows 1%nat CNaN eq_refl) as (r1 & Hr1 & Hc1).
    exists rows, r0, r1.
    split_and!; [exact Ht|exact Hr0|exact Hr1|exact Hc0|exact Hc1].
Defined.

Lemma import_rows_typed_witness :
  ∃ rows,
    transform latin pandas0 float_seats BILLS_COLUMN_MAPPING = Ok rows
    ∧ Forall (λ row,
                Forall2 (λ e c, has_type pandas0 (get_sql_type e.2)
                                  (source latin pandas0 float_seats e) c)
                  BILLS_COLUMN_MAPPING row) rows.
Proof.
  destruct float_seats_imports as (Hwf & Hn & Hf & _ & Hnd & Hint).
  destruct (import_rows_typed latin pandas0 float_seats
              (lit "Payment Date", lit "payment_date") (tail BILLS_COLUMN_MAPPING)
              [CStr (lit "31/01/2024"); CStr (lit "01/02/2024")] Hwf Hn Hf Hnd Hint)
    as (rows & Ht & _ & Hrows).
  exists rows. split; [exact Ht|exact Hrows].
Defined.

(** ** The schema and the import agree *)

Lemma column_sql_name P db_col : cd_name (column_sql P db_col) = db_col.
Proof. unfold column_sql. by repeat case_match. Qed.

Lemma created_columns_names P column_mapping :
  created_columns P column_mapping
  = lit "id" :: column_mapping.*2 ++ [lit "created_at"].
Proof.
  unfold created_columns, columns_sql_parts. do 2 f_equal.
  rewrite map_map. etrans; [|apply map_id]. apply map_ext.
  intros c. apply column_sql_name.
Qed.

(** X16. For every column name, the type written into CREATE TABLE is the
    one [get_sql_type] gives; the DEFAULT of a NOT NULL column is the value
    the import fills in for that column when the upload lacks it; and an
    INTEGER column is always declared NOT NULL DEFAULT 0. *)
Theorem schema_agrees_with_import (P : pandas) (db_col : list N) :
  let d := column_sql P db_col in
  cd_name d = db_col
  ∧ cd_type d = get_sql_type db_col
  ∧ (∀ x, cd_not_null_default d = Some x → x = default_value P db_col)
  ∧ (get_sql_type db_col = INTEGER → cd_not_null_default d = Some (CInt 0)).
Proof.
  intros d. subst d. split; [apply column_sql_name|].
  unfold column_sql, default_value.
  destruct (mem db_col [lit "receipt_number"; lit "menu_name"]) eqn:H1.
  { apply mem_true in H1. set_unfold in H1.
    destruct H1 as [->|[->|[]]]; split_and!; try done; by intros x [= <-]. }
  destruct (mem db_col [lit "total_final_bill"; lit "quantity"; lit "summary_price";
                        lit "price_per_unit"; lit "discounted_price"]) eqn:H2.
  { apply mem_true in H2. set_unfold in H2.
    destruct H2 as [->|[->|[->|[->|[->|[]]]]]]; split_and!; try done;
      by intros x [= <-]. }
  case_bool_decide as H3.
  { subst db_col. split_and!; try done; by intros x [= <-]. }
  destruct (mem db_col [lit "voucher_amount_desc"; lit "voucher_discount"]) eqn:H4.
  { apply mem_true in H4. set_unfold in H4.
    destruct H4 as [->|[->|[]]]; split_and!; try done; by intros x [= <-]. }
  cbn [andb cd_type cd_not_null_default]. split_and!; [done|done|].
  intros Hty. destruct H3. unfold get_sql_type in Hty.
  destruct (mem db_col numeric_cols); [done|].
  destruct (mem db_col integer_cols) eqn:Hi; [|by case_match].
  apply mem_true in Hi. unfold integer_cols in Hi.
  by apply list_elem_of_singleton in Hi.
Qed.

(** X17. Creating a table never loses data: every table that was there is
    still there with the same rows, creating twice is creating once, and
    when the table exists already the call changes nothing, whatever
    mapping it is given: the schema of an existing table is not updated. *)
Theorem create_keeps_data (P : pandas) (E : engine (float P))
    (D : schema_engine (float P)) (table_name : list N)
    (column_mapping column_mapping' : list (list N * list N))
    (db : gmap (list N) (table (float P))) :
  let db' := create_table_from_mapping P E D table_name column_mapping db in
  (∀ name t, db !! name = Some t → db' !! name = Some t)
  ∧ (∀ name, stored db' name = stored db name)
  ∧ create_table_from_mapping P E D table_name column_mapping db' = db'
  ∧ (is_Some (db !! table_name) →
     create_table_from_mapping P E D table_name column_mapping' db = db).
Proof.
  intros db'. subst db'. unfold create_table_from_mapping.
  destruct (connects E) eqn:Hc; [|by rewrite ?Hc].
  destruct (db !! table_name) as [t|] eqn:Ht.
  { rewrite Ht. by split_and!. }
  destruct (creates D table_name _) eqn:Hcr.
  - rewrite lookup_insert_eq. split_and!; [| |done|by intros []].
    + intros name t' Hn. rewrite lookup_insert_ne; [done|]. intros <-. congruence.
    + intros name. unfold stored. destruct (decide (name = table_name)) as [->|Hne].
      * by rewrite lookup_insert_eq, Ht.
      * by rewrite lookup_insert_ne.
  - rewrite ?Ht, ?Hcr. split_and!; [done..|]. by intros [].
Qed.

(** X18. On a store without the table, a creation the engine accepts gives
    an empty table with the columns id, the mapped columns and created_at.
    The INSERT statement of the import for the same mapping compiles
    against it, so that import succeeds exactly when the transformation
    succeeds and the engine takes every row. *)
Theorem create_then_import (U : ucd) (P : pandas) (E : engine (float P))
    (D : schema_engine (float P)) (table_name : list N)
    (column_mapping : list (list N * list N))
    (db : gmap (list N) (table (float P))) :
  connects E = true → db !! table_name = None →
  creates D table_name (columns_sql_parts P column_mapping) = true →
  let db' := create_table_from_mapping P E D table_name column_mapping db in
  db' !! table_name = Some (Table (created_columns P column_mapping) [])
  ∧ prepares db' table_name column_mapping.*2 = true
  ∧ ∀ df,
      (insert_data_from_df U P E df table_name column_mapping db').1 = true
      ↔ ∃ rows, transform U P df column_mapping = Ok rows
          ∧ Forall (λ row, accepts E table_name (zip column_mapping.*2 row) = true)
              rows.
Proof.
  intros Hc Hdb Hcr db'. subst db'. unfold create_table_from_mapping.
  rewrite Hc, Hdb, Hcr.
  set (db' := <[table_name := _]> db).
  assert (prepares db' table_name column_mapping.*2 = true) as Hp.
  { unfold prepares, db'. rewrite lookup_insert_eq. cbn [tcols].
    apply forallb_forall. intros c Hin%list_elem_of_In. apply mem_true.
    rewrite created_columns_names. right. apply elem_of_app. by left. }
  split_and!; [by unfold db'; rewrite lookup_insert_eq|done|].
  intros df. unfold insert_data_from_df, try_block, executemany.
  rewrite Hc. cbn [committed]. rewrite Hp.
  destruct (transform U P df column_mapping) as [rows|e]; [|split; [done|by intros (? & ? & _)]].
  destruct (insert_rows E table_name column_mapping.*2 rows (Connection db' []))
    as [[[]|e] c] eqn:Hi; cbn.
  - split; [|done]. intros _. exists rows. split; [done|].
    by apply insert_rows_Ok in Hi as [_ ?].
  - split; [done|]. intros (rows' & [= <-] & Hacc).
    rewrite insert_rows_accepted in Hi by done. done.
Qed.

Lemma create_then_import_witness :
  prepares (create_bills_table pandas0 sqlite_ok sqlite_ddl ∅) (lit "bills")
    BILLS_COLUMN_MAPPING.*2 = true.
Proof.
  apply (create_then_import latin pandas0 sqlite_ok sqlite_ddl (lit "bills")
           BILLS_COLUMN_MAPPING ∅); done.
Defined.

(** ** The order of [sorted] *)

Lemma str_leb_refl a : str_leb a a = true.
Proof. induction a as [|x a IH]; [done|]. cbn. by rewrite N.ltb_irrefl. Qed.

Lemma str_leb_total a b : str_leb a b = true ∨ str_leb b a = true.
Proof.
  revert b. induction a as [|x a IH]; intros [|y b]; cbn; auto.
  destruct (N.ltb_spec x y), (N.ltb_spec y x); auto; lia.
Qed.

Lemma str_leb_antisym a b : str_leb a b = true → str_leb b a = true → a = b.
Proof.
  revert b. induction a as [|x a IH]; intros [|y b]; cbn; try done.
  destruct (N.ltb_spec x y), (N.ltb_spec y x); try done; try lia.
  intros Hab Hba. assert (x = y) as -> by lia. f_equal. by apply IH.
Qed.

Lemma str_leb_trans a b c :
  str_leb a b = true → str_leb b c = true → str_leb a c = true.
Proof.
  revert b c. induction a as [|x a IH]; intros [|y b] [|z c]; cbn; try done.
  destruct (N.ltb_spec x y), (N.ltb_spec y x), (N.ltb_spec y z), (N.ltb_spec z y),
    (N.ltb_spec x z), (N.ltb_spec z x); try done; try lia.
  apply IH.
Qed.

Global Instance str_le_trans : Transitive str_le.
Proof. intros a b c. apply str_leb_trans. Qed.
Global Instance str_le_antisym : AntiSymm (=) str_le.
Proof. intros a b. apply str_leb_antisym. Qed.
Global Instance str_le_total : Total str_le.
Proof. intros a b. apply str_leb_total. Qed.

Lemma Sorted_sorted l : Sorted str_le (sorted l).
Proof. apply Sorted_merge_sort, _. Qed.

(** Two sorted listings of the same names, each once, are the same list. *)
Lemma sorted_unique_list (l k : list (list N)) :
  Sorted str_le l → Sorted str_le k → NoDup l → NoDup k →
  (∀ x, x ∈ l ↔ x ∈ k) → l = k.
Proof.
  intros Hl Hk Hnl Hnk Hlk. apply (Sorted_unique str_le); [done..|].
  by apply NoDup_Permutation.
Qed.

Lemma StronglySorted_filter_list {A} (R : relation A) (Q : A → Prop)
    `{!∀ x, Decision (Q x)} (l : list A) :
  StronglySorted R l → StronglySorted R (filter Q l).
Proof.
  induction 1 as [|x l Hl IH Hx]; [constructor|].
  rewrite filter_cons. destruct (decide (Q x)); [|done].
  constructor; [done|]. rewrite Forall_forall in Hx |- *.
  intros y [_ Hy]%list_elem_of_filter. by apply Hx.
Qed.

Lemma unique_spec (l seen : list (list N)) :
  NoDup seen →
  let r := foldl (λ seen x, if bool_decide (x ∈ seen) then seen else seen ++ [x])
             seen l in
  NoDup r ∧ ∀ x, x ∈ r ↔ x ∈ seen ∨ x ∈ l.
Proof.
  revert seen. induction l as [|y l IH]; intros seen Hnd; cbn.
  - split; [done|]. intros x. rewrite elem_of_nil. tauto.
  - case_bool_decide as Hy.
    + destruct (IH seen Hnd) as [Hr Hx]. split; [done|].
      intros x. rewrite Hx, elem_of_cons. split; [tauto|].
      intros [?|[->|?]]; auto.
    + destruct (IH (seen ++ [y])) as [Hr Hx].
      { apply NoDup_app. split_and!; [done| |apply NoDup_singleton].
        intros x Hin ->%list_elem_of_singleton. done. }
      split; [done|]. intros x.
      rewrite Hx, elem_of_app, list_elem_of_singleton, elem_of_cons. tauto.
Qed.

Lemma NoDup_unique l : NoDup (unique l).
Proof. apply (unique_spec l []). constructor. Qed.

Lemma elem_of_unique l x : x ∈ unique l ↔ x ∈ l.
Proof.
  destruct (unique_spec l [] (NoDup_nil_2)) as [_ H]. unfold unique.
  rewrite H, elem_of_nil. tauto.
Qed.

Lemma list_filter_iff_in {A} (Q1 Q2 : A → Prop)
    `{!∀ x, Decision (Q1 x), !∀ x, Decision (Q2 x)} (l : list A) :
  (∀ x, x ∈ l → Q1 x ↔ Q2 x) → filter Q1 l = filter Q2 l.
Proof.
  induction l as [|a l IH]; intros Hiff; [done|].
  assert (filter Q1 l = filter Q2 l) as Hl.
  { apply IH. intros x Hx. apply Hiff. by right. }
  pose proof (Hiff a ltac:(by left)) as Ha. rewrite !filter_cons, Hl.
  destruct (decide (Q1 a)), (decide (Q2 a)); tauto.
Qed.

Lemma all_menu_names_eq P db :
  all_menu_names P db
  = sorted (unique (menu_name <$> get_bill_details_for_analysis P db)).
Proof. unfold all_menu_names. by destruct (get_bill_details_for_analysis P db). Qed.

(** X19. The column labels of the basket matrix are the menu names that
    app.py offers for exclusion, in the same sorted order, without the
    excluded ones.  Restricting the default exclusions to the names on
    offer, as app.py does, gives the same basket as the unrestricted
    list. *)
Theorem basket_columns_are_menu_names (P : pandas)
    (db : gmap (list N) (table (float P)))
    (exclude_items : option (list (list N))) (default_exclude_items : list (list N)) :
  oh_columns (get_basket_data P db exclude_items)
  = filter (λ c, c ∉ default [] exclude_items) (all_menu_names P db)
  ∧ get_basket_data P db
      (Some (default_selection default_exclude_items (all_menu_names P db)))
    = get_basket_data P db (Some default_exclude_items).
Proof.
  split.
  - rewrite get_basket_data_eq, all_menu_names_eq. cbn [oh_columns].
    apply (StronglySorted_unique str_le).
    + apply Sorted_StronglySorted; [apply _|]. apply Sorted_sorted.
    + apply StronglySorted_filter_list, Sorted_StronglySorted; [apply _|].
      apply Sorted_sorted.
    + apply NoDup_Permutation.
      * apply NoDup_sorted, NoDup_remove_dups.
      * apply NoDup_filter, NoDup_sorted, NoDup_unique.
      * intros c. rewrite elem_of_te_fit, list_elem_of_filter, elem_of_sorted,
          elem_of_unique, list_elem_of_fmap. split.
        -- intros (d & [Hex Hd]%list_elem_of_filter & <-). split; [done|by exists d].
        -- intros (Hex & d & -> & Hd). exists d. split; [|done].
           by apply list_elem_of_filter.
  - rewrite !get_basket_data_eq. cbn [default from_option id].
    assert (filter (λ d, menu_name d ∉ default_selection default_exclude_items
                                        (all_menu_names P db))
              (get_bill_details_for_analysis P db)
            = filter (λ d, menu_name d ∉ default_exclude_items)
                (get_bill_details_for_analysis P db)) as ->; [|done].
    apply list_filter_iff_in. intros d Hd.
    unfold default_selection. rewrite list_elem_of_filter.
    assert (menu_name d ∈ all_menu_names P db).
    { rewrite all_menu_names_eq, elem_of_sorted, elem_of_unique.
      by apply list_elem_of_fmap_2. }
    tauto.
Qed.

(** ** From an upload of bill details to the basket *)

Lemma import_stores U P (E : engine (float P)) df table_name column_mapping db t data :
  connects E = true → db !! table_name = Some t →
  prepares db table_name column_mapping.*2 = true →
  transform U P df column_mapping = Ok data →
  Forall (λ row, accepts E table_name (zip column_mapping.*2 row) = true) data →
  insert_data_from_df U P E df table_name column_mapping db
  = (true, <[table_name := Table (tcols t)
               (trows t ++ map (zip column_mapping.*2) data)]> db).
Proof.
  intros Hc Ht Hp Hd Hacc. unfold insert_data_from_df, try_block, executemany.
  rewrite Hc, Hd. cbn [committed]. rewrite Hp, insert_rows_accepted by done.
  cbn [commit close committed pending app]. f_equal.
  rewrite <- (add_rows_lookup db table_name t) by done. by rewrite map_map.
Qed.

Lemma text_of_text P s : text_of P (Some (CStr s)) = s.
Proof. done. Qed.

Lemma stored_menu_name U P v x :
  stored_cell U P (lit "menu_name") v x = CStr (py_str P x).
Proof. done. Qed.

Lemma basket_columns P db c :
  c ∈ oh_columns (get_basket_data P db None)
  ↔ ∃ d, d ∈ get_bill_details_for_analysis P db ∧ menu_name d = c.
Proof.
  rewrite get_basket_data_eq. cbn [oh_columns default from_option id].
  rewrite elem_of_te_fit. split.
  - intros (d & [_ Hd]%list_elem_of_filter & Hc). by exists d.
  - intros (d & Hd & Hc). exists d. split; [|done].
    apply list_elem_of_filter. split; [apply not_elem_of_nil|done].
Qed.

(** X20. After a successful import of bill details, the column labels of
    the basket without exclusion are those from before the import together
    with the str() of every cell of the upload's menu-name column that is
    not the empty string; a missing cell contributes its str(), the text
    "nan". *)
Theorem imported_menu_names_reach_the_basket (U : ucd) (P : pandas)
    (E : engine (float P)) (df : frame (float P))
    (db : gmap (list N) (table (float P))) (v0 v : list (cell (float P))) :
  let names := DETAIL_BILLS_COLUMN_MAPPING.*2 in
  let r := insert_bill_details_data U P E df db in
  well_formed P df → nrows df ≠ 0%nat →
  found U P df (lit "Payment Date") = Some v0 →
  found U P df (lit "Menu Name") = Some v →
  connects E = true → prepares db (lit "bill_details") names = true →
  (∀ rows, transform U P df DETAIL_BILLS_COLUMN_MAPPING = Ok rows →
           Forall (λ row, accepts E (lit "bill_details") (zip names row) = true) rows) →
  r.1 = true
  ∧ ∀ c, c ∈ oh_columns (get_basket_data P r.2 None)
         ↔ c ∈ oh_columns (get_basket_data P db None)
           ∨ (c ≠ [] ∧ ∃ x, x ∈ v ∧ py_str P x = c).
Proof.
  intros names r Hwf Hn0 Hf0 Hfm Hconn Hprep Hacc. subst r.
  unfold insert_bill_details_data.
  assert (DETAIL_BILLS_COLUMN_MAPPING
          = (lit "Payment Date", lit "payment_date") :: tail DETAIL_BILLS_COLUMN_MAPPING)
    as Hmap by done.
  assert (NoDup names) as Hnd.
  { apply (bool_decide_unpack _). by vm_compute. }
  assert (Forall (λ e, get_sql_type e.2 = INTEGER →
                       ∀ v, found U P df e.1 = Some v →
                            Forall (λ c, ∃ c', coerce_integer P c = Ok c') v)
            DETAIL_BILLS_COLUMN_MAPPING) as Hint.
  { assert (Forall (λ e : list N * list N, get_sql_type e.2 ≠ INTEGER)
              DETAIL_BILLS_COLUMN_MAPPING) as Hno.
    { repeat (constructor; [by vm_compute|]). constructor. }
    eapply Forall_impl; [exact Hno|]. by intros e He ?. }
  pose proof (transform_cells U P df (lit "Payment Date", lit "payment_date")
                (tail DETAIL_BILLS_COLUMN_MAPPING) v0 Hwf Hn0 Hf0) as Ht.
  cbv zeta in Ht. rewrite <- Hmap in Ht. specialize (Ht Hnd Hint).
  unfold prepares in Hprep.
  destruct (db !! lit "bill_details") as [t|] eqn:Hdb; [|done].
  rewrite (import_stores U P E df (lit "bill_details") DETAIL_BILLS_COLUMN_MAPPING
             db t _ Hconn Hdb) by (try done; unfold prepares; by rewrite ?Hdb; auto).
  cbn [fst snd]. split; [done|]. intros c.
  set (cells := λ i : nat,
         map (λ e : list N * list N,
                default CNaN (stored_cell U P e.2 (source U P df e)
                                <$> source U P df e !! i))
           DETAIL_BILLS_COLUMN_MAPPING).
  set (rows := map (zip DETAIL_BILLS_COLUMN_MAPPING.*2) (map cells (seq 0 (nrows df)))).
  set (mk := λ row : list (list N * cell (float P)),
         Detail (text_of P (assoc (lit "receipt_number") row))
                (text_of P (assoc (lit "menu_name") row))).
  assert (get_bill_details_for_analysis P
            (<[lit "bill_details" := Table (tcols t) (trows t ++ rows)]> db)
          = get_bill_details_for_analysis P db
            ++ filter (λ d, menu_name d ≠ []) (map mk rows)) as Hdetails.
  { unfold get_bill_details_for_analysis, stored.
    rewrite lookup_insert_eq, Hdb. cbn [trows]. by rewrite map_app, filter_app. }
  assert (∀ i x, v !! i = Some x →
            menu_name (mk (zip DETAIL_BILLS_COLUMN_MAPPING.*2 (cells i))) = py_str P x)
    as Hmenu.
  { intros i x Hx. unfold mk, cells. cbn [menu_name]. rewrite zip_second.
    rewrite (assoc_named snd _ DETAIL_BILLS_COLUMN_MAPPING
               (lit "Menu Name", lit "menu_name")).
    - unfold source. cbn [fst snd]. rewrite Hfm, Hx. done.
    - done.
    - apply (bool_decide_unpack _). by vm_compute. }
  assert (length v = nrows df) as Hlen by by eapply found_length.
  rewrite !basket_columns, Hdetails. split.
  - intros (d & [Hd|Hd]%elem_of_app & Hc); [left; by exists d|right].
    apply list_elem_of_filter in Hd as [Hne Hd].
    apply list_elem_of_fmap in Hd as (row & -> & Hrow).
    unfold rows in Hrow. rewrite map_map in Hrow.
    apply list_elem_of_fmap in Hrow as (i & -> & Hi%elem_of_seq).
    destruct (lookup_lt_is_Some_2 v i) as [x Hx]; [lia|].
    rewrite (Hmenu i x Hx) in Hc, Hne. subst c. split; [done|].
    exists x. split; [by eapply list_elem_of_lookup_2|done].
  - intros [(d & Hd & Hc)|(Hne & x & Hx & Hc)].
    + exists d. split; [|done]. apply elem_of_app. by left.
    + apply list_elem_of_lookup_1 in Hx as [i Hx].
      exists (mk (zip DETAIL_BILLS_COLUMN_MAPPING.*2 (cells i))).
      rewrite (Hmenu i x Hx). split; [|done]. apply elem_of_app. right.
      apply list_elem_of_filter. split; [by rewrite (Hmenu i x Hx), Hc|].
      apply list_elem_of_fmap_2. unfold rows. rewrite map_map.
      apply (list_elem_of_fmap_2 (λ i, zip _ (cells i))).
      apply elem_of_seq. apply lookup_lt_Some in Hx. lia.
Qed.


Lemma imported_menu_names_reach_the_basket_witness :
  lit "tea" ∈ oh_columns
    (get_basket_data pandas0
       (insert_bill_details_data latin pandas0 sqlite_ok tea_upload details_db).2 None).
Proof.
  destruct (imported_menu_names_reach_the_basket latin pandas0 sqlite_ok tea_upload
              details_db [CStr (lit "31/01/2024")] [CStr (lit "tea")])
    as [_ H].
  - by repeat constructor.
  - done.
  - by vm_compute.
  - by vm_compute.
  - done.
  - by vm_compute.
  - intros rows _. by apply Forall_true.
  - apply H. right. split; [done|]. exists (CStr (lit "tea")).
    split; [by left|done].
Defined.
